(** * edf2cfs: the per-file EDF to CFS conversion pipeline

    A shallow embedding of [src/edf2cfs.cpp] (with [sp::sinc] from
    [src/sigpack/base/base.h] and [sp::FFTW::fft] from
    [src/sigpack/fftw/fftw.h]) and the properties of the pipeline that
    the specification states about it.

    Conventions.
    - C++ [int], [long long], [size_t] values are [Z]; narrowing to
      [uint8_t] / [uint16_t] is written out as a reduction modulo 2^8 /
      2^16.
    - C++ [double] is the kernel's binary64 type [float]; arithmetic on
      it is IEEE-754 arithmetic, evaluated by the kernel.
    - [std::string] / [char*] are [string]; bytes on disk are
      [Byte.byte].
    - Code that is linked from outside the repository (edflib, zlib,
      Armadillo, FFTW, libm) or whose header is not part of the source
      tree ([SHA1.h], [resample.h], [order32.h], [window/window.h]) is
      collected in the record [Externals]; the pipeline is a function of
      it.
    - [convertFile] runs in a state-and-error monad over the files on
      disk, the free space and a trace of the EDF reader calls. *)

From Stdlib Require Import ZArith List Bool String Ascii Lia Floats.
From Stdlib Require Import Strings.Byte Lists.Finite.
Import ListNotations.

Set Warnings "-inexact-float".

Local Open Scope Z_scope.

(** ** Numbers *)

Module Num.

(** [(double) z] for an integer [z]: round to nearest, ties to even. *)
Definition of_Z (z : Z) : float :=
  SF2Prim (binary_normalize prec emax z 0 false).

(** [(int) f]: truncation toward zero.  [None] for NaN and the
    infinities, where the C++ conversion is undefined. *)
Definition truncate (f : float) : option Z :=
  match Prim2SF f with
  | S754_zero _ => Some 0
  | S754_finite s m e =>
      let mag := if 0 <=? e then Zpos m * 2 ^ e else Zpos m / 2 ^ (- e) in
      Some (if s then - mag else mag)
  | S754_infinity _ | S754_nan => None
  end.

Definition INT_MAX : Z := 2147483647.
Definition INT_MIN : Z := -2147483648.

Definition in_int (z : Z) : bool := (INT_MIN <=? z) && (z <=? INT_MAX).

(** [(int) f] with the range of [int] taken into account. *)
Definition to_int (f : float) : option Z :=
  match truncate f with
  | Some z => if in_int z then Some z else None
  | None => None
  end.

Definition to_uint8 (z : Z) : Z := z mod 256.
Definition to_uint16 (z : Z) : Z := z mod 65536.

Definition byte_of_Z (z : Z) : byte :=
  match Byte.of_N (Z.to_N (z mod 256)) with
  | Some b => b
  | None => x00
  end.

(** The [n] bytes of an unsigned value, least significant first. *)
Fixpoint le_bytes (n : nat) (v : Z) : list byte :=
  match n with
  | O => []
  | S n' => byte_of_Z v :: le_bytes n' (v / 256)
  end.

End Num.

(** ** Strings *)

Module Str.

(** [tolower] in the C locale. *)
Definition tolower (c : ascii) : ascii :=
  let n := N_of_ascii c in
  if (65 <=? n)%N && (n <=? 90)%N then ascii_of_N (n + 32) else c.

(** [strlwr], edf2cfs.cpp:744: every character up to the terminator is
    replaced by its lower-case form. *)
Fixpoint strlwr (str : string) : string :=
  match str with
  | EmptyString => EmptyString
  | String c p => String (tolower c) (strlwr p)
  end.

(** [s.find_last_of(".")]: index of the last dot, if any. *)
Fixpoint find_last_of_dot (s : string) (i : nat) (last : option nat)
  : option nat :=
  match s with
  | EmptyString => last
  | String c s' =>
      find_last_of_dot s' (S i)
        (if Ascii.eqb c "."%char then Some i else last)
  end.

(** [removeExtension], edf2cfs.cpp:726. *)
Definition removeExtension (filename : string) : string :=
  match find_last_of_dot filename 0 None with
  | None => filename
  | Some lastdot => String.substring 0 lastdot filename
  end.

(** [units.compare(0, n, lit) == 0]: the first [n] characters of
    [units] (fewer if it is shorter) equal [lit]. *)
Definition compare_prefix (units : string) (n : nat) (lit : string) : bool :=
  String.eqb (String.substring 0 (Nat.min n (String.length units)) units) lit.

End Str.

(** ** The EDF header, as edflib hands it over *)

Record edf_param_struct := {
  label : string;
  smp_in_file : Z;
  smp_in_datarecord : Z;
  physdimension : string
}.

Record edf_hdr_struct := {
  datarecord_duration : Z;
  signalparam : list edf_param_struct
}.

Definition edfsignals (hdr : edf_hdr_struct) : Z :=
  Z.of_nat (List.length (signalparam hdr)).

(** [EDFLIB_TIME_DIMENSION] of edflib.h: durations are counted in units
    of 100 ns. *)
Definition EDFLIB_TIME_DIMENSION : Z := 10000000.

Definition param0 : edf_param_struct :=
  {| label := ""; smp_in_file := 0; smp_in_datarecord := 0;
     physdimension := "" |}.

(** [hdr.signalparam[n]] *)
Definition param (hdr : edf_hdr_struct) (n : Z) : edf_param_struct :=
  nth (Z.to_nat n) (signalparam hdr) param0.

(** ** Channel resolver (edf2cfs.cpp:366-418) *)

Inductive role := C3 | C4 | EL | ER.

Definition role_index (r : role) : nat :=
  match r with C3 => 0 | C4 => 1 | EL => 2 | ER => 3 end.

(** [std::find] followed by [std::distance]: the index of the first
    element equal to [x]. *)
Fixpoint find_index (l : list string) (x : string) (i : Z) : option Z :=
  match l with
  | [] => None
  | y :: l' => if String.eqb y x then Some i else find_index l' x (i + 1)
  end.

(** The loop at edf2cfs.cpp:366: the EDF labels, each lower-cased. *)
Definition allLabels (hdr : edf_hdr_struct) : list string :=
  map (fun p => Str.strlwr (label p)) (signalparam hdr).

(** One [find] block: the requested label is looked up as it was given. *)
Definition resolve (hdr : edf_hdr_struct) (channelLabels : list string)
    (r : role) : option Z :=
  find_index (allLabels hdr) (nth (role_index r) channelLabels ""%string) 0.

(** ** Unit normaliser (edf2cfs.cpp:756) *)

Definition findMultiplier (units : string) : float :=
  if Str.compare_prefix units 2 "nV" then 0.001%float
  else if Str.compare_prefix units 2 "uV" then 1%float
  else if Str.compare_prefix units 2 "mV" then 1000%float
  else if Str.compare_prefix units 1 "V" then 1000000%float
  else (-1)%float.

(** Sampling rate of signal [n] (edf2cfs.cpp:421). *)
Definition sample_rate (hdr : edf_hdr_struct) (n : Z) : float :=
  (Num.of_Z (smp_in_datarecord (param hdr n))
     / Num.of_Z (datarecord_duration hdr)
     * Num.of_Z EDFLIB_TIME_DIMENSION)%float.


(** ** Vectors (Armadillo's [vec]) *)

Definition vec := list float.

Definition len {A} (l : list A) : Z := Z.of_nat (List.length l).

Definition zeros (n : Z) : vec := repeat 0%float (Z.to_nat n).

(** [v * m] for a scalar [m]. *)
Definition scale (v : vec) (m : float) : vec := map (fun x => (x * m)%float) v.

(** [v / d] for a scalar [d]. *)
Definition div_scalar (v : vec) (d : float) : vec :=
  map (fun x => (x / d)%float) v.

(** [v(i)] / [v[i]]. *)
Definition at_ {A} (d : A) (v : list A) (i : Z) : A := nth (Z.to_nat i) v d.

(** [v[i] = x]. *)
Definition set_at {A} (v : list A) (i : Z) (x : A) : list A :=
  firstn (Z.to_nat i) v ++ x :: skipn (S (Z.to_nat i)) v.

(** [v.subvec(a, b)]: the elements [a..b]; Armadillo raises
    [std::logic_error] when [a > b] or [b >= n_elem]. *)
Definition subvec {A} (v : list A) (a b : Z) : option (list A) :=
  if (0 <=? a) && (a <=? b) && (b <? len v)
  then Some (firstn (Z.to_nat (b - a + 1)) (skipn (Z.to_nat a) v))
  else None.

(** [v.subvec(a, b) = x]: the sizes have to agree. *)
Definition set_subvec {A} (v : list A) (a b : Z) (x : list A)
  : option (list A) :=
  if (0 <=? a) && (a <=? b) && (b <? len v) && (len x =? b - a + 1)
  then Some (firstn (Z.to_nat a) v ++ x ++ skipn (Z.to_nat (b + 1)) v)
  else None.

Fixpoint zip_with {A} (f : A -> A -> A) (x y : list A) : list A :=
  match x, y with
  | a :: x', b :: y' => f a b :: zip_with f x' y'
  | _, _ => []
  end.

(** Element-wise [x % y] and [x + y]; Armadillo raises
    [std::logic_error] when the sizes differ. *)
Definition schur (x y : vec) : option vec :=
  if len x =? len y then Some (zip_with PrimFloat.mul x y) else None.

Definition vec_add (x y : vec) : option vec :=
  if len x =? len y then Some (zip_with PrimFloat.add x y) else None.

(** The values a loop [for (i = i0; i < bound; i += step)] runs its
    body on, for [step >= 1]. *)
Fixpoint range_step (fuel : nat) (i bound step : Z) : list Z :=
  match fuel with
  | O => []
  | S fuel' =>
      if i <? bound then i :: range_step fuel' (i + step) bound step else []
  end.

Definition for_range (i0 bound step : Z) : list Z :=
  range_step (Z.to_nat (bound - i0)) i0 bound step.

(** The values a loop [for (i = i0; cond i; i = next i)] runs its body
    on; [None] when it is still running after [fuel] rounds. *)
Fixpoint loop_indices (fuel : nat) (cond : Z -> bool) (next : Z -> Z) (i : Z)
  : option (list Z) :=
  match fuel with
  | O => None
  | S fuel' =>
      if cond i
      then option_map (cons i) (loop_indices fuel' cond next (next i))
      else Some []
  end.

(** ** What the pipeline links against *)

Inductive host_order := O32_LITTLE_ENDIAN | O32_BIG_ENDIAN.

Inductive zlib_result :=
| Z_OK (ostream : list byte)
| Z_BUF_ERROR
| Z_MEM_ERROR.

Definition cx := (float * float)%type.

Record Externals := {
  (** [O32_HOST_ORDER] of order32.h: the byte order of the host. *)
  O32_HOST_ORDER : host_order;
  (** [std::sin] *)
  c_sin : float -> float;
  (** [std::abs] of a [std::complex<double>] *)
  c_abs : cx -> float;
  (** [sp::hamming(N)] of sigpack's window/window.h *)
  hamming : Z -> vec;
  (** [arma::conv(x, h, "same")] *)
  conv_same : vec -> vec -> vec;
  (** [resample(upFactor, downFactor, input, output)] of resample.h,
      with the arguments as the call sites pass them *)
  resample : Z -> float -> vec -> vec;
  (** [fftw_execute_dft_r2c] on a plan of length [N]: the bins
      [0 .. N/2] of the transform of [N] real samples *)
  fftw_execute_dft_r2c : Z -> vec -> list cx;
  (** [CSHA1::Update; Final; GetHash]: the digest, [None] when
      [GetHash] reports failure *)
  sha1 : list byte -> option (list byte);
  (** zlib's [compressBound] and [compress] (destination capacity
      second) *)
  compressBound : Z -> Z;
  compress : list byte -> Z -> zlib_result
}.

Definition LITTLEENDIAN (E : Externals) : bool :=
  match O32_HOST_ORDER E with
  | O32_LITTLE_ENDIAN => true
  | O32_BIG_ENDIAN => false
  end.

(** Modelled from the spec: the length of the resampler's output
    (resample.h is not part of the source tree): [round(L * fT / fs)]
    for an input of [L] samples at the integer rate [fs], halves
    rounded up. *)
Definition resample_length (fT fs L : Z) : Z :=
  (2 * L * fT + fs) / (2 * fs).

(** ** FIR designer (sigpack/base/base.h:20, edf2cfs.cpp:717) *)

Definition PI : float := 3.14159265358979323846%float.

Definition sinc (E : Externals) (x : float) : float :=
  if (x =? 0)%float then 1%float
  else (c_sin E (PI * x) / (PI * x))%float.

Definition firBandPass_tap (E : Externals) (N : Z) (fl fh : float)
    (h : vec) (i : Z) : float :=
  (at_ 0 h i
   * (sinc E (fh * (Num.of_Z i - Num.of_Z N / 2.0)) * fh
      - sinc E (fl * (Num.of_Z i - Num.of_Z N / 2.0)) * fl))%float.

Definition firBandPass (E : Externals) (N : Z) (fl fh : float) : vec :=
  let b := zeros (N + 1) in
  let h := hamming E (N + 1) in
  fold_left (fun b i => set_at b i (firBandPass_tap E N fl fh h i))
    (for_range 0 (N + 1) 1) b.

Definition FILTERORDER : Z := 50.
Definition SAMPLINGRATE : Z := 100.

(** The three coefficient vectors (edf2cfs.cpp:528-535). *)
Definition filterEEG (E : Externals) (fC3 : float) : vec :=
  firBandPass E FILTERORDER (0.3 * 2 / fC3) (Num.of_Z (45 * 2) / fC3).

Definition filterEOGL (E : Externals) (fEL : float) : vec :=
  firBandPass E FILTERORDER (0.3 * 2 / fEL) (Num.of_Z (12 * 2) / fEL).

Definition filterEOGR (E : Externals) (fEL fER : float) : vec :=
  if (fER =? fEL)%float
  then firBandPass E FILTERORDER (0.3 * 2 / fER) (Num.of_Z (12 * 2) / fER)
  else filterEOGL E fEL.

(** ** The FFT wrapper (sigpack/fftw/fftw.h:133-164) *)

Definition czero : cx := (0%float, 0%float).

(** [std::conj] *)
Definition std_conj (z : cx) : cx := (fst z, (- snd z)%float).

(** [l] cut or padded to [n] elements. *)
Definition resize {A} (n : Z) (d : A) (l : list A) : list A :=
  firstn (Z.to_nat n) (l ++ repeat d (Z.to_nat n)).

(** [FFTW::fft(x, Pxx)]: FFTW fills the bins [0 .. N/2] of the
    [N]-element [Pxx]; the loop then mirrors them into the upper half. *)
Definition FFTW_fft (E : Externals) (N : Z) (x : vec) : list cx :=
  let Pxx := resize N czero (firstn (Z.to_nat (N / 2 + 1))
                               (fftw_execute_dft_r2c E N x)) in
  let offset := (N + 1) / 2 in   (* ceil(N / 2.0) *)
  let n_elem := N - offset in
  fold_left
    (fun Pxx i => set_at Pxx (offset + i) (std_conj (at_ czero Pxx (n_elem - i))))
    (for_range 0 n_elem 1) Pxx.

(** [abs(fftObject.fft(x))] with the global [fftObject(128)]. *)
Definition abs_fft (E : Externals) (x : vec) : vec :=
  map (c_abs E) (FFTW_fft E 128 x).

(** ** Feature extractor (edf2cfs.cpp:593-621) *)

(** [(int)(((double) n_elem) / 3000)]: the quotient of an exact
    conversion, truncated; on the counts a vector can hold this is the
    integer quotient. *)
Definition epochs_of (n_elem : Z) : Z := n_elem / 3000.

Definition epochSize : Z := 32 * 32 * 3.

(** The starts [j] of the frames of one epoch. *)
Definition frame_starts : list Z := for_range 0 (3000 - 128) 90.

Definition obind {A B} (o : option A) (f : A -> option B) : option B :=
  match o with
  | Some a => f a
  | None => None
  end.

Notation "x <-? o ; k" := (obind o (fun x => k))
  (at level 61, o at next level, right associativity).

(** The spectrum of the frame of [chan] that starts at [i * 3000 + j]. *)
Definition frame_spectrum (E : Externals) (hamWindow chan : vec) (i j : Z)
  : option vec :=
  f <-? subvec chan (i * 3000 + j) (i * 3000 + j + 128 - 1);
  d <-? schur f hamWindow;
  Some (abs_fft E d).

(** The body of the inner loop. *)
Definition spectrogram_step (E : Externals) (hamWindow : vec)
    (eegFilt eoglFilt eogrFilt : vec) (i j : Z) (payload : vec)
  : option vec :=
  let tIDX := j / 90 in
  eegFFTResult <-? frame_spectrum E hamWindow eegFilt i j;
  eoglFFTResult <-? frame_spectrum E hamWindow eoglFilt i j;
  eogrFFTResult <-? frame_spectrum E hamWindow eogrFilt i j;
  r0 <-? subvec eegFFTResult 0 (32 - 1);
  p1 <-? set_subvec payload (i * epochSize + tIDX * 32)
           (i * epochSize + tIDX * 32 + 32 - 1) r0;
  r1 <-? subvec eoglFFTResult 0 (32 - 1);
  p2 <-? set_subvec p1 (i * epochSize + 32 * 32 + tIDX * 32)
           (i * epochSize + 32 * 32 + tIDX * 32 + 32 - 1) r1;
  r2 <-? subvec eogrFFTResult 0 (32 - 1);
  set_subvec p2 (i * epochSize + 32 * 32 * 2 + tIDX * 32)
    (i * epochSize + 32 * 32 * 2 + tIDX * 32 + 32 - 1) r2.

(** A loop whose body may raise. *)
Fixpoint fold_opt {A S} (body : A -> S -> option S) (l : list A) (s : S)
  : option S :=
  match l with
  | [] => Some s
  | a :: l' => s' <-? body a s; fold_opt body l' s'
  end.

(** The two nested loops: [None] when Armadillo raises, or when
    [epochs * epochSize] leaves the range of [int]. *)
Definition spectrogram (E : Externals) (eegFilt eoglFilt eogrFilt : vec)
  : option (Z * vec) :=
  let epochs := epochs_of (len eegFilt) in
  if negb (Num.in_int (epochs * epochSize)) then None else
  let payload := zeros (epochs * epochSize) in
  let hamWindow := hamming E 128 in
  p <-? fold_opt
          (fun i p =>
             fold_opt (spectrogram_step E hamWindow eegFilt eoglFilt eogrFilt i)
               frame_starts p)
          (for_range 0 epochs 1) payload;
  Some (epochs, p).

(** ** Float payload and its byte image (edf2cfs.cpp:629-633) *)

(** The bits of a binary32 value. *)
Definition bits_of_b32 (x : spec_float) : Z :=
  match x with
  | S754_zero s => if s then 2 ^ 31 else 0
  | S754_infinity s => (if s then 2 ^ 31 else 0) + 255 * 2 ^ 23
  | S754_nan => 255 * 2 ^ 23 + 2 ^ 22
  | S754_finite s m e =>
      (if s then 2 ^ 31 else 0)
      + (if Zpos m <? 2 ^ 23 then Zpos m
         else (e + 150) * 2 ^ 23 + (Zpos m - 2 ^ 23))
  end.

(** [(float) d]: narrowing to binary32, round to nearest even. *)
Definition to_float32 (d : float) : spec_float :=
  match Prim2SF d with
  | S754_finite s m e => binary_round 24 128 s m e
  | x => x
  end.

(** The bytes of a [w]-byte object holding [v], in host order. *)
Definition host_bytes (E : Externals) (w : nat) (v : Z) : list byte :=
  if LITTLEENDIAN E then Num.le_bytes w v else rev (Num.le_bytes w v).

(** [reinterpret_cast<Bytef*>(&fPayload[0])] over [sourceLen] bytes. *)
Definition payload_bytes (E : Externals) (payload : vec) : list byte :=
  flat_map (fun d => host_bytes E 4 (bits_of_b32 (to_float32 d))) payload.

(** ** The world a job runs in *)

(** What [edfopen_file_readonly] yields for a path: an error code in
    [hdr.filetype], or the header together with the physical samples of
    each signal ([None] for a signal edflib fails to read). *)
Inductive edf_open_result :=
| EdfOpenError (filetype : Z)
| EdfOpened (hdr : edf_hdr_struct) (physical : Z -> option vec).

(** Calls a job makes for its raw-sample buffers: [vector<double> buf(n)]
    and [edfread_physical_samples(hdl, signal, n, buf)]. *)
Inductive io_event :=
| Alloc (r : role) (n : Z)
| Read (r : role) (signal n : Z).

Record world := {
  edf_files : string -> edf_open_result;
  (** does [fopen(path, "wb")] succeed *)
  openable : string -> bool;
  (** the regular files, by path *)
  files : string -> option (list byte);
  (** bytes the disk still takes *)
  free_space : Z;
  trace : list io_event
}.

Inductive failure :=
| AlreadyConverted
| EdfOpenFailure (filetype : Z)
| LabelNotFound (r : role)
| UnsupportedUnit
| ChannelRateMismatch
| ReadFailure (r : role)
| IntegrityFailure
| BufferTooSmall
| OutOfMemory
| WriteFailure
  (** the job does not return: an exception leaves [convertFile], or its
      behaviour is undefined *)
| Aborted.

Inductive result (A : Type) :=
| Ok (a : A)
| Failed (f : failure).
Arguments Ok {A} a.
Arguments Failed {A} f.

Definition M (A : Type) : Type := world -> result A * world.

Definition ret {A} (a : A) : M A := fun w => (Ok a, w).

Definition fail {A} (f : failure) : M A := fun w => (Failed f, w).

Definition bind {A B} (m : M A) (k : A -> M B) : M B :=
  fun w =>
    match m w with
    | (Ok a, w') => k a w'
    | (Failed f, w') => (Failed f, w')
    end.

Notation "x <- m ;; k" := (bind m (fun x => k))
  (at level 61, m at next level, right associativity).
Notation "m ;;; k" := (bind m (fun _ => k))
  (at level 61, right associativity).

(** A step that may raise. *)
Definition lift {A} (o : option A) : M A :=
  match o with
  | Some a => ret a
  | None => fail Aborted
  end.

Definition guard (b : bool) (f : failure) : M unit :=
  if b then ret tt else fail f.

Definition log (e : io_event) : M unit :=
  fun w =>
    (Ok tt, {| edf_files := edf_files w; openable := openable w;
               files := files w; free_space := free_space w;
               trace := trace w ++ [e] |}).

Definition set_file (w : world) (path : string) (content : list byte)
    (free : Z) : world :=
  {| edf_files := edf_files w; openable := openable w;
     files := fun p => if String.eqb p path then Some content else files w p;
     free_space := free; trace := trace w |}.

(** [fs::exists(path)] *)
Definition exists_ (path : string) : M bool :=
  fun w => (Ok (match files w path with Some _ => true | None => false end), w).

(** The bytes the disk takes for a file written afresh at [path]: the
    free bytes and the bytes of the file that is there, which cutting
    it to length zero releases. *)
Definition room (w : world) (path : string) : Z :=
  free_space w + len (match files w path with Some c => c | None => [] end).

(** [fopen(path, "wb")]: the file is created or cut to length zero, and
    what it held is free again. *)
Definition fopen_wb (path : string) : M unit :=
  fun w =>
    if openable w path
    then (Ok tt, set_file w path [] (room w path))
    else (Failed WriteFailure, w).

(** [fwrite(data, 1, n, file)]: the bytes that still fit are appended;
    the count it returns is not looked at by the caller. *)
Definition fwrite (path : string) (data : list byte) : M unit :=
  fun w =>
    let n := Z.min (len data) (Z.max 0 (free_space w)) in
    let old := match files w path with Some c => c | None => [] end in
    (Ok tt, set_file w path (old ++ firstn (Z.to_nat n) data)
              (free_space w - n)).

Fixpoint for_each {A} (l : list A) (body : A -> M unit) : M unit :=
  match l with
  | [] => ret tt
  | a :: l' => body a ;;; for_each l' body
  end.

(** [writeByteReversed], edf2cfs.cpp:732. *)
Definition writeByteReversed (path : string) (stream : list byte)
    (byteSize streamSize : Z) : M unit :=
  offsets <- lift (loop_indices (S (Z.to_nat streamSize))
                     (fun offset => offset <? streamSize)
                     (fun offset => offset + byteSize) 0) ;;
  for_each offsets (fun offset =>
    js <- lift (loop_indices (S (Z.to_nat byteSize))
                  (fun j => j <? 0) (fun j => j - 1) (byteSize - 1)) ;;
    for_each js (fun j => fwrite path [at_ x00 stream (offset + j)])).

(** A multi-byte field of the container (edf2cfs.cpp:688-703):
    [fwrite(stream, 1, streamSize, file)] on a little-endian host,
    [writeByteReversed(file, stream, byteSize, streamSize)] otherwise. *)
Definition write_field (E : Externals) (path : string) (stream : list byte)
    (byteSize streamSize : Z) : M unit :=
  if LITTLEENDIAN E then fwrite path (firstn (Z.to_nat streamSize) stream)
  else writeByteReversed path stream byteSize streamSize.

(** ** Reading the four channels (edf2cfs.cpp:453-509) *)

(** [edfrewind(hdl, signal); edfread_physical_samples(hdl, signal, n, buf)]:
    up to [n] samples from the start of the signal are stored at the
    front of [buf]; the count read is returned, [-1] on error. *)
Definition edfread_physical_samples (physical : Z -> option vec)
    (signal n : Z) (buf : vec) : Z * vec :=
  match physical signal with
  | None => (-1, buf)
  | Some data =>
      let got := firstn (Z.to_nat n) data in
      (len got, got ++ skipn (List.length got) buf)
  end.

(** One channel: its buffer is already allocated. *)
Definition read_channel (physical : Z -> option vec) (r : role)
    (signal totSamples : Z) (buf : vec) : M vec :=
  log (Read r signal totSamples) ;;;
  let '(samplesRead, buf') :=
    edfread_physical_samples physical signal totSamples buf in
  guard (negb (samplesRead =? -1)) (ReadFailure r) ;;;
  ret buf'.

Record channels := {
  dataC3 : vec;
  dataC4 : vec;
  dataEL : vec;
  dataER : vec
}.

(** The reader stage (edf2cfs.cpp:453-509): four buffers of
    [totSamples] doubles, then one read per channel.  With a negative
    count [vector<double> bufC3(totSamples)] raises [std::length_error]:
    nothing is allocated and nothing is read. *)
Definition read_channels (hdr : edf_hdr_struct) (physical : Z -> option vec)
    (nC3 nC4 nEL nER : Z) : M channels :=
  let totSamples := smp_in_file (param hdr nC3) in
  guard (0 <=? totSamples) Aborted ;;;
  log (Alloc C3 totSamples) ;;;
  log (Alloc C4 totSamples) ;;;
  log (Alloc EL totSamples) ;;;
  log (Alloc ER totSamples) ;;;
  bufC3 <- read_channel physical C3 nC3 totSamples (zeros totSamples) ;;
  bufC4 <- read_channel physical C4 nC4 totSamples (zeros totSamples) ;;
  bufEL <- read_channel physical EL nEL totSamples (zeros totSamples) ;;
  bufER <- read_channel physical ER nER totSamples (zeros totSamples) ;;
  ret {| dataC3 := bufC3; dataC4 := bufC4; dataEL := bufEL; dataER := bufER |}.

(** ** Filtering and resampling (edf2cfs.cpp:527-583) *)

Record rates := {
  fC3 : float;
  fC4 : float;
  fEL : float;
  fER : float
}.

Record signals := {
  eegFilt : vec;
  eoglFilt : vec;
  eogrFilt : vec
}.

(** [if ((int) fs != SAMPLINGRATE) resample(...) else pass through]. *)
Definition to_100Hz (E : Externals) (fs : float) (x : vec) : option vec :=
  r <-? Num.to_int fs;
  Some (if r =? SAMPLINGRATE then x else resample E SAMPLINGRATE fs x).

Definition filter_and_resample (E : Externals) (f : rates)
    (fC3mult fC4mult fELmult fERmult : float) (d : channels)
  : option signals :=
  let fEEG := filterEEG E (fC3 f) in
  let fEOGL := filterEOGL E (fEL f) in
  let fEOGR := filterEOGR E (fEL f) (fER f) in
  s <-? vec_add (conv_same E (scale (dataC3 d) fC3mult) fEEG)
          (conv_same E (scale (dataC4 d) fC4mult) fEEG);
  let eeg := div_scalar s 2.0 in
  let eogl := conv_same E (scale (dataEL d) fELmult) fEOGL in
  let eogr := conv_same E (scale (dataER d) fERmult) fEOGR in
  a <-? to_100Hz E (fC3 f) eeg;
  b <-? to_100Hz E (fEL f) eogl;
  c <-? to_100Hz E (fER f) eogr;
  Some {| eegFilt := a; eoglFilt := b; eogrFilt := c |}.

(** ** Container writer (edf2cfs.cpp:636-705) *)

(** The [Bytef[20]] that [GetHash] fills. *)
Definition digest_buffer (digest : list byte) : list byte :=
  resize 20 x00 digest.

Definition signature : list byte := ["C"%byte; "F"%byte; "S"%byte].

Definition write_cfs (E : Externals) (baseName : string) (epochs : Z)
    (SHAdigest ostream : list byte) : M unit :=
  let version := Num.to_uint8 1 in
  let nFreq := Num.to_uint8 32 in
  let nTimes := Num.to_uint8 32 in
  let nChannels := Num.to_uint8 3 in
  let nEpochs := Num.to_uint16 epochs in
  let compression := Num.to_uint8 1 in
  let hash := Num.to_uint8 1 in
  fopen_wb baseName ;;;
  fwrite baseName signature ;;;
  fwrite baseName [Num.byte_of_Z version] ;;;
  fwrite baseName [Num.byte_of_Z nFreq] ;;;
  fwrite baseName [Num.byte_of_Z nTimes] ;;;
  fwrite baseName [Num.byte_of_Z nChannels] ;;;
  write_field E baseName (host_bytes E 2 nEpochs) 2 2 ;;;
  fwrite baseName [Num.byte_of_Z compression] ;;;
  fwrite baseName [Num.byte_of_Z hash] ;;;
  write_field E baseName SHAdigest 20 20 ;;;
  write_field E baseName ostream 4 (len ostream).

(** ** The job (edf2cfs.cpp:317-712) *)

Definition edfopen_file_readonly (filename : string)
  : M (edf_hdr_struct * (Z -> option vec)) :=
  fun w =>
    match edf_files w filename with
    | EdfOpenError filetype => (Failed (EdfOpenFailure filetype), w)
    | EdfOpened hdr physical => (Ok (hdr, physical), w)
    end.

Definition find_channel (hdr : edf_hdr_struct) (channelLabels : list string)
    (r : role) : M Z :=
  match resolve hdr channelLabels r with
  | Some n => ret n
  | None => fail (LabelNotFound r)
  end.

(** Hash and compression (edf2cfs.cpp:647-673): the digest as written
    and the DEFLATE stream. *)
Definition package (E : Externals) (istream : list byte)
  : M (list byte * list byte) :=
  let sourceLen := len istream in
  match sha1 E istream with
  | None => fail IntegrityFailure
  | Some digest =>
      let destLen := compressBound E sourceLen in
      match compress E istream destLen with
      | Z_BUF_ERROR => fail BufferTooSmall
      | Z_MEM_ERROR => fail OutOfMemory
      | Z_OK ostream => ret (digest_buffer digest, ostream)
      end
  end.

(** Sampling rates and unit factors of the four channels
    (edf2cfs.cpp:421-436). *)
Definition job_rates (hdr : edf_hdr_struct) (nC3 nC4 nEL nER : Z) : rates :=
  {| fC3 := sample_rate hdr nC3; fC4 := sample_rate hdr nC4;
     fEL := sample_rate hdr nEL; fER := sample_rate hdr nER |}.

Definition multiplier (hdr : edf_hdr_struct) (n : Z) : float :=
  findMultiplier (physdimension (param hdr n)).

Definition cfs_name (filename : string) : string :=
  (Str.removeExtension filename ++ ".cfs")%string.

(** Everything up to the point where the destination is opened
    (edf2cfs.cpp:317-673): the epoch count, the digest as it will be
    written and the DEFLATE stream. *)
Definition prepare (E : Externals) (filename : string)
    (channelLabels : list string) (overwrite : bool)
  : M (Z * list byte * list byte) :=
  let baseName := cfs_name filename in
  present <- exists_ baseName ;;
  guard (overwrite || negb present) AlreadyConverted ;;;
  opened <- edfopen_file_readonly filename ;;
  let hdr := fst opened in
  let physical := snd opened in
  nC3 <- find_channel hdr channelLabels C3 ;;
  nC4 <- find_channel hdr channelLabels C4 ;;
  nEL <- find_channel hdr channelLabels EL ;;
  nER <- find_channel hdr channelLabels ER ;;
  let f := job_rates hdr nC3 nC4 nEL nER in
  let fC3mult := multiplier hdr nC3 in
  let fC4mult := multiplier hdr nC4 in
  let fELmult := multiplier hdr nEL in
  let fERmult := multiplier hdr nER in
  guard (negb ((fC3mult <? 0) || (fC4mult <? 0)
               || (fELmult <? 0) || (fERmult <? 0))%float) UnsupportedUnit ;;;
  iC3 <- lift (Num.to_int (fC3 f)) ;;
  iC4 <- lift (Num.to_int (fC4 f)) ;;
  guard (iC3 =? iC4) ChannelRateMismatch ;;;
  d <- read_channels hdr physical nC3 nC4 nEL nER ;;
  s <- lift (filter_and_resample E f fC3mult fC4mult fELmult fERmult d) ;;
  sp <- lift (spectrogram E (eegFilt s) (eoglFilt s) (eogrFilt s)) ;;
  pk <- package E (payload_bytes E (snd sp)) ;;
  ret (fst sp, fst pk, snd pk).

(** [convertFile]: [Ok] where the C++ returns [true], [Failed] with the
    kind of the message it logs where it returns [false]. *)
Definition convertFile (E : Externals) (filename : string)
    (channelLabels : list string) (overwrite : bool) : M unit :=
  out <- prepare E filename channelLabels overwrite ;;
  write_cfs E (cfs_name filename) (fst (fst out)) (snd (fst out)) (snd out).

(** ** Stand-ins for the linked libraries

    They fix the shapes the libraries deliver (lengths of windows,
    filtered and resampled signals, transforms and digests) and are
    used to run the job on concrete recordings. *)

Module Demo.

Definition resample_zeros (up : Z) (fs : float) (x : vec) : vec :=
  match Num.to_int fs with
  | Some r => zeros (resample_length up r (len x))
  | None => []
  end.

Definition externals (host : host_order) : Externals :=
  {| O32_HOST_ORDER := host;
     c_sin := fun x => x;
     c_abs := fun z => PrimFloat.abs (fst z);
     hamming := fun n => repeat 1%float (Z.to_nat n);
     conv_same := fun x _ => x;
     resample := resample_zeros;
     fftw_execute_dft_r2c := fun N x => map (fun v => (v, 0%float))
                                          (resize (N / 2 + 1) 0%float x);
     sha1 := fun _ => Some (repeat "a"%byte 20);
     compressBound := fun n => n + 13;
     compress := fun s _ => Z_OK (x78 :: x9c :: s) |}.

Definition signal (name unit : string) (per_record total : Z)
  : edf_param_struct :=
  {| label := name; smp_in_file := total; smp_in_datarecord := per_record;
     physdimension := unit |}.

(** Four channels of [total] samples each, at the given rates, in
    records of 1 s. *)
Definition header4 (rC3 rC4 rEL rER total : Z) : edf_hdr_struct :=
  {| datarecord_duration := 10000000;
     signalparam := [ signal "C3A2" "uV" rC3 total;
                      signal "C4A1" "uV" rC4 total;
                      signal "ELA2" "uV" rEL total;
                      signal "ERA1" "uV" rER total ] |}.

Definition header (rate total : Z) : edf_hdr_struct :=
  header4 rate rate rate rate total.

Definition recording (rate total : Z) : edf_open_result :=
  EdfOpened (header rate total)
    (fun _ => Some (repeat 1%float (Z.to_nat total))).

(** A disk holding [rec] at "night.edf", with room for [free] bytes. *)
Definition disk (rec : edf_open_result) (free : Z) : world :=
  {| edf_files := fun p => if String.eqb p "night.edf" then rec
                           else EdfOpenError (-2);
     openable := fun _ => true;
     files := fun _ => None;
     free_space := free;
     trace := [] |}.

(** The same world with a destination that cannot be opened. *)
Definition locked (w : world) : world :=
  {| edf_files := edf_files w; openable := fun _ => false;
     files := files w; free_space := free_space w; trace := trace w |}.

Definition ones (n : Z) : vec := repeat 1%float (Z.to_nat n).

Definition lower_labels : list string := ["c3a2"; "c4a1"; "ela2"; "era1"]%string.
Definition usage_labels : list string := ["C3A2"; "C4A1"; "ELA2"; "ERA1"]%string.

End Demo.

(** ** Notions the statements use *)

(** The shapes of what the linked libraries deliver. *)
Record shapes (E : Externals) : Prop := {
  hamming_len : forall n, 0 <= n -> len (hamming E n) = n;
  conv_same_len : forall x h, len (conv_same E x h) = len x;
  resample_len :
    forall up fs r x,
      0 <= up -> Num.to_int fs = Some r -> 0 < r ->
      len (resample E up fs x) = resample_length up r (len x);
  fftw_len : forall N x, 0 <= N -> len (fftw_execute_dft_r2c E N x) = N / 2 + 1;
  sha1_len : forall m d, sha1 E m = Some d -> len d = 20
}.

(** The coefficient formula of the specification, section 4.2, for
    [N = 50], a window [w] and the normalised cut-offs [fl], [fh]. *)
Definition band_pass_coefficient (E : Externals) (w : vec) (fl fh : float)
    (i : Z) : float :=
  (at_ 0 w i * (fh * sinc E (fh * (Num.of_Z i - 25))
                - fl * sinc E (fl * (Num.of_Z i - 25))))%float.

(** [2 * f / fs] *)
Definition normalised (f fs : float) : float := (2 * f / fs)%float.

(** The container of the specification, section 6.1: the 31-byte header
    followed by the DEFLATE stream. *)
Definition layout_6_1 (n_epochs : Z) (digest ostream : list byte) : list byte :=
  [x43; x46; x53]                       (* "CFS" *)
  ++ [x01]                              (* version *)
  ++ [x20]                              (* n_freq *)
  ++ [x20]                              (* n_times *)
  ++ [x03]                              (* n_channels *)
  ++ Num.le_bytes 2 n_epochs            (* n_epochs, little-endian *)
  ++ [x01]                              (* compression *)
  ++ [x01]                              (* hash *)
  ++ digest
  ++ ostream.

(** What a disk with room for [free] more bytes keeps of [image]. *)
Definition fitting (free : Z) (image : list byte) : list byte :=
  firstn (Z.to_nat free) image.

(** The frames of an epoch as the specification words them: 32 frames,
    frame [t] starting at [t * 90], every frame inside the epoch, the
    last one starting at [last_start]. *)
Definition frames_as_worded (starts : list Z) (last_start : Z) : Prop :=
  List.length starts = 32%nat
  /\ (forall t, 0 <= t < 32 -> at_ 0 starts t = t * 90)
  /\ (forall j, In j starts -> j + 128 <= 3000)
  /\ last starts 0 = last_start.

(** The slice of the payload that holds time bin [t] of channel [c]
    ([0] EEG, [1] EOG-left, [2] EOG-right) of epoch [i]. *)
Definition time_bin (payload : vec) (i c t : Z) : option vec :=
  subvec payload (i * epochSize + c * (32 * 32) + t * 32)
    (i * epochSize + c * (32 * 32) + t * 32 + 32 - 1).

(** The place of time bin [t] of channel [c] of epoch [i]. *)
Definition slot (i c t : Z) : Z := i * 3072 + c * 1024 + t * 32.

(** The first 32 magnitudes of the length-128 transform of the windowed
    128-sample frame of [chan] that starts at sample [start]. *)
Definition bins_0_31 (E : Externals) (chan : vec) (start : Z) : option vec :=
  frame <-? subvec chan start (start + 127);
  Some (map (c_abs E)
          (firstn 32 (fftw_execute_dft_r2c E 128
                        (zip_with PrimFloat.mul frame (hamming E 128))))).

Definition channel_of (s : signals) (c : Z) : vec :=
  if c =? 0 then eegFilt s else if c =? 1 then eoglFilt s else eogrFilt s.


(** The writer is all-or-nothing on a job: afterwards the destination
    is as it was before, or absent, or a complete container. *)
Definition all_or_nothing (E : Externals) (filename : string)
    (channelLabels : list string) (overwrite : bool) (w : world) : Prop :=
  let w' := snd (convertFile E filename channelLabels overwrite w) in
  let dest := cfs_name filename in
  files w' dest = files w dest
  \/ files w' dest = None
  \/ exists n_epochs digest ostream,
       len digest = 20
       /\ files w' dest = Some (layout_6_1 n_epochs digest ostream).

(** [w'] is [w] up to the trace: same recordings, same files, same
    free space. *)
Definition same_disk (w w' : world) : Prop :=
  edf_files w' = edf_files w /\ openable w' = openable w
  /\ files w' = files w /\ free_space w' = free_space w.

(** A step that leaves the world as it is. *)
Definition quiet {A} (m : M A) : Prop :=
  forall w r w', m w = (r, w') -> w' = w.

(** The eight reader calls of a job that gets to read all four
    channels. *)
Definition reader_calls (nC3 nC4 nEL nER totSamples : Z) : list io_event :=
  [ Alloc C3 totSamples; Alloc C4 totSamples;
    Alloc EL totSamples; Alloc ER totSamples;
    Read C3 nC3 totSamples; Read C4 nC4 totSamples;
    Read EL nEL totSamples; Read ER nER totSamples ].

(** Since [w0], a disk that had room for [free0] bytes, the file at
    [path] has been opened and handed the bytes [written]; nothing else
    has changed. *)
Definition holds (path : string) (free0 : Z) (w0 w : world)
    (written : list byte) : Prop :=
  files w path = Some (fitting free0 written)
  /\ free_space w = free0 - len (fitting free0 written)
  /\ (forall p, p <> path -> files w p = files w0 p)
  /\ edf_files w = edf_files w0 /\ openable w = openable w0
  /\ trace w = trace w0.

(** What the writer hands to the file on a big-endian host. *)
Definition big_endian_image : list byte :=
  [x43; x46; x53; x01; x20; x20; x03; x01; x01].

(** The values a job computes on its way to the destination, with the
    steps that define them: the header and the channel indices, the raw
    buffers, the filtered and resampled signals, the epoch count and
    the payload of the extractor, the digest and the DEFLATE stream. *)
Record job_run (E : Externals) (filename : string)
    (channelLabels : list string) (w : world) : Type := {
  run_hdr : edf_hdr_struct;
  run_physical : Z -> option vec;
  run_nC3 : Z;
  run_nC4 : Z;
  run_nEL : Z;
  run_nER : Z;
  run_data : channels;
  run_world : world;
  run_signals : signals;
  run_epochs : Z;
  run_payload : vec;
  run_digest : list byte;
  run_ostream : list byte;
  run_opened : edf_files w filename = EdfOpened run_hdr run_physical;
  run_C3 : resolve run_hdr channelLabels C3 = Some run_nC3;
  run_C4 : resolve run_hdr channelLabels C4 = Some run_nC4;
  run_EL : resolve run_hdr channelLabels EL = Some run_nEL;
  run_ER : resolve run_hdr channelLabels ER = Some run_nER;
  run_read :
    read_channels run_hdr run_physical run_nC3 run_nC4 run_nEL run_nER w
    = (Ok run_data, run_world);
  run_filtered :
    filter_and_resample E (job_rates run_hdr run_nC3 run_nC4 run_nEL run_nER)
      (multiplier run_hdr run_nC3) (multiplier run_hdr run_nC4)
      (multiplier run_hdr run_nEL) (multiplier run_hdr run_nER) run_data
    = Some run_signals;
  run_features :
    spectrogram E (eegFilt run_signals) (eoglFilt run_signals)
      (eogrFilt run_signals) = Some (run_epochs, run_payload);
  run_hashed : sha1 E (payload_bytes E run_payload) = Some run_digest;
  run_deflated :
    compress E (payload_bytes E run_payload)
      (compressBound E (len (payload_bytes E run_payload)))
    = Z_OK run_ostream
}.
Arguments run_hdr {E filename channelLabels w} _.
Arguments run_nC3 {E filename channelLabels w} _.
Arguments run_data {E filename channelLabels w} _.
Arguments run_world {E filename channelLabels w} _.
Arguments run_signals {E filename channelLabels w} _.
Arguments run_epochs {E filename channelLabels w} _.
Arguments run_payload {E filename channelLabels w} _.
Arguments run_digest {E filename channelLabels w} _.
Arguments run_ostream {E filename channelLabels w} _.

(** The resampled EEG of a run, and its uncompressed float payload. *)
Definition run_eeg {E filename channelLabels w}
    (R : job_run E filename channelLabels w) : vec :=
  eegFilt (run_signals R).

Definition run_bytes {E filename channelLabels w}
    (R : job_run E filename channelLabels w) : list byte :=
  payload_bytes E (run_payload R).

(** A recording of 600 s with every signal at 200 Hz. *)
Definition at_200Hz_for_600s (hdr : edf_hdr_struct) : Prop :=
  forall n, 0 <= n < edfsignals hdr ->
    Num.to_int (sample_rate hdr n) = Some 200
    /\ smp_in_file (param hdr n) = 600 * 200.


(** ** The rest of the program

    The functions of [edf2cfs.cpp], [base.h] and [fftw.h] around the
    pipeline: the interactive channel selection, the dispatch loop of
    [main], and [sp::unwrap]. *)

(** [c] is one of 'A' .. 'Z'. *)
Definition is_upper (c : ascii) : bool :=
  let n := N_of_ascii c in (65 <=? n)%N && (n <=? 90)%N.

Fixpoint chars (s : string) : list ascii :=
  match s with
  | EmptyString => []
  | String c s' => c :: chars s'
  end.

(** [showHeader], edf2cfs.cpp:251-315, on a file that opens: the four
    channel numbers read from [cin] are checked against the number of
    signals and the labels of the chosen signals, lower-cased, replace
    the four requested labels; [None] where it calls
    [exit(EXIT_FAILURE)].  (The entry read for the number
    [edfsignals + 1], which the check lets through, lies behind the
    signals of the file; [param] gives the empty entry for it.) *)
Definition showHeader (hdr : edf_hdr_struct) (channelLabels : list string)
    (nC3 nC4 nEL nER : Z) : option (list string) :=
  let Nmax := edfsignals hdr in
  let nC3 := nC3 - 1 in
  let nC4 := nC4 - 1 in
  let nEL := nEL - 1 in
  let nER := nER - 1 in
  if (nC3 >? Nmax) || (nC4 >? Nmax) || (nEL >? Nmax) || (nER >? Nmax)
     || (nC3 <? 0) || (nC4 <? 0) || (nEL <? 0) || (nER <? 0)
  then None
  else
    let l0 := set_at channelLabels 0 (Str.strlwr (label (param hdr nC3))) in
    let l1 := set_at l0 1 (Str.strlwr (label (param hdr nC4))) in
    let l2 := set_at l1 2 (Str.strlwr (label (param hdr nEL))) in
    Some (set_at l2 3 (Str.strlwr (label (param hdr nER)))).

(** [concurentThreadsSupported] of [main], edf2cfs.cpp:78-81, from what
    [thread::hardware_concurrency] reports. *)
Definition concurentThreadsSupported (hardware_concurrency : Z) : Z :=
  if hardware_concurrency =? 0 then 2 else hardware_concurrency.

(** The inner dispatch loop of [main], edf2cfs.cpp:206-213, for the
    batch that starts at file [i], from [j] on: the indices [i + j] it
    starts a worker for. *)
Fixpoint batch_from (fuel : nat) (P size i j : Z) : list Z :=
  match fuel with
  | O => []
  | S fuel' =>
      if j <? P
      then if i + j >=? size then []     (* break *)
           else (i + j) :: batch_from fuel' P size i (j + 1)
      else []
  end.

Definition batch (P size i : Z) : list Z :=
  batch_from (Z.to_nat P) P size i 0.

(** The outer loop, edf2cfs.cpp:199: one batch for every [i] it runs
    through. *)
Definition batches (P size : Z) : list (list Z) :=
  map (batch P size) (for_range 0 size P).

(** [PI_2] of base.h. *)
Definition PI_2 : float := 6.28318530717958647692%float.

(** The loop of [sp::unwrap], base.h:109-115, from row [r] on: the
    rows still to come [xs], the row before them [prev], the phase
    accumulated so far. *)
Fixpoint unwrap_from (xs : list float) (prev pacc : float) : list float :=
  match xs with
  | [] => []
  | x :: xs' =>
      let thr := (PI * 170 / 180)%float in
      let pdiff := (x - prev)%float in
      let pacc1 := if (thr <=? pdiff)%float then (pacc + - PI_2)%float
                   else pacc in
      let pacc2 := if (pdiff <=? - thr)%float then (pacc1 + PI_2)%float
                   else pacc1 in
      (pacc2 + x)%float :: unwrap_from xs' x pacc2
  end.

(** [sp::unwrap], base.h:102-117; [P(0) = x(0)] raises on an empty
    vector. *)
Definition unwrap (x : vec) : option vec :=
  match x with
  | [] => None
  | x0 :: xs => Some (x0 :: unwrap_from xs x0 0)
  end.

(** A signal without a jump for [unwrap]: every difference of two
    neighbours, from [prev] on, lies strictly between the two
    thresholds of [unwrap]. *)
Fixpoint steady (prev : float) (xs : list float) : bool :=
  match xs with
  | [] => true
  | x :: xs' =>
      negb (PI * 170 / 180 <=? x - prev)%float
      && negb (x - prev <=? - (PI * 170 / 180))%float
      && steady x xs'
  end.

(** Two worlds in which a job on [filename] sees the same: the same
    recordings, the same destinations that open, the same file, or
    none, at its destination. *)
Definition agree (path : string) (w1 w2 : world) : Prop :=
  edf_files w1 = edf_files w2 /\ openable w1 = openable w2
  /\ files w1 path = files w2 path.

(** Libraries that do not fail: [GetHash] delivers a digest, and
    [compress] succeeds on a destination of [compressBound] bytes. *)
Record reliable (E : Externals) : Prop := {
  sha1_some : forall m, exists d, sha1 E m = Some d;
  compress_ok :
    forall s, exists o, compress E s (compressBound E (len s)) = Z_OK o
}.

(** The failures a job reports before it allocates a buffer or reads a
    sample. *)
Definition before_reading (f : failure) : bool :=
  match f with
  | AlreadyConverted | EdfOpenFailure _ | LabelNotFound _
  | UnsupportedUnit | ChannelRateMismatch => true
  | _ => false
  end.


(** A disk whose recording cannot be read at signal 2. *)
Definition torn_disk : world :=
  Demo.disk
    (EdfOpened (Demo.header 100 100)
       (fun signal => if signal =? 2 then None else Some (Demo.ones 100)))
    1000.

(** * Properties *)

(** ** Lists, loops and floats *)

Lemma len_nonneg {A} (l : list A) : 0 <= len l.
Proof. unfold len. lia. Qed.

Lemma len_app {A} (l l' : list A) : len (l ++ l') = len l + len l'.
Proof. unfold len. rewrite length_app. lia. Qed.

Lemma len_zeros n : len (zeros n) = Z.max 0 n.
Proof. unfold len, zeros. rewrite repeat_length. lia. Qed.

Lemma len_map {A B} (f : A -> B) l : len (map f l) = len l.
Proof. unfold len. now rewrite length_map. Qed.

Lemma len_firstn {A} n (l : list A) :
  len (firstn n l) = Z.min (Z.of_nat n) (len l).
Proof. unfold len. rewrite length_firstn. lia. Qed.

Lemma len_skipn {A} n (l : list A) :
  len (skipn n l) = Z.max 0 (len l - Z.of_nat n).
Proof. unfold len. rewrite length_skipn. lia. Qed.

Lemma length_zip_with {A} (f : A -> A -> A) x y :
  List.length (zip_with f x y) = Nat.min (List.length x) (List.length y).
Proof.
  revert y. induction x as [|a x IH]; intros [|b y]; simpl; auto.
Qed.

Lemma length_set_at {A} (v : list A) i x :
  0 <= i < len v -> List.length (set_at v i x) = List.length v.
Proof.
  unfold set_at, len. intros Hi.
  rewrite length_app, length_firstn. cbn [List.length].
  rewrite length_skipn. lia.
Qed.

Lemma firstn_set_at {A} (v : list A) i x k :
  (k <= Z.to_nat i)%nat -> (k <= List.length v)%nat ->
  firstn k (set_at v i x) = firstn k v.
Proof.
  unfold set_at. intros Hk Hv.
  rewrite firstn_app, length_firstn.
  replace (k - Nat.min (Z.to_nat i) (List.length v))%nat with 0%nat by lia.
  simpl. rewrite app_nil_r, firstn_firstn. f_equal. lia.
Qed.

(** A loop with step one runs through the integers below its bound. *)
Lemma range_step_unit fuel i bound :
  (Z.to_nat (bound - i) <= fuel)%nat ->
  range_step fuel i bound 1
  = map (fun k => i + Z.of_nat k) (seq 0 (Z.to_nat (bound - i))).
Proof.
  revert i. induction fuel as [|fuel IH]; intros i Hf.
  - replace (Z.to_nat (bound - i)) with 0%nat by lia. reflexivity.
  - simpl. destruct (i <? bound) eqn:Hlt.
    + apply Z.ltb_lt in Hlt. rewrite IH by lia.
      replace (Z.to_nat (bound - i)) with (S (Z.to_nat (bound - (i + 1))))
        by lia.
      simpl. f_equal; [lia|].
      rewrite <- seq_shift, map_map. apply map_ext. intros; lia.
    + apply Z.ltb_ge in Hlt.
      replace (Z.to_nat (bound - i)) with 0%nat by lia. reflexivity.
Qed.

Lemma for_range_unit n :
  for_range 0 n 1 = map Z.of_nat (seq 0 (Z.to_nat n)).
Proof.
  unfold for_range. rewrite range_step_unit by lia.
  rewrite Z.sub_0_r. apply map_ext. intros; lia.
Qed.

Lemma in_for_range_unit n i : In i (for_range 0 n 1) <-> 0 <= i < n.
Proof.
  rewrite for_range_unit, in_map_iff. split.
  - intros (k & <- & Hk). apply in_seq in Hk. lia.
  - intros Hi. exists (Z.to_nat i). split; [lia|]. apply in_seq. lia.
Qed.

Lemma firstn_succ_set_at {A} (v : list A) k x :
  (k < List.length v)%nat ->
  firstn (S k) (set_at v (Z.of_nat k) x) = firstn k v ++ [x].
Proof.
  intros Hk. unfold set_at. rewrite Nat2Z.id.
  rewrite firstn_app, length_firstn, firstn_firstn.
  replace (Nat.min (S k) k) with k by lia.
  replace (S k - Nat.min k (List.length v))%nat with 1%nat by lia.
  reflexivity.
Qed.

Lemma skipn_set_at {A} (v : list A) k n x :
  (k < n)%nat -> (k < List.length v)%nat ->
  skipn n (set_at v (Z.of_nat k) x) = skipn n v.
Proof.
  intros Hn Hk. unfold set_at. rewrite Nat2Z.id.
  rewrite skipn_app, length_firstn.
  rewrite (skipn_all2 (firstn k v)) by (rewrite length_firstn; lia).
  replace (n - Nat.min k (List.length v))%nat with (S (n - S k)) by lia.
  rewrite app_nil_l, skipn_cons, skipn_skipn. f_equal. lia.
Qed.

(** A loop that stores [f i] at every index [i] of a stretch of a
    vector leaves exactly the values [f i] there. *)
Lemma fold_set_at {A} (f : Z -> A) m :
  forall k (b : list A),
    (k + m <= List.length b)%nat ->
    fold_left (fun b i => set_at b i (f i)) (map Z.of_nat (seq k m)) b
    = firstn k b ++ map f (map Z.of_nat (seq k m)) ++ skipn (k + m) b.
Proof.
  induction m as [|m IH]; intros k b Hb.
  - cbn [seq map app fold_left]. rewrite Nat.add_0_r.
    symmetry. apply firstn_skipn.
  - cbn [seq map fold_left]. rewrite IH.
    + rewrite firstn_succ_set_at by lia.
      rewrite skipn_set_at by lia.
      rewrite <- app_assoc. cbn [app]. do 4 f_equal. lia.
    + rewrite length_set_at; unfold len; lia.
Qed.

(** IEEE-754 multiplication is commutative. *)
Lemma float_mul_comm (x y : float) : (x * y = y * x)%float.
Proof.
  apply Prim2SF_inj. rewrite !mul_spec. unfold SF64mul.
  destruct (Prim2SF x) as [s| s| |s m e], (Prim2SF y) as [s'| s'| |s' m' e'];
    simpl; rewrite ?(xorb_comm s s'), ?(Pos.mul_comm m m'), ?(Z.add_comm e e');
    reflexivity.
Qed.

(** ** FIR designer *)

Lemma firBandPass_taps E N fl fh :
  0 <= N ->
  firBandPass E N fl fh
  = map (firBandPass_tap E N fl fh (hamming E (N + 1))) (for_range 0 (N + 1) 1).
Proof.
  intros HN. unfold firBandPass. rewrite for_range_unit.
  rewrite fold_set_at by (unfold zeros; rewrite repeat_length; lia).
  simpl. rewrite skipn_all2 by (unfold zeros; rewrite repeat_length; lia).
  apply app_nil_r.
Qed.

Lemma tap_is_formula E fl fh h i :
  firBandPass_tap E FILTERORDER fl fh h i = band_pass_coefficient E h fl fh i.
Proof.
  unfold firBandPass_tap, band_pass_coefficient.
  replace (Num.of_Z FILTERORDER / 2.0)%float with 25%float
    by (vm_compute; reflexivity).
  now rewrite (float_mul_comm (sinc E _) fh), (float_mul_comm (sinc E _) fl).
Qed.

Lemma at_map {A B} (f : A -> B) (l : list A) d d' i :
  0 <= i < len l -> at_ d' (map f l) i = f (at_ d l i).
Proof.
  unfold at_, len. intros Hi.
  rewrite (nth_indep _ d' (f d)) by (rewrite length_map; lia).
  apply map_nth.
Qed.

Lemma at_for_range_unit n i : 0 <= i < n -> at_ 0 (for_range 0 n 1) i = i.
Proof.
  intros Hi. rewrite for_range_unit. unfold at_.
  rewrite (nth_indep _ 0 (Z.of_nat 0)) by (rewrite length_map, length_seq; lia).
  rewrite map_nth, seq_nth by lia. lia.
Qed.

Lemma len_for_range_unit n : len (for_range 0 n 1) = Z.max 0 n.
Proof.
  rewrite for_range_unit. unfold len. rewrite length_map, length_seq. lia.
Qed.

(** C9: for every index [i] in [0, 50] the designed coefficient is
    [w[i] * (fh * sinc(fh * (i - 25)) - fl * sinc(fl * (i - 25)))] with
    [w] the 51-point Hamming window, [sinc(0) = 1] and
    [sinc(x) = sin(pi x) / (pi x)] otherwise; the designer returns these
    51 products as they are, and the EEG and EOG-left filters are
    designed with [fl = 2 * 0.3 / fs] and [fh = 2 * 45 / fs] resp.
    [2 * 12 / fs] for the rate [fs] of their channel. *)
Theorem firBandPass_coefficients (E : Externals) (fs fl fh : float) (i : Z) :
  0 <= i <= 50 ->
  at_ 0%float (firBandPass E FILTERORDER fl fh) i
  = band_pass_coefficient E (hamming E 51) fl fh i
  /\ firBandPass E FILTERORDER fl fh
     = map (band_pass_coefficient E (hamming E 51) fl fh) (for_range 0 51 1)
  /\ len (firBandPass E FILTERORDER fl fh) = 51
  /\ sinc E 0 = 1%float
  /\ (forall x, (x =? 0)%float = false ->
                sinc E x = (c_sin E (PI * x) / (PI * x))%float)
  /\ filterEEG E fs
     = firBandPass E FILTERORDER (normalised 0.3 fs) (normalised 45 fs)
  /\ filterEOGL E fs
     = firBandPass E FILTERORDER (normalised 0.3 fs) (normalised 12 fs).
Proof.
  intros Hi.
  assert (Hall : firBandPass E FILTERORDER fl fh
                 = map (band_pass_coefficient E (hamming E 51) fl fh)
                     (for_range 0 51 1)).
  { rewrite firBandPass_taps by (unfold FILTERORDER; lia).
    apply map_ext. intros a. apply tap_is_formula. }
  refine (conj _ (conj Hall (conj _ (conj _ (conj _ (conj _ _)))))).
  - rewrite Hall.
    rewrite (at_map _ _ 0) by (rewrite len_for_range_unit; lia).
    now rewrite at_for_range_unit by lia.
  - rewrite Hall, len_map, len_for_range_unit. reflexivity.
  - reflexivity.
  - intros x Hx. unfold sinc. now rewrite Hx.
  - reflexivity.
  - reflexivity.
Qed.

Lemma firBandPass_coefficients_witness :
  0 <= 25 <= 50
  /\ at_ 0%float (firBandPass (Demo.externals O32_LITTLE_ENDIAN) FILTERORDER
              0.003 0.45) 25
     = band_pass_coefficient (Demo.externals O32_LITTLE_ENDIAN)
         (hamming (Demo.externals O32_LITTLE_ENDIAN) 51) 0.003 0.45 25.
Proof.
  split; [lia|].
  apply (firBandPass_coefficients (Demo.externals O32_LITTLE_ENDIAN)
           200 0.003 0.45 25); lia.
Defined.

(** C4, as the code has it: whenever the two EOG rates differ, the
    EOG-right coefficients are the EOG-left ones, designed from the
    EOG-left rate; so it is with EOG-left at 200 Hz and EOG-right at
    256 Hz, where, with the stand-in libraries, they differ from the
    coefficients designed from the EOG-right rate. *)
Theorem filterEOGR_uses_fEL (E : Externals) :
  let f := job_rates (Demo.header4 200 200 200 256 12000) 0 1 2 3 in
  (forall fEL fER, (fER =? fEL)%float = false ->
                   filterEOGR E fEL fER = filterEOGL E fEL)
  /\ (fER f =? fEL f)%float = false
  /\ filterEOGR E (fEL f) (fER f)
     = firBandPass E FILTERORDER (0.3 * 2 / fEL f) (Num.of_Z (12 * 2) / fEL f)
  /\ filterEOGR (Demo.externals O32_LITTLE_ENDIAN) (fEL f) (fER f)
     <> firBandPass (Demo.externals O32_LITTLE_ENDIAN) FILTERORDER
          (0.3 * 2 / fER f) (Num.of_Z (12 * 2) / fER f).
Proof.
  intros f.
  assert (Hne : (fER f =? fEL f)%float = false) by (vm_compute; reflexivity).
  split; [intros fEL fER H; unfold filterEOGR; now rewrite H|].
  split; [exact Hne|]. split.
  - unfold filterEOGR. rewrite Hne. reflexivity.
  - intros Heq.
    assert (Hd : (at_ 0%float (filterEOGR (Demo.externals O32_LITTLE_ENDIAN)
                           (fEL f) (fER f)) 25
                  =? at_ 0%float (firBandPass (Demo.externals O32_LITTLE_ENDIAN)
                              FILTERORDER (0.3 * 2 / fER f)
                              (Num.of_Z (12 * 2) / fER f)) 25)%float = false)
      by (vm_compute; reflexivity).
    rewrite Heq in Hd. vm_compute in Hd. discriminate.
Qed.

(** ** Channel resolver *)

Lemma find_index_first l x i n :
  find_index l x i = Some n ->
  i <= n < i + len l
  /\ nth (Z.to_nat (n - i)) l ""%string = x
  /\ forall k, (k < Z.to_nat (n - i))%nat -> nth k l ""%string <> x.
Proof.
  revert i. induction l as [|y l IH]; intros i; simpl; [discriminate|].
  destruct (String.eqb_spec y x) as [->|Hne].
  - intros [= ->]. rewrite Z.sub_diag. unfold len. simpl.
    repeat split; lia.
  - intros H. apply IH in H as (Hr & Hn & Hk).
    unfold len in *. simpl List.length.
    replace (Z.to_nat (n - i)) with (S (Z.to_nat (n - (i + 1)))) by lia.
    repeat split; try lia; [exact Hn|].
    intros [|k] Hlt; simpl; [exact Hne|]. apply Hk. lia.
Qed.

(** A request in lower case resolves to the first signal whose label
    equals it up to letter case. *)
Lemma resolve_lower_case hdr channelLabels r n :
  resolve hdr channelLabels r = Some n ->
  0 <= n < edfsignals hdr
  /\ Str.strlwr (label (param hdr n)) = nth (role_index r) channelLabels ""%string
  /\ forall k, 0 <= k < n ->
       Str.strlwr (label (param hdr k))
       <> nth (role_index r) channelLabels ""%string.
Proof.
  unfold resolve, allLabels, edfsignals, param. intros H.
  apply find_index_first in H as (Hr & Hn & Hk).
  rewrite Z.sub_0_r in *. unfold len in Hr. rewrite length_map in Hr.
  assert (Hnth : forall k, (k < List.length (signalparam hdr))%nat ->
            nth k (map (fun p => Str.strlwr (label p)) (signalparam hdr))
              ""%string
            = Str.strlwr (label (nth k (signalparam hdr) param0))).
  { intros k Hlt.
    rewrite (nth_indep _ ""%string (Str.strlwr (label param0)))
      by (rewrite length_map; lia).
    apply (map_nth (fun p => Str.strlwr (label p))). }
  repeat split; try lia.
  - rewrite <- Hnth by lia. exact Hn.
  - intros k Hlt. rewrite <- Hnth by lia. apply Hk. lia.
Qed.

Lemma tolower_idempotent c : Str.tolower (Str.tolower c) = Str.tolower c.
Proof.
  destruct c as [[|] [|] [|] [|] [|] [|] [|] [|]]; reflexivity.
Qed.

Lemma strlwr_idempotent s : Str.strlwr (Str.strlwr s) = Str.strlwr s.
Proof.
  induction s as [|c s IH]; [reflexivity|].
  cbn [Str.strlwr]. now rewrite tolower_idempotent, IH.
Qed.

(** C3, as the code has it: the EDF labels are lower-cased before the
    comparison and the requested label is not, so a request that has an
    upper-case letter is never found, whatever the recording. *)
Theorem upper_case_request_not_found hdr channelLabels r :
  Str.strlwr (nth (role_index r) channelLabels ""%string)
  <> nth (role_index r) channelLabels ""%string ->
  resolve hdr channelLabels r = None.
Proof.
  intros Hup. destruct (resolve hdr channelLabels r) as [n|] eqn:H;
    [|reflexivity].
  apply resolve_lower_case in H as (_ & Heq & _).
  elim Hup. rewrite <- Heq. apply strlwr_idempotent.
Qed.

Lemma upper_case_request_not_found_witness :
  Str.strlwr (nth (role_index C3) Demo.usage_labels ""%string)
  <> nth (role_index C3) Demo.usage_labels ""%string
  /\ resolve (Demo.header 200 12000) Demo.usage_labels C3 = None.
Proof.
  assert (H : Str.strlwr (nth (role_index C3) Demo.usage_labels ""%string)
              <> nth (role_index C3) Demo.usage_labels ""%string)
    by (vm_compute; discriminate).
  split; [exact H|].
  apply (upper_case_request_not_found (Demo.header 200 12000)
           Demo.usage_labels C3 H).
Defined.

(** The labels of the usage line, given for a recording that carries
    exactly these labels: the job fails for C3. *)
Example usage_labels_not_found :
  let hdr := Demo.header 200 12000 in
  label (param hdr 0) = nth (role_index C3) Demo.usage_labels ""%string
  /\ resolve hdr Demo.usage_labels C3 = None
  /\ fst (convertFile (Demo.externals O32_LITTLE_ENDIAN) "night.edf"
            Demo.usage_labels false
            (Demo.disk (Demo.recording 200 12000) 1000000))
     = Failed (LabelNotFound C3)
  /\ resolve hdr Demo.lower_labels C3 = Some 0.
Proof. vm_compute. repeat split; reflexivity. Qed.

(** ** Slices of vectors *)

Lemma obind_some {A B} (o : option A) (f : A -> option B) b :
  obind o f = Some b -> exists a, o = Some a /\ f a = Some b.
Proof. destruct o as [a|]; simpl; [eauto | discriminate]. Qed.

Lemma subvec_some {A} (v : list A) a b r :
  subvec v a b = Some r ->
  0 <= a /\ a <= b /\ b < len v
  /\ r = firstn (Z.to_nat (b - a + 1)) (skipn (Z.to_nat a) v)
  /\ len r = b - a + 1.
Proof.
  unfold subvec.
  destruct (0 <=? a) eqn:H0; [|discriminate].
  destruct (a <=? b) eqn:H1; [|discriminate].
  destruct (b <? len v) eqn:H2; [|discriminate].
  simpl. intros [= <-].
  apply Z.leb_le in H0, H1. apply Z.ltb_lt in H2.
  repeat split; try lia.
  rewrite len_firstn, len_skipn. lia.
Qed.

Lemma subvec_in_range {A} (v : list A) a b :
  0 <= a -> a <= b -> b < len v ->
  subvec v a b = Some (firstn (Z.to_nat (b - a + 1)) (skipn (Z.to_nat a) v)).
Proof.
  intros H0 H1 H2. unfold subvec.
  apply Z.leb_le in H0, H1. apply Z.ltb_lt in H2.
  now rewrite H0, H1, H2.
Qed.

Lemma set_subvec_some {A} (v : list A) a b x v' :
  set_subvec v a b x = Some v' ->
  0 <= a /\ a <= b /\ b < len v /\ len x = b - a + 1
  /\ v' = firstn (Z.to_nat a) v ++ x ++ skipn (Z.to_nat (b + 1)) v
  /\ len v' = len v.
Proof.
  unfold set_subvec.
  destruct (0 <=? a) eqn:H0; [|discriminate].
  destruct (a <=? b) eqn:H1; [|discriminate].
  destruct (b <? len v) eqn:H2; [|discriminate].
  destruct (len x =? b - a + 1) eqn:H3; [|discriminate].
  simpl. intros [= <-].
  apply Z.leb_le in H0, H1. apply Z.ltb_lt in H2. apply Z.eqb_eq in H3.
  repeat split; try lia.
  rewrite !len_app, len_firstn, len_skipn. lia.
Qed.

Lemma set_subvec_in_range {A} (v : list A) a b x :
  0 <= a -> a <= b -> b < len v -> len x = b - a + 1 ->
  exists v', set_subvec v a b x = Some v'.
Proof.
  intros H0 H1 H2 H3. unfold set_subvec.
  apply Z.leb_le in H0, H1. apply Z.ltb_lt in H2. apply Z.eqb_eq in H3.
  rewrite H0, H1, H2, H3. simpl. eauto.
Qed.

(** A slice that was stored is read back. *)
Lemma subvec_set_same {A} (v : list A) a b x v' :
  set_subvec v a b x = Some v' -> subvec v' a b = Some x.
Proof.
  intros H. apply set_subvec_some in H as (H0 & H1 & H2 & H3 & -> & Hl).
  rewrite subvec_in_range by lia. f_equal.
  rewrite skipn_app, length_firstn.
  rewrite skipn_all2 by (rewrite length_firstn; lia).
  replace (Z.to_nat a - Nat.min (Z.to_nat a) (List.length v))%nat with 0%nat
    by (unfold len in *; lia).
  cbn [app skipn].
  rewrite firstn_app.
  replace (Z.to_nat (b - a + 1) - List.length x)%nat with 0%nat
    by (unfold len in *; lia).
  cbn [firstn]. rewrite app_nil_r. apply firstn_all2. unfold len in *; lia.
Qed.

(** Storing a slice leaves every slice beside it as it was. *)
Lemma subvec_set_other {A} (v : list A) a b x v' a' b' :
  set_subvec v a b x = Some v' ->
  b' < a \/ b < a' ->
  subvec v' a' b' = subvec v a' b'.
Proof.
  intros H Hd. apply set_subvec_some in H as (H0 & H1 & H2 & H3 & Hv & Hl).
  unfold subvec. rewrite Hl.
  destruct ((0 <=? a') && (a' <=? b') && (b' <? len v)) eqn:Hc; [|reflexivity].
  apply andb_prop in Hc as (Hc & Hc3). apply andb_prop in Hc as (Hc1 & Hc2).
  apply Z.leb_le in Hc1, Hc2. apply Z.ltb_lt in Hc3.
  f_equal. subst v'. unfold len in *.
  destruct Hd as [Hd|Hd].
  - rewrite !firstn_skipn_comm. f_equal.
    rewrite firstn_app, length_firstn, firstn_firstn.
    replace (Z.to_nat a' + Z.to_nat (b' - a' + 1)
             - Nat.min (Z.to_nat a) (List.length v))%nat with 0%nat by lia.
    cbn [firstn]. rewrite app_nil_r. f_equal. lia.
  - f_equal. rewrite app_assoc, skipn_app.
    rewrite skipn_all2
      by (rewrite length_app, length_firstn; lia).
    rewrite length_app, length_firstn.
    cbn [app]. rewrite skipn_skipn. f_equal. lia.
Qed.

(** ** The FFT wrapper *)

Lemma length_resize {A} n (d : A) l : List.length (resize n d l) = Z.to_nat n.
Proof.
  unfold resize. rewrite length_firstn, length_app, repeat_length. lia.
Qed.

Lemma firstn_resize {A} n (d : A) l k :
  (k <= Z.to_nat n)%nat -> (k <= List.length l)%nat ->
  firstn k (resize n d l) = firstn k l.
Proof.
  intros Hn Hl. unfold resize. rewrite firstn_firstn.
  replace (Nat.min k (Z.to_nat n)) with k by lia.
  rewrite firstn_app. replace (k - List.length l)%nat with 0%nat by lia.
  cbn [firstn]. apply app_nil_r.
Qed.

Lemma resize_exact {A} n (d : A) l : len l = n -> resize n d l = l.
Proof.
  intros H. unfold resize, len in *. rewrite firstn_app.
  replace (Z.to_nat n - List.length l)%nat with 0%nat by lia.
  cbn [firstn]. rewrite app_nil_r. apply firstn_all2. lia.
Qed.

(** A loop that only stores at indices from [k] on keeps the length of
    the vector and its first [k] elements. *)
Lemma fold_set_at_keeps {A} (idx : Z -> Z) (g : list A -> Z -> A) (k : nat) :
  forall (js : list Z) (P : list A),
    (k <= List.length P)%nat ->
    (forall i, In i js -> Z.of_nat k <= idx i < len P) ->
    let P' := fold_left (fun P i => set_at P (idx i) (g P i)) js P in
    List.length P' = List.length P /\ firstn k P' = firstn k P.
Proof.
  induction js as [|j js IH]; intros P Hk Hjs; cbn [fold_left]; [auto|].
  assert (Hj : Z.of_nat k <= idx j < len P) by (apply Hjs; now left).
  assert (Hlen : List.length (set_at P (idx j) (g P j)) = List.length P)
    by (apply length_set_at; lia).
  destruct (IH (set_at P (idx j) (g P j))) as (Hl & Hf).
  - lia.
  - intros i Hi. unfold len. rewrite Hlen. apply Hjs. now right.
  - split; [lia|]. rewrite Hf. apply firstn_set_at; lia.
Qed.

(** The first 32 magnitudes are those of the bins FFTW delivers. *)
Lemma abs_fft_low_bins E x :
  shapes E ->
  subvec (abs_fft E x) 0 (32 - 1)
  = Some (map (c_abs E) (firstn 32 (fftw_execute_dft_r2c E 128 x))).
Proof.
  intros HE. unfold abs_fft, FFTW_fft.
  change ((128 + 1) / 2) with 64. change (128 - 64) with 64.
  change (Z.to_nat (128 / 2 + 1)) with 65%nat.
  set (out := fftw_execute_dft_r2c E 128 x).
  assert (Hout : List.length out = 65%nat).
  { pose proof (fftw_len E HE 128 x ltac:(lia)) as H. fold out in H.
    unfold len in H. change (128 / 2 + 1) with 65 in H. lia. }
  set (Pxx := resize 128 czero (firstn 65 out)).
  assert (HP : List.length Pxx = 128%nat) by apply length_resize.
  destruct (fold_set_at_keeps (fun i => 64 + i)
              (fun P i => std_conj (at_ czero P (64 - i))) 64
              (for_range 0 64 1) Pxx) as (Hl & Hf).
  - lia.
  - intros i Hi. apply in_for_range_unit in Hi. unfold len. lia.
  - cbv zeta in Hl, Hf.
    rewrite subvec_in_range
      by (rewrite ?len_map; unfold len; rewrite ?Hl, ?HP; lia).
    f_equal. change (Z.to_nat (32 - 1 - 0 + 1)) with 32%nat.
    change (Z.to_nat 0) with 0%nat. cbn [skipn].
    rewrite firstn_map. f_equal.
    replace 32%nat with (Nat.min 32 64) by reflexivity.
    rewrite <- firstn_firstn, Hf, firstn_firstn.
    subst Pxx. rewrite firstn_resize
      by (rewrite ?length_firstn, ?Hout; lia).
    rewrite firstn_firstn. reflexivity.
Qed.

Lemma len_abs_fft E x : len (abs_fft E x) = 128.
Proof.
  unfold abs_fft, FFTW_fft. rewrite len_map.
  change ((128 + 1) / 2) with 64. change (128 - 64) with 64.
  set (Pxx := resize 128 czero _).
  assert (HP : List.length Pxx = 128%nat) by apply length_resize.
  destruct (fold_set_at_keeps (fun i => 64 + i)
              (fun P i => std_conj (at_ czero P (64 - i))) 64
              (for_range 0 64 1) Pxx) as (Hl & _).
  - lia.
  - intros i Hi. apply in_for_range_unit in Hi. unfold len. lia.
  - cbv zeta in Hl. unfold len. rewrite Hl, HP. reflexivity.
Qed.

(** ** Feature extractor *)

Lemma frame_starts_eq : frame_starts = map (fun t => t * 90) (for_range 0 32 1).
Proof. vm_compute. reflexivity. Qed.

Lemma in_frame_starts j :
  In j frame_starts -> 0 <= j / 90 < 32 /\ j = j / 90 * 90.
Proof.
  rewrite frame_starts_eq, in_map_iff. intros (t & <- & Ht).
  apply in_for_range_unit in Ht. rewrite Z.div_mul by lia. lia.
Qed.

Lemma frame_start_in t : 0 <= t < 32 -> In (t * 90) frame_starts.
Proof.
  intros Ht. rewrite frame_starts_eq. apply (in_map (fun t => t * 90)).
  now apply in_for_range_unit.
Qed.

Lemma schur_some x y d :
  schur x y = Some d -> len x = len y /\ d = zip_with PrimFloat.mul x y.
Proof.
  unfold schur. destruct (len x =? len y) eqn:H; [|discriminate].
  intros [= <-]. apply Z.eqb_eq in H. auto.
Qed.

(** What a frame contributes: the magnitudes of the bins 0..31 of the
    transform of the windowed frame. *)
Lemma frame_spectrum_some E chan i j sp :
  shapes E ->
  frame_spectrum E (hamming E 128) chan i j = Some sp ->
  exists bins,
    subvec sp 0 (32 - 1) = Some bins
    /\ bins_0_31 E chan (i * 3000 + j) = Some bins
    /\ len bins = 32.
Proof.
  intros HE H. unfold frame_spectrum in H.
  apply obind_some in H as (f & Hf & H).
  apply obind_some in H as (d & Hd & [= <-]).
  apply schur_some in Hd as (_ & ->).
  eexists. split; [apply abs_fft_low_bins; exact HE|]. split.
  - unfold bins_0_31.
    replace (i * 3000 + j + 127) with (i * 3000 + j + 128 - 1) by lia.
    rewrite Hf. reflexivity.
  - rewrite len_map, len_firstn.
    rewrite (fftw_len E HE) by lia. reflexivity.
Qed.

Lemma frame_spectrum_total E chan i j :
  shapes E ->
  0 <= i * 3000 + j -> i * 3000 + j + 128 <= len chan ->
  exists sp, frame_spectrum E (hamming E 128) chan i j = Some sp.
Proof.
  intros HE H0 H1. unfold frame_spectrum.
  rewrite subvec_in_range by lia. cbn [obind].
  unfold schur. rewrite len_firstn, len_skipn, (hamming_len E HE) by lia.
  replace (Z.min _ _ =? 128) with true by (symmetry; apply Z.eqb_eq; lia).
  cbn [obind]. eauto.
Qed.

Lemma time_bin_slot payload i c t :
  time_bin payload i c t = subvec payload (slot i c t) (slot i c t + 31).
Proof. unfold time_bin, slot, epochSize. f_equal; lia. Qed.

Lemma slots_apart i c t i' c' t' :
  0 <= c < 3 -> 0 <= t < 32 -> 0 <= c' < 3 -> 0 <= t' < 32 ->
  (i, c, t) <> (i', c', t') ->
  slot i' c' t' + 31 < slot i c t \/ slot i c t + 31 < slot i' c' t'.
Proof.
  intros Hc Ht Hc' Ht' Hne. unfold slot.
  destruct (Z.eq_dec i i') as [->|]; [|lia].
  destruct (Z.eq_dec c c') as [->|]; [|lia].
  destruct (Z.eq_dec t t') as [->|]; [|lia].
  now elim Hne.
Qed.

(** One round of the inner loop, taken apart. *)
Lemma spectrogram_step_some E a b c i j p p' :
  spectrogram_step E (hamming E 128) a b c i j p = Some p' ->
  exists sa sb sc r0 r1 r2 p1 p2,
    frame_spectrum E (hamming E 128) a i j = Some sa
    /\ frame_spectrum E (hamming E 128) b i j = Some sb
    /\ frame_spectrum E (hamming E 128) c i j = Some sc
    /\ subvec sa 0 (32 - 1) = Some r0
    /\ subvec sb 0 (32 - 1) = Some r1
    /\ subvec sc 0 (32 - 1) = Some r2
    /\ set_subvec p (slot i 0 (j / 90)) (slot i 0 (j / 90) + 31) r0 = Some p1
    /\ set_subvec p1 (slot i 1 (j / 90)) (slot i 1 (j / 90) + 31) r1 = Some p2
    /\ set_subvec p2 (slot i 2 (j / 90)) (slot i 2 (j / 90) + 31) r2 = Some p'.
Proof.
  unfold spectrogram_step. intros H.
  apply obind_some in H as (sa & Ha & H).
  apply obind_some in H as (sb & Hb & H).
  apply obind_some in H as (sc & Hc & H).
  apply obind_some in H as (r0 & Hr0 & H).
  apply obind_some in H as (p1 & Hp1 & H).
  apply obind_some in H as (r1 & Hr1 & H).
  apply obind_some in H as (p2 & Hp2 & H).
  apply obind_some in H as (r2 & Hr2 & H).
  exists sa, sb, sc, r0, r1, r2, p1, p2.
  repeat (split; [assumption|]).
  unfold slot, epochSize in *.
  repeat split.
  - rewrite <- Hp1. f_equal; lia.
  - rewrite <- Hp2. f_equal; lia.
  - rewrite <- H. f_equal; lia.
Qed.

(** One round stores the three spectra of its frame and touches no
    other time bin. *)
Lemma spectrogram_step_spec E a b c i j p p' :
  shapes E -> In j frame_starts ->
  spectrogram_step E (hamming E 128) a b c i j p = Some p' ->
  len p' = len p
  /\ (forall ch, 0 <= ch < 3 ->
        exists bins,
          time_bin p' i ch (j / 90) = Some bins
          /\ bins_0_31 E
               (channel_of {| eegFilt := a; eoglFilt := b; eogrFilt := c |} ch)
               (i * 3000 + j) = Some bins
          /\ len bins = 32)
  /\ (forall i' ch t',
        0 <= ch < 3 -> 0 <= t' < 32 -> (i', t') <> (i, j / 90) ->
        time_bin p' i' ch t' = time_bin p i' ch t').
Proof.
  intros HE Hj H.
  apply spectrogram_step_some in H
    as (sa & sb & sc & r0 & r1 & r2 & p1 & p2
        & Ha & Hb & Hc & Hr0 & Hr1 & Hr2 & Hp1 & Hp2 & Hp').
  apply in_frame_starts in Hj as (Ht & _).
  pose proof (set_subvec_some _ _ _ _ _ Hp1) as (_ & _ & _ & _ & _ & Hl1).
  pose proof (set_subvec_some _ _ _ _ _ Hp2) as (_ & _ & _ & _ & _ & Hl2).
  pose proof (set_subvec_some _ _ _ _ _ Hp') as (_ & _ & _ & _ & _ & Hl3).
  split; [lia|]. split.
  - intros ch Hch.
    assert (Hcase : ch = 0 \/ ch = 1 \/ ch = 2) by lia.
    destruct Hcase as [-> | [-> | ->]]; rewrite time_bin_slot.
    + destruct (frame_spectrum_some E a i j sa HE Ha) as (bins & Hs & Hb0 & Hl).
      exists bins. rewrite Hs in Hr0. injection Hr0 as <-.
      repeat split; [|exact Hb0|exact Hl].
      rewrite (subvec_set_other _ _ _ _ _ _ _ Hp')
        by (apply slots_apart; try lia; intros Hx; inversion Hx).
      rewrite (subvec_set_other _ _ _ _ _ _ _ Hp2)
        by (apply slots_apart; try lia; intros Hx; inversion Hx).
      apply (subvec_set_same _ _ _ _ _ Hp1).
    + destruct (frame_spectrum_some E b i j sb HE Hb) as (bins & Hs & Hb0 & Hl).
      exists bins. rewrite Hs in Hr1. injection Hr1 as <-.
      repeat split; [|exact Hb0|exact Hl].
      rewrite (subvec_set_other _ _ _ _ _ _ _ Hp')
        by (apply slots_apart; try lia; intros Hx; inversion Hx).
      apply (subvec_set_same _ _ _ _ _ Hp2).
    + destruct (frame_spectrum_some E c i j sc HE Hc) as (bins & Hs & Hb0 & Hl).
      exists bins. rewrite Hs in Hr2. injection Hr2 as <-.
      repeat split; [|exact Hb0|exact Hl].
      apply (subvec_set_same _ _ _ _ _ Hp').
  - intros i' ch t' Hch Ht' Hne. rewrite !time_bin_slot.
    assert (Hk : forall k, 0 <= k < 3 ->
              (i, k, j / 90) <> (i', ch, t'))
      by (intros k _ Hx; inversion Hx; subst; now elim Hne).
    rewrite (subvec_set_other _ _ _ _ _ _ _ Hp')
      by (apply slots_apart; try lia; apply Hk; lia).
    rewrite (subvec_set_other _ _ _ _ _ _ _ Hp2)
      by (apply slots_apart; try lia; apply Hk; lia).
    rewrite (subvec_set_other _ _ _ _ _ _ _ Hp1)
      by (apply slots_apart; try lia; apply Hk; lia).
    reflexivity.
Qed.

Lemma spectrogram_step_total E a b c i j p :
  shapes E -> 0 <= i -> In j frame_starts ->
  (i + 1) * 3000 <= len a -> (i + 1) * 3000 <= len b ->
  (i + 1) * 3000 <= len c -> (i + 1) * 3072 <= len p ->
  exists p', spectrogram_step E (hamming E 128) a b c i j p = Some p'.
Proof.
  intros HE Hi Hj Ha Hb Hc Hp.
  apply in_frame_starts in Hj as (Ht & Hj90).
  unfold spectrogram_step.
  destruct (frame_spectrum_total E a i j HE) as (sa & Hsa); try lia.
  destruct (frame_spectrum_total E b i j HE) as (sb & Hsb); try lia.
  destruct (frame_spectrum_total E c i j HE) as (sc & Hsc); try lia.
  rewrite Hsa, Hsb, Hsc. cbn [obind].
  destruct (frame_spectrum_some E a i j sa HE Hsa) as (r0 & Hr0 & _ & Hl0).
  destruct (frame_spectrum_some E b i j sb HE Hsb) as (r1 & Hr1 & _ & Hl1).
  destruct (frame_spectrum_some E c i j sc HE Hsc) as (r2 & Hr2 & _ & Hl2).
  rewrite Hr0. cbn [obind]. unfold epochSize.
  destruct (set_subvec_in_range p (i * (32 * 32 * 3) + j / 90 * 32)
              (i * (32 * 32 * 3) + j / 90 * 32 + 32 - 1) r0)
    as (p1 & Hp1); try lia.
  rewrite Hp1. cbn [obind]. rewrite Hr1. cbn [obind].
  pose proof (set_subvec_some _ _ _ _ _ Hp1) as (_ & _ & _ & _ & _ & Hq1).
  destruct (set_subvec_in_range p1 (i * (32 * 32 * 3) + 32 * 32 + j / 90 * 32)
              (i * (32 * 32 * 3) + 32 * 32 + j / 90 * 32 + 32 - 1) r1)
    as (p2 & Hp2); try lia.
  rewrite Hp2. cbn [obind]. rewrite Hr2. cbn [obind].
  pose proof (set_subvec_some _ _ _ _ _ Hp2) as (_ & _ & _ & _ & _ & Hq2).
  apply set_subvec_in_range; lia.
Qed.

Lemma NoDup_for_range_unit n : NoDup (for_range 0 n 1).
Proof.
  rewrite for_range_unit. apply Finite.Injective_map_NoDup.
  - intros x y. apply Nat2Z.inj.
  - apply seq_NoDup.
Qed.

Lemma NoDup_frame_starts : NoDup frame_starts.
Proof.
  rewrite frame_starts_eq. apply Finite.Injective_map_NoDup.
  - intros x y. lia.
  - apply NoDup_for_range_unit.
Qed.

Lemma fold_opt_cons {A S} (body : A -> S -> option S) a l s s' :
  fold_opt body (a :: l) s = Some s' ->
  exists s1, body a s = Some s1 /\ fold_opt body l s1 = Some s'.
Proof. cbn [fold_opt]. apply obind_some. Qed.

(** The inner loop over the frames [js] of epoch [i]. *)
Lemma inner_loop_spec E a b c i :
  shapes E ->
  forall js p p',
    (forall j, In j js -> In j frame_starts) -> NoDup js ->
    fold_opt (spectrogram_step E (hamming E 128) a b c i) js p = Some p' ->
    len p' = len p
    /\ (forall j ch, In j js -> 0 <= ch < 3 ->
          exists bins,
            time_bin p' i ch (j / 90) = Some bins
            /\ bins_0_31 E
                 (channel_of {| eegFilt := a; eoglFilt := b; eogrFilt := c |} ch)
                 (i * 3000 + j) = Some bins
            /\ len bins = 32)
    /\ (forall i' ch t',
          0 <= ch < 3 -> 0 <= t' < 32 ->
          i' <> i \/ (forall j, In j js -> t' <> j / 90) ->
          time_bin p' i' ch t' = time_bin p i' ch t').
Proof.
  intros HE. induction js as [|j js IH]; intros p p' Hjs Hnd H.
  - injection H as <-. repeat split; auto. intros j ch [].
  - apply fold_opt_cons in H as (p1 & H1 & H).
    assert (Hj : In j frame_starts) by (apply Hjs; now left).
    destruct (spectrogram_step_spec E a b c i j p p1 HE Hj H1)
      as (Hl1 & Hg1 & Ho1).
    inversion Hnd as [|? ? Hnin Hnd']; subst.
    destruct (IH p1 p' (fun k Hk => Hjs k (or_intror Hk)) Hnd' H)
      as (Hl & Hg & Ho).
    split; [lia|]. split.
    + intros k ch [<-|Hk] Hch; [|now apply Hg].
      destruct (Hg1 ch Hch) as (bins & Hb & Hrest). exists bins.
      split; [|exact Hrest]. rewrite <- Hb.
      apply in_frame_starts in Hj as (Ht & Hj90).
      apply Ho; try lia. right. intros k Hk Heq.
      apply Hnin. destruct (in_frame_starts k (Hjs k (or_intror Hk)))
        as (_ & Hk90).
      replace j with k by lia. exact Hk.
    + intros i' ch t' Hch Ht' Hne.
      rewrite Ho.
      * apply Ho1; try lia.
        destruct Hne as [Hne|Hne]; [congruence|].
        intros Hx. inversion Hx. apply (Hne j); [now left|assumption].
      * exact Hch.
      * exact Ht'.
      * destruct Hne as [Hne|Hne]; [now left|].
        right. intros k Hk. apply Hne. now right.
Qed.

(** The outer loop over the epochs [es]. *)
Lemma outer_loop_spec E a b c :
  shapes E ->
  forall es p p',
    NoDup es ->
    fold_opt (fun i p => fold_opt (spectrogram_step E (hamming E 128) a b c i)
                           frame_starts p) es p = Some p' ->
    len p' = len p
    /\ (forall i ch t, In i es -> 0 <= ch < 3 -> 0 <= t < 32 ->
          exists bins,
            time_bin p' i ch t = Some bins
            /\ bins_0_31 E
                 (channel_of {| eegFilt := a; eoglFilt := b; eogrFilt := c |} ch)
                 (i * 3000 + t * 90) = Some bins
            /\ len bins = 32)
    /\ (forall i' ch t',
          0 <= ch < 3 -> 0 <= t' < 32 -> ~ In i' es ->
          time_bin p' i' ch t' = time_bin p i' ch t').
Proof.
  intros HE. induction es as [|i es IH]; intros p p' Hnd H.
  - injection H as <-. repeat split; auto. intros i ch t [].
  - apply fold_opt_cons in H as (p1 & H1 & H).
    destruct (inner_loop_spec E a b c i HE frame_starts p p1
                (fun j Hj => Hj) NoDup_frame_starts H1) as (Hl1 & Hg1 & Ho1).
    inversion Hnd as [|? ? Hnin Hnd']; subst.
    destruct (IH p1 p' Hnd' H) as (Hl & Hg & Ho).
    split; [lia|]. split.
    + intros k ch t [<-|Hk] Hch Ht; [|now apply Hg].
      destruct (Hg1 (t * 90) ch (frame_start_in t Ht) Hch)
        as (bins & Hb & Hrest).
      rewrite Z.div_mul in Hb by lia.
      exists bins. split; [|exact Hrest]. rewrite <- Hb. now apply Ho.
    + intros i' ch t' Hch Ht' Hne.
      rewrite Ho; [|assumption|assumption|].
      * apply Ho1; try assumption. left. intros ->. apply Hne. now left.
      * intros Hin. apply Hne. now right.
Qed.

(** The loops keep the size of the payload. *)
Lemma inner_loop_len E a b c i :
  forall js p p',
    fold_opt (spectrogram_step E (hamming E 128) a b c i) js p = Some p' ->
    len p' = len p.
Proof.
  induction js as [|j js IH]; intros p p' H.
  - now injection H as <-.
  - apply fold_opt_cons in H as (p1 & H1 & H). apply IH in H.
    apply spectrogram_step_some in H1
      as (sa & sb & sc & r0 & r1 & r2 & q1 & q2
          & _ & _ & _ & _ & _ & _ & Hp1 & Hp2 & Hp').
    apply set_subvec_some in Hp1 as (_ & _ & _ & _ & _ & Hl1).
    apply set_subvec_some in Hp2 as (_ & _ & _ & _ & _ & Hl2).
    apply set_subvec_some in Hp' as (_ & _ & _ & _ & _ & Hl3).
    lia.
Qed.

Lemma outer_loop_spec_len E a b c :
  forall es p p',
    fold_opt (fun i p => fold_opt (spectrogram_step E (hamming E 128) a b c i)
                           frame_starts p) es p = Some p' ->
    len p' = len p.
Proof.
  induction es as [|i es IH]; intros p p' H.
  - now injection H as <-.
  - apply fold_opt_cons in H as (p1 & H1 & H). apply IH in H.
    apply inner_loop_len in H1. lia.
Qed.

Lemma inner_loop_total E a b c i :
  shapes E -> 0 <= i ->
  (i + 1) * 3000 <= len a -> (i + 1) * 3000 <= len b ->
  (i + 1) * 3000 <= len c ->
  forall js p,
    (forall j, In j js -> In j frame_starts) ->
    (i + 1) * 3072 <= len p ->
    exists p', fold_opt (spectrogram_step E (hamming E 128) a b c i) js p
               = Some p'.
Proof.
  intros HE Hi Ha Hb Hc. induction js as [|j js IH]; intros p Hjs Hp.
  - cbn [fold_opt]. eauto.
  - assert (Hj : In j frame_starts) by (apply Hjs; now left).
    destruct (spectrogram_step_total E a b c i j p) as (p1 & H1); auto.
    cbn [fold_opt]. rewrite H1. cbn [obind].
    apply IH; [intros k Hk; apply Hjs; now right|].
    destruct (spectrogram_step_spec E a b c i j p p1 HE Hj H1) as (Hl & _).
    lia.
Qed.

Lemma outer_loop_total E a b c n :
  shapes E ->
  n * 3000 <= len a -> n * 3000 <= len b -> n * 3000 <= len c ->
  forall es p,
    (forall i, In i es -> 0 <= i < n) ->
    n * 3072 <= len p ->
    exists p',
      fold_opt (fun i p => fold_opt (spectrogram_step E (hamming E 128) a b c i)
                             frame_starts p) es p = Some p'.
Proof.
  intros HE Ha Hb Hc. induction es as [|i es IH]; intros p Hes Hp.
  - cbn [fold_opt]. eauto.
  - assert (Hi : 0 <= i < n) by (apply Hes; now left).
    destruct (inner_loop_total E a b c i HE) with (js := frame_starts) (p := p)
      as (p1 & H1); try lia; auto.
    cbn [fold_opt]. rewrite H1. cbn [obind].
    apply IH; [intros k Hk; apply Hes; now right|].
    destruct (inner_loop_spec E a b c i HE frame_starts p p1
                (fun j Hj => Hj) NoDup_frame_starts H1) as (Hl & _).
    lia.
Qed.

Lemma epochs_of_bounds n :
  0 <= n -> 0 <= epochs_of n /\ epochs_of n * 3000 <= n < (epochs_of n + 1) * 3000.
Proof.
  intros Hn. unfold epochs_of.
  pose proof (Z.div_mod n 3000 ltac:(lia)).
  pose proof (Z.mod_pos_bound n 3000 ltac:(lia)).
  pose proof (Z.div_pos n 3000 Hn ltac:(lia)). lia.
Qed.

Lemma spectrogram_some E a b c epochs payload :
  spectrogram E a b c = Some (epochs, payload) ->
  epochs = epochs_of (len a)
  /\ Num.in_int (epochs * epochSize) = true
  /\ fold_opt (fun i p => fold_opt (spectrogram_step E (hamming E 128) a b c i)
                            frame_starts p)
       (for_range 0 epochs 1) (zeros (epochs * epochSize)) = Some payload.
Proof.
  unfold spectrogram.
  destruct (Num.in_int (epochs_of (len a) * epochSize)) eqn:Hin;
    cbn [negb]; [|discriminate].
  intros H. apply obind_some in H as (p & Hp & [= <- <-]). auto.
Qed.

(** The extractor returns on every input whose EOG channels cover the
    epochs of the EEG. *)
Lemma spectrogram_total E a b c :
  shapes E ->
  Num.in_int (epochs_of (len a) * epochSize) = true ->
  epochs_of (len a) * 3000 <= len b ->
  epochs_of (len a) * 3000 <= len c ->
  exists payload, spectrogram E a b c = Some (epochs_of (len a), payload).
Proof.
  intros HE Hin Hb Hc. unfold spectrogram. rewrite Hin. cbn [negb].
  pose proof (epochs_of_bounds (len a) (len_nonneg a)) as (He0 & He & _).
  destruct (outer_loop_total E a b c (epochs_of (len a)) HE He Hb Hc
              (for_range 0 (epochs_of (len a)) 1)
              (zeros (epochs_of (len a) * epochSize))) as (p & Hp).
  - intros i. apply in_for_range_unit.
  - rewrite len_zeros. unfold epochSize. lia.
  - rewrite Hp. cbn [obind]. eauto.
Qed.

Lemma Demo_shapes host : shapes (Demo.externals host).
Proof.
  constructor; cbn [Demo.externals hamming conv_same resample
                      fftw_execute_dft_r2c sha1].
  - intros n Hn. unfold len. rewrite repeat_length. lia.
  - reflexivity.
  - intros up fs r x Hup Hfs Hr. unfold Demo.resample_zeros.
    rewrite Hfs, len_zeros. unfold resample_length.
    pose proof (len_nonneg x).
    assert (0 <= (2 * len x * up + r) / (2 * r)) by (apply Z.div_pos; nia).
    lia.
  - intros N x HN. rewrite len_map. unfold len. rewrite length_resize.
    pose proof (Z.div_pos N 2 HN ltac:(lia)). lia.
  - intros m d [= <-]. reflexivity.
Qed.

Lemma frames_of_the_code : frames_as_worded frame_starts 2790.
Proof.
  split; [reflexivity|]. split; [|split].
  - intros t Ht. rewrite frame_starts_eq.
    rewrite (at_map _ _ 0) by (rewrite len_for_range_unit; lia).
    now rewrite at_for_range_unit.
  - intros j Hj. apply in_frame_starts in Hj. lia.
  - reflexivity.
Qed.

(** C5, as amended: every epoch of every channel yields exactly 32 time
    bins; bin [t] is the magnitudes of the bins 0..31 of the length-128
    transform of the Hamming-windowed 128-sample frame that starts at
    offset [t * 90] of the epoch; every frame lies inside the epoch,
    and the last one starts at 2790. *)
Theorem spectrogram_frames E a b c epochs payload :
  shapes E ->
  spectrogram E a b c = Some (epochs, payload) ->
  frames_as_worded frame_starts 2790
  /\ len payload = epochs * 3 * 32 * 32
  /\ forall i ch t,
       0 <= i < epochs -> 0 <= ch < 3 -> 0 <= t < 32 ->
       exists bins,
         time_bin payload i ch t = Some bins
         /\ bins_0_31 E
              (channel_of {| eegFilt := a; eoglFilt := b; eogrFilt := c |} ch)
              (i * 3000 + t * 90) = Some bins
         /\ len bins = 32.
Proof.
  intros HE H. split; [exact frames_of_the_code|].
  apply spectrogram_some in H as (He & _ & H).
  destruct (outer_loop_spec E a b c HE _ _ _ (NoDup_for_range_unit epochs) H)
    as (Hl & Hg & _).
  split.
  - rewrite Hl, len_zeros. unfold epochSize.
    pose proof (epochs_of_bounds (len a) (len_nonneg a)). lia.
  - intros i ch t Hi. apply Hg. now apply in_for_range_unit.
Qed.

Lemma spectrogram_frames_witness :
  exists payload,
    spectrogram (Demo.externals O32_LITTLE_ENDIAN)
      (Demo.ones 3000) (Demo.ones 3000) (Demo.ones 3000) = Some (1, payload)
    /\ len payload = 1 * 3 * 32 * 32.
Proof.
  set (D := Demo.externals O32_LITTLE_ENDIAN).
  set (payload := match spectrogram D (Demo.ones 3000) (Demo.ones 3000)
                          (Demo.ones 3000) with
                  | Some (_, p) => p
                  | None => []
                  end).
  assert (H : spectrogram D (Demo.ones 3000) (Demo.ones 3000) (Demo.ones 3000)
              = Some (1, payload)) by (vm_compute; reflexivity).
  exists payload. split; [exact H|].
  exact (proj1 (proj2 (spectrogram_frames D _ _ _ 1 payload
                         (Demo_shapes O32_LITTLE_ENDIAN) H))).
Defined.

(** C5, as worded: the last frame of an epoch does not start at 2850. *)
Lemma last_frame_start_not_2850 : ~ frames_as_worded frame_starts 2850.
Proof.
  intros (_ & _ & _ & H). vm_compute in H. discriminate.
Qed.

(** ** The monad of a job *)

Lemma bind_inv {A B} (m : M A) (k : A -> M B) w r w' :
  bind m k w = (r, w') ->
  (exists f, m w = (Failed f, w') /\ r = Failed f)
  \/ (exists a w1, m w = (Ok a, w1) /\ k a w1 = (r, w')).
Proof.
  unfold bind. destruct (m w) as [[a|f] w1].
  - right. eauto.
  - intros [= <- <-]. left. eauto.
Qed.

Lemma bind_ok {A B} (m : M A) (k : A -> M B) w b w' :
  bind m k w = (Ok b, w') ->
  exists a w1, m w = (Ok a, w1) /\ k a w1 = (Ok b, w').
Proof.
  intros H. apply bind_inv in H as [(f & _ & [=])|H]. exact H.
Qed.

Lemma guard_ok b f w w' : guard b f w = (Ok tt, w') -> b = true /\ w' = w.
Proof. destruct b; cbv; intros [=]; auto. Qed.

Lemma lift_ok {A} (o : option A) w a w' :
  lift o w = (Ok a, w') -> o = Some a /\ w' = w.
Proof. destruct o; cbv; intros [=]; subst; auto. Qed.

Lemma find_channel_ok hdr channelLabels r w n w' :
  find_channel hdr channelLabels r w = (Ok n, w') ->
  resolve hdr channelLabels r = Some n /\ w' = w.
Proof.
  unfold find_channel. destruct (resolve hdr channelLabels r);
    cbv [ret fail]; intros [=]; subst; auto.
Qed.

Lemma edfopen_ok filename w o w' :
  edfopen_file_readonly filename w = (Ok o, w') ->
  edf_files w filename = EdfOpened (fst o) (snd o) /\ w' = w.
Proof.
  unfold edfopen_file_readonly. destruct (edf_files w filename);
    intros [=]; subst; auto.
Qed.

Lemma package_ok E istream w pk w' :
  package E istream w = (Ok pk, w') ->
  exists digest,
    sha1 E istream = Some digest
    /\ fst pk = digest_buffer digest
    /\ compress E istream (compressBound E (len istream)) = Z_OK (snd pk)
    /\ w' = w.
Proof.
  unfold package. destruct (sha1 E istream) as [digest|]; [|discriminate].
  destruct (compress E istream _) as [o| |]; try discriminate.
  cbv [ret]. intros [= <- <-]. eauto.
Qed.

Lemma quiet_guard b f : quiet (guard b f).
Proof. intros w r w'. destruct b; cbv; now intros [= _ <-]. Qed.

Lemma quiet_lift {A} (o : option A) : quiet (lift o).
Proof. intros w r w'. destruct o; cbv; now intros [= _ <-]. Qed.

Lemma quiet_exists path : quiet (exists_ path).
Proof. intros w r w'. cbv [exists_]. now intros [= _ <-]. Qed.

Lemma quiet_find_channel hdr channelLabels r :
  quiet (find_channel hdr channelLabels r).
Proof.
  intros w res w'. unfold find_channel.
  destruct (resolve hdr channelLabels r); cbv [ret fail]; now intros [= _ <-].
Qed.

Lemma quiet_edfopen filename : quiet (edfopen_file_readonly filename).
Proof.
  intros w r w'. unfold edfopen_file_readonly.
  destruct (edf_files w filename); now intros [= _ <-].
Qed.

Lemma quiet_package E istream : quiet (package E istream).
Proof.
  intros w r w'. unfold package.
  destruct (sha1 E istream); [|cbv [fail]; now intros [= _ <-]].
  destruct (compress E istream _); cbv [ret fail]; now intros [= _ <-].
Qed.

Lemma quiet_ret {A} (a : A) : quiet (ret a).
Proof. intros w r w'. cbv [ret]. now intros [= _ <-]. Qed.

Lemma same_disk_refl w : same_disk w w.
Proof. repeat split. Qed.

Lemma same_disk_trans w1 w2 w3 :
  same_disk w1 w2 -> same_disk w2 w3 -> same_disk w1 w3.
Proof.
  unfold same_disk. intros (-> & -> & -> & ->) (-> & -> & -> & ->). auto.
Qed.

(** ** Reading the channels *)

Lemma log_spec e w r w' :
  log e w = (r, w') ->
  r = Ok tt /\ same_disk w w' /\ trace w' = trace w ++ [e].
Proof. unfold log. intros [= <- <-]. repeat split. Qed.

Lemma read_channel_spec physical r signal tot w res w' :
  read_channel physical r signal tot (zeros tot) w = (res, w') ->
  same_disk w w'
  /\ trace w' = trace w ++ [Read r signal tot]
  /\ forall buf, res = Ok buf -> len buf = Z.max 0 tot.
Proof.
  unfold read_channel. intros H.
  apply bind_inv in H as [(f & H & _)|(u & w1 & H & H1)];
    apply log_spec in H as (Hr & Hd & Ht); [discriminate|].
  unfold edfread_physical_samples in H1.
  destruct (physical signal) as [data|].
  - replace (len (firstn (Z.to_nat tot) data) =? -1) with false in H1
      by (symmetry; apply Z.eqb_neq;
          pose proof (len_nonneg (firstn (Z.to_nat tot) data)); lia).
    cbv [negb guard bind ret] in H1. injection H1 as <- <-.
    repeat split; try apply Hd; try exact Ht.
    intros buf [= <-]. rewrite len_app. unfold len, zeros.
    rewrite length_skipn, repeat_length, length_firstn. lia.
  - cbv in H1. injection H1 as <- <-.
    repeat split; try apply Hd; try exact Ht. discriminate.
Qed.



(** The reader stage asks every channel for the sample count of C3 and
    sizes every buffer by it. *)
Lemma read_channels_spec hdr physical nC3 nC4 nEL nER w res w' :
  read_channels hdr physical nC3 nC4 nEL nER w = (res, w') ->
  let tot := smp_in_file (param hdr nC3) in
  same_disk w w'
  /\ (exists k, (k = 0 \/ 4 <= k <= 8)%nat
        /\ trace w' = trace w ++ firstn k (reader_calls nC3 nC4 nEL nER tot)
        /\ (forall d, res = Ok d -> k = 8%nat))
  /\ forall d, res = Ok d ->
       len (dataC3 d) = Z.max 0 tot /\ len (dataC4 d) = Z.max 0 tot
       /\ len (dataEL d) = Z.max 0 tot /\ len (dataER d) = Z.max 0 tot.
Proof.
  intros H tot. unfold read_channels in H. fold tot in H.
  apply bind_inv in H as [(f & H & ->)|(u0 & w0 & H0 & H)].
  { apply quiet_guard in H. subst w'.
    split; [apply same_disk_refl|]. split; [|discriminate].
    exists 0%nat. split; [now left|]. split; [|discriminate].
    cbn [firstn]. now rewrite app_nil_r. }
  apply quiet_guard in H0. subst w0.
  apply bind_inv in H as [(f & H & _)|(u1 & w1 & H & H1)];
    apply log_spec in H as (Hr1 & Hd1 & Ht1); [discriminate|].
  apply bind_inv in H1 as [(f & H & _)|(u2 & w2 & H & H2)];
    apply log_spec in H as (Hr2 & Hd2 & Ht2); [discriminate|].
  apply bind_inv in H2 as [(f & H & _)|(u3 & w3 & H & H3)];
    apply log_spec in H as (Hr3 & Hd3 & Ht3); [discriminate|].
  apply bind_inv in H3 as [(f & H & _)|(u4 & w4 & H & H4)];
    apply log_spec in H as (Hr4 & Hd4 & Ht4); [discriminate|].
  assert (Hd : same_disk w w4)
    by (eauto using same_disk_trans).
  assert (Ht : trace w4 = trace w ++ firstn 4 (reader_calls nC3 nC4 nEL nER tot)).
  { rewrite Ht4, Ht3, Ht2, Ht1, <- !app_assoc. reflexivity. }
  clear Hd1 Hd2 Hd3 Hd4 Ht1 Ht2 Ht3 Ht4 Hr1 Hr2 Hr3 Hr4.
  apply bind_inv in H4 as [(f & H & ->)|(b3 & w5 & H & H5)];
    apply read_channel_spec in H as (Hd5 & Ht5 & Hb3).
  { split; [eauto using same_disk_trans|]. split; [|discriminate].
    exists 5%nat. split; [lia|]. split; [|discriminate].
    rewrite Ht5, Ht, <- app_assoc. reflexivity. }
  apply bind_inv in H5 as [(f & H & ->)|(b4 & w6 & H & H6)];
    apply read_channel_spec in H as (Hd6 & Ht6 & Hb4).
  { split; [eauto using same_disk_trans|]. split; [|discriminate].
    exists 6%nat. split; [lia|]. split; [|discriminate].
    rewrite Ht6, Ht5, Ht, <- !app_assoc. reflexivity. }
  apply bind_inv in H6 as [(f & H & ->)|(bl & w7 & H & H7)];
    apply read_channel_spec in H as (Hd7 & Ht7 & Hbl).
  { split; [eauto using same_disk_trans|]. split; [|discriminate].
    exists 7%nat. split; [lia|]. split; [|discriminate].
    rewrite Ht7, Ht6, Ht5, Ht, <- !app_assoc. reflexivity. }
  apply bind_inv in H7 as [(f & H & ->)|(br & w8 & H & H8)];
    apply read_channel_spec in H as (Hd8 & Ht8 & Hbr).
  { split; [eauto using same_disk_trans|]. split; [|discriminate].
    exists 8%nat. split; [lia|]. split; [|discriminate].
    rewrite Ht8, Ht7, Ht6, Ht5, Ht, <- !app_assoc. reflexivity. }
  cbv [ret] in H8. injection H8 as <- <-.
  split; [eauto 6 using same_disk_trans|]. split.
  - exists 8%nat. split; [lia|]. split; [|reflexivity].
    rewrite Ht8, Ht7, Ht6, Ht5, Ht, <- !app_assoc. reflexivity.
  - intros d [= <-]. cbn [dataC3 dataC4 dataEL dataER]. auto.
Qed.

(** A reader stage that completes had a count that is not negative. *)
Lemma read_channels_count hdr physical nC3 nC4 nEL nER w d w' :
  read_channels hdr physical nC3 nC4 nEL nER w = (Ok d, w') ->
  0 <= smp_in_file (param hdr nC3).
Proof.
  unfold read_channels. intros H.
  apply bind_ok in H as ([] & w0 & H & _).
  apply guard_ok in H as (H & _). now apply Z.leb_le.
Qed.

(** ** The job up to the point where the destination is opened *)

Ltac quiet_step H Q :=
  let w1 := fresh "w" in
  let H0 := fresh "H" in
  apply bind_inv in H as [(? & H & _)|(? & w1 & H0 & H)];
  [ apply Q in H; subst; now left
  | apply Q in H0; subst w1 ].

(** Until it reads the channels a job leaves the world as it is;
    afterwards only the trace of the reader has grown. *)
Lemma prepare_world E filename channelLabels overwrite w r w1 :
  prepare E filename channelLabels overwrite w = (r, w1) ->
  w1 = w
  \/ exists hdr physical nC3 nC4 nEL nER res,
       edf_files w filename = EdfOpened hdr physical
       /\ resolve hdr channelLabels C3 = Some nC3
       /\ read_channels hdr physical nC3 nC4 nEL nER w = (res, w1).
Proof.
  unfold prepare. intros H.
  quiet_step H quiet_exists.
  quiet_step H quiet_guard.
  apply bind_inv in H as [(? & H & _)|(o & w1' & H0 & H)];
    [apply quiet_edfopen in H; subst; now left|].
  apply edfopen_ok in H0 as (Hopen & ->).
  apply bind_inv in H as [(? & H & _)|(nC3 & w1' & H0 & H)];
    [apply quiet_find_channel in H; subst; now left|].
  apply find_channel_ok in H0 as (HC3 & ->).
  quiet_step H quiet_find_channel.
  quiet_step H quiet_find_channel.
  quiet_step H quiet_find_channel.
  quiet_step H quiet_guard.
  quiet_step H (@quiet_lift Z).
  quiet_step H (@quiet_lift Z).
  quiet_step H quiet_guard.
  right. exists (fst o), (snd o), nC3.
  match type of H with
  | bind (read_channels _ _ _ ?n4 ?nl ?nr) _ _ = _ => exists n4, nl, nr
  end.
  apply bind_inv in H as [(f & H & ->)|(d & w5 & H0 & H)].
  { exists (Failed f). auto. }
  exists (Ok d). split; [exact Hopen|]. split; [exact HC3|].
  replace w1 with w5; [exact H0|].
  apply bind_inv in H as [(? & H & _)|(? & w6 & H1 & H)];
    [apply quiet_lift in H; now subst|apply quiet_lift in H1; subst w6].
  apply bind_inv in H as [(? & H & _)|(? & w6 & H1 & H)];
    [apply quiet_lift in H; now subst|apply quiet_lift in H1; subst w6].
  apply bind_inv in H as [(? & H & _)|(? & w6 & H1 & H)];
    [apply quiet_package in H; now subst|apply quiet_package in H1; subst w6].
  apply quiet_ret in H. now subst.
Qed.

(** A job that gets as far as opening its destination, taken apart. *)
Lemma prepare_ok E filename channelLabels overwrite w epochs SHAdigest
    ostream w1 :
  prepare E filename channelLabels overwrite w
  = (Ok (epochs, SHAdigest, ostream), w1) ->
  exists hdr physical nC3 nC4 nEL nER d s payload digest,
    edf_files w filename = EdfOpened hdr physical
    /\ resolve hdr channelLabels C3 = Some nC3
    /\ resolve hdr channelLabels C4 = Some nC4
    /\ resolve hdr channelLabels EL = Some nEL
    /\ resolve hdr channelLabels ER = Some nER
    /\ read_channels hdr physical nC3 nC4 nEL nER w = (Ok d, w1)
    /\ filter_and_resample E (job_rates hdr nC3 nC4 nEL nER)
         (multiplier hdr nC3) (multiplier hdr nC4)
         (multiplier hdr nEL) (multiplier hdr nER) d = Some s
    /\ spectrogram E (eegFilt s) (eoglFilt s) (eogrFilt s)
       = Some (epochs, payload)
    /\ sha1 E (payload_bytes E payload) = Some digest
    /\ SHAdigest = digest_buffer digest
    /\ compress E (payload_bytes E payload)
         (compressBound E (len (payload_bytes E payload))) = Z_OK ostream.
Proof.
  unfold prepare. intros H.
  apply bind_ok in H as (present & w' & H0 & H).
  apply quiet_exists in H0. subst w'.
  apply bind_ok in H as ([] & w' & H0 & H).
  apply guard_ok in H0 as (_ & ->).
  apply bind_ok in H as (o & w' & H0 & H).
  apply edfopen_ok in H0 as (Hopen & ->).
  apply bind_ok in H as (nC3 & w' & H0 & H).
  apply find_channel_ok in H0 as (HC3 & ->).
  apply bind_ok in H as (nC4 & w' & H0 & H).
  apply find_channel_ok in H0 as (HC4 & ->).
  apply bind_ok in H as (nEL & w' & H0 & H).
  apply find_channel_ok in H0 as (HEL & ->).
  apply bind_ok in H as (nER & w' & H0 & H).
  apply find_channel_ok in H0 as (HER & ->).
  apply bind_ok in H as ([] & w' & H0 & H).
  apply guard_ok in H0 as (_ & ->).
  apply bind_ok in H as (iC3 & w' & H0 & H).
  apply lift_ok in H0 as (_ & ->).
  apply bind_ok in H as (iC4 & w' & H0 & H).
  apply lift_ok in H0 as (_ & ->).
  apply bind_ok in H as ([] & w' & H0 & H).
  apply guard_ok in H0 as (_ & ->).
  apply bind_ok in H as (d & w5 & Hread & H).
  apply bind_ok in H as (s & w' & H0 & H).
  apply lift_ok in H0 as (Hs & ->).
  apply bind_ok in H as ([e payload] & w' & H0 & H).
  apply lift_ok in H0 as (Hsp & ->).
  apply bind_ok in H as (pk & w' & H0 & H).
  apply package_ok in H0 as (digest & Hsha & Hbuf & Hz & ->).
  cbv [ret] in H. cbn [fst snd] in H, Hsha, Hz. injection H as <- <- <- <-.
  exists (fst o), (snd o), nC3, nC4, nEL, nER, d, s, payload, digest.
  repeat (split; [assumption|]). assumption.
Qed.

(** ** Container writer *)

Lemma bind_step {A B} (m : M A) (k : A -> M B) w a w1 :
  m w = (Ok a, w1) -> bind m k w = k a w1.
Proof. unfold bind. now intros ->. Qed.

Lemma fitting_app free written data :
  fitting free (written ++ data)
  = fitting free written
    ++ firstn (Z.to_nat (Z.min (len data)
                           (Z.max 0 (free - len (fitting free written)))))
         data.
Proof.
  unfold fitting. rewrite firstn_app. f_equal.
  rewrite len_firstn. unfold len.
  destruct (Z_le_gt_dec (Z.of_nat (List.length data))
              (Z.max 0 (free - Z.min (Z.of_nat (Z.to_nat free))
                                 (Z.of_nat (List.length written))))).
  - rewrite Z.min_l by lia. rewrite Nat2Z.id.
    rewrite !firstn_all2; auto; lia.
  - rewrite Z.min_r by lia. f_equal. lia.
Qed.

Lemma fopen_holds path w :
  openable w path = true ->
  exists w', fopen_wb path w = (Ok tt, w')
             /\ holds path (room w path) w w' [].
Proof.
  intros Ho. unfold fopen_wb. rewrite Ho. eexists. split; [reflexivity|].
  unfold holds, set_file, fitting. cbn [files free_space edf_files openable trace].
  rewrite String.eqb_refl, firstn_nil.
  repeat split; try reflexivity; [unfold len; simpl; lia|].
  intros p Hp. apply String.eqb_neq in Hp. now rewrite Hp.
Qed.

Lemma fwrite_holds path free0 w0 w written data :
  holds path free0 w0 w written ->
  exists w', fwrite path data w = (Ok tt, w')
             /\ holds path free0 w0 w' (written ++ data).
Proof.
  intros (Hf & Hfree & Hoth & He & Ho & Ht).
  unfold fwrite. eexists. split; [reflexivity|].
  unfold holds, set_file. cbn [files free_space edf_files openable trace].
  rewrite String.eqb_refl, Hf, Hfree.
  rewrite fitting_app. repeat split; auto.
  - rewrite len_app, len_firstn. pose proof (len_nonneg data). lia.
  - intros p Hp. rewrite <- Hoth by exact Hp.
    apply String.eqb_neq in Hp. now rewrite Hp.
Qed.

Lemma loop_up_terminates size bs :
  1 <= bs ->
  forall fuel i,
    (Z.to_nat (size - i) < fuel)%nat ->
    exists l, loop_indices fuel (fun o => o <? size) (fun o => o + bs) i
              = Some l.
Proof.
  intros Hbs. induction fuel as [|fuel IH]; intros i Hf; [lia|].
  cbn [loop_indices]. destruct (i <? size) eqn:Hlt; [|eauto].
  apply Z.ltb_lt in Hlt.
  destruct (IH (i + bs)) as (l & ->); [lia|]. cbn [option_map]. eauto.
Qed.

Lemma for_each_ret {A} (l : list A) (body : A -> M unit) w :
  (forall a, body a w = (Ok tt, w)) -> for_each l body w = (Ok tt, w).
Proof.
  intros Hb. induction l as [|a l IH]; [reflexivity|].
  cbn [for_each]. rewrite (bind_step _ _ _ _ _ (Hb a)). exact IH.
Qed.

(** The reversing writer hands nothing to the file: the inner loop
    starts at [byteSize - 1] and runs while [j < 0]. *)
Lemma writeByteReversed_writes_nothing path stream byteSize streamSize w :
  1 <= byteSize ->
  writeByteReversed path stream byteSize streamSize w = (Ok tt, w).
Proof.
  intros Hbs. unfold writeByteReversed.
  destruct (loop_up_terminates streamSize byteSize Hbs
              (S (Z.to_nat streamSize)) 0) as (offsets & ->); [lia|].
  cbn [lift]. rewrite (bind_step _ _ w offsets w) by reflexivity.
  apply for_each_ret. intros offset.
  replace (Z.to_nat byteSize) with (S (Z.to_nat (byteSize - 1))) by lia.
  cbn [loop_indices].
  replace (byteSize - 1 <? 0) with false by (symmetry; apply Z.ltb_ge; lia).
  reflexivity.
Qed.

Ltac fwrite_step Hh :=
  match goal with
  | |- context [bind (fwrite ?p ?data) ?k ?w] =>
      let w' := fresh "w" in
      let Hw := fresh "Hw" in
      destruct (fwrite_holds p _ _ w _ data Hh) as (w' & Hw & Hh');
      rewrite (bind_step _ k w tt w' Hw); clear Hw Hh; rename Hh' into Hh
  end.

(** On a little-endian host the writer hands the file the container of
    section 6.1. *)
Lemma write_cfs_little_endian E path epochs SHAdigest ostream w :
  LITTLEENDIAN E = true -> openable w path = true ->
  exists w',
    write_cfs E path epochs SHAdigest ostream w = (Ok tt, w')
    /\ holds path (room w path) w w'
         (layout_6_1 (Num.to_uint16 epochs) (firstn 20 SHAdigest) ostream).
Proof.
  intros HLE Ho. unfold write_cfs, write_field, host_bytes. rewrite HLE.
  destruct (fopen_holds path w Ho) as (w0 & Hw0 & Hh).
  rewrite (bind_step _ _ w tt w0 Hw0). clear Hw0.
  do 9 fwrite_step Hh.
  destruct (fwrite_holds path _ _ _ _
              (firstn (Z.to_nat (len ostream)) ostream) Hh) as (w' & Hw & Hh').
  exists w'. split; [exact Hw|].
  replace (layout_6_1 _ _ _) with
    (((((((((([] ++ signature) ++ [Num.byte_of_Z (Num.to_uint8 1)])
             ++ [Num.byte_of_Z (Num.to_uint8 32)])
            ++ [Num.byte_of_Z (Num.to_uint8 32)])
           ++ [Num.byte_of_Z (Num.to_uint8 3)])
          ++ firstn (Z.to_nat 2) (Num.le_bytes 2 (Num.to_uint16 epochs)))
         ++ [Num.byte_of_Z (Num.to_uint8 1)])
        ++ [Num.byte_of_Z (Num.to_uint8 1)])
       ++ firstn (Z.to_nat 20) SHAdigest)
      ++ firstn (Z.to_nat (len ostream)) ostream); [exact Hh'|].
  unfold layout_6_1. rewrite <- !app_assoc.
  rewrite (firstn_all2 ostream) by (unfold len; lia).
  reflexivity.
Qed.

Ltac reversed_step :=
  match goal with
  | |- context [bind (writeByteReversed ?p ?s ?b ?n) ?k ?w] =>
      rewrite (bind_step _ k w tt w
                 (writeByteReversed_writes_nothing p s b n w ltac:(lia)))
  end.

(** On a big-endian host the writer hands the file the seven leading
    bytes and the two flags, and none of the multi-byte fields. *)
Lemma write_cfs_big_endian E path epochs SHAdigest ostream w :
  LITTLEENDIAN E = false -> openable w path = true ->
  exists w',
    write_cfs E path epochs SHAdigest ostream w = (Ok tt, w')
    /\ holds path (room w path) w w' big_endian_image.
Proof.
  intros HBE Ho. unfold write_cfs, write_field. rewrite HBE.
  destruct (fopen_holds path w Ho) as (w0 & Hw0 & Hh).
  rewrite (bind_step _ _ w tt w0 Hw0). clear Hw0.
  do 5 fwrite_step Hh. reversed_step.
  do 2 fwrite_step Hh. reversed_step.
  rewrite writeByteReversed_writes_nothing by lia.
  eexists. split; [reflexivity|]. exact Hh.
Qed.

(** The writer fails only where the destination cannot be opened, and
    then leaves the world as it is. *)
Lemma write_cfs_cases E path epochs SHAdigest ostream w r w' :
  write_cfs E path epochs SHAdigest ostream w = (r, w') ->
  (openable w path = false /\ r = Failed WriteFailure /\ w' = w)
  \/ (openable w path = true /\ r = Ok tt
      /\ exists image, holds path (room w path) w w' image).
Proof.
  intros H. destruct (openable w path) eqn:Ho.
  - right. split; [reflexivity|].
    destruct (LITTLEENDIAN E) eqn:HE.
    + destruct (write_cfs_little_endian E path epochs SHAdigest ostream w HE Ho)
        as (w2 & Hw & Hh).
      rewrite Hw in H. injection H as <- <-. eauto.
    + destruct (write_cfs_big_endian E path epochs SHAdigest ostream w HE Ho)
        as (w2 & Hw & Hh).
      rewrite Hw in H. injection H as <- <-. eauto.
  - left. unfold write_cfs, bind, fopen_wb in H. rewrite Ho in H.
    injection H as <- <-. auto.
Qed.

(** ** The job as a whole *)

Lemma convertFile_inv E filename channelLabels overwrite w r w' :
  convertFile E filename channelLabels overwrite w = (r, w') ->
  (exists f, prepare E filename channelLabels overwrite w = (Failed f, w')
             /\ r = Failed f)
  \/ (exists epochs SHAdigest ostream w1,
        prepare E filename channelLabels overwrite w
        = (Ok (epochs, SHAdigest, ostream), w1)
        /\ write_cfs E (cfs_name filename) epochs SHAdigest ostream w1
           = (r, w')).
Proof.
  unfold convertFile. intros H.
  apply bind_inv in H as [H|([[e d] o] & w1 & H & H1)]; [now left|].
  right. exists e, d, o, w1. auto.
Qed.

(** A job that returns [true] has gone through every stage. *)
Lemma convertFile_run E filename channelLabels overwrite w w' :
  convertFile E filename channelLabels overwrite w = (Ok tt, w') ->
  exists R : job_run E filename channelLabels w,
    same_disk w (run_world R)
    /\ write_cfs E (cfs_name filename) (run_epochs R)
         (digest_buffer (run_digest R)) (run_ostream R) (run_world R)
       = (Ok tt, w').
Proof.
  intros H.
  apply convertFile_inv in H as [(f & _ & [=])|(e & dg & o & w1 & Hp & Hw)].
  apply prepare_ok in Hp
    as (hdr & ph & n3 & n4 & nl & nr & d & s & payload & digest
        & Ho & H3 & H4 & Hl & Hr & Hread & Hs & Hsp & Hsha & -> & Hz).
  exists (Build_job_run E filename channelLabels w hdr ph n3 n4 nl nr d w1 s e
            payload digest o Ho H3 H4 Hl Hr Hread Hs Hsp Hsha Hz).
  cbn [run_world run_epochs run_digest run_ostream].
  split; [|exact Hw].
  now apply read_channels_spec in Hread as (Hd & _).
Qed.

Lemma room_same_disk path w0 w1 : same_disk w0 w1 -> room w1 path = room w0 path.
Proof. intros (_ & _ & Hf & Hfree). unfold room. now rewrite Hf, Hfree. Qed.

Lemma holds_same_disk path w0 w1 w' image :
  same_disk w0 w1 -> holds path (room w1 path) w1 w' image ->
  files w' path = Some (fitting (room w0 path) image)
  /\ forall p, p <> path -> files w' p = files w0 p.
Proof.
  intros Hd (Hp & _ & Hoth & _).
  rewrite <- (room_same_disk path w0 w1 Hd).
  destruct Hd as (_ & _ & Hf & _). rewrite <- Hf. auto.
Qed.


(** What the writer of a run hands to its destination, and what the
    disk keeps of it. *)
Lemma run_written E filename channelLabels w w'
    (R : job_run E filename channelLabels w) :
  same_disk w (run_world R) ->
  write_cfs E (cfs_name filename) (run_epochs R)
    (digest_buffer (run_digest R)) (run_ostream R) (run_world R)
  = (Ok tt, w') ->
  holds (cfs_name filename) (room w (cfs_name filename)) (run_world R) w'
    (if LITTLEENDIAN E
     then layout_6_1 (Num.to_uint16 (run_epochs R))
            (digest_buffer (run_digest R)) (run_ostream R)
     else big_endian_image).
Proof.
  intros Hd Hw.
  assert (Ho : openable (run_world R) (cfs_name filename) = true).
  { apply write_cfs_cases in Hw as [(_ & [=] & _)|(Ho & _)]. exact Ho. }
  rewrite <- (room_same_disk _ w (run_world R) Hd).
  destruct (LITTLEENDIAN E) eqn:HE.
  - destruct (write_cfs_little_endian E (cfs_name filename) (run_epochs R)
                (digest_buffer (run_digest R)) (run_ostream R)
                (run_world R) HE Ho) as (w2 & Hw2 & Hh).
    rewrite Hw in Hw2. injection Hw2 as <-.
    rewrite firstn_all2 in Hh
      by (unfold digest_buffer; rewrite length_resize; lia).
    exact Hh.
  - destruct (write_cfs_big_endian E (cfs_name filename) (run_epochs R)
                (digest_buffer (run_digest R)) (run_ostream R)
                (run_world R) HE Ho) as (w2 & Hw2 & Hh).
    rewrite Hw in Hw2. injection Hw2 as <-. exact Hh.
Qed.


(** C8, as amended: a job that reports a failure, including the one
    whose destination cannot be opened, leaves every file and the free
    space as they were; a job that has opened its destination reports
    success whatever its writes achieve, and the destination then holds
    as many leading bytes of the container the writer emitted as the
    disk took: of the header with the epoch count, the digest and the
    stream of this job on a little-endian host, of the nine bytes the
    writer emits on a big-endian host.  No other file changes. *)
Theorem job_failure_leaves_disk E filename channelLabels overwrite w r w' :
  convertFile E filename channelLabels overwrite w = (r, w') ->
  (forall f, r = Failed f -> same_disk w w')
  /\ (r = Ok tt ->
      exists R : job_run E filename channelLabels w,
        let dest := cfs_name filename in
        let emitted :=
          if LITTLEENDIAN E
          then layout_6_1 (Num.to_uint16 (run_epochs R))
                 (digest_buffer (run_digest R)) (run_ostream R)
          else big_endian_image in
        files w' dest = Some (fitting (room w dest) emitted)
        /\ free_space w' = room w dest - len (fitting (room w dest) emitted)
        /\ forall p, p <> dest -> files w' p = files w p).
Proof.
  intros H. split.
  - intros f ->.
    apply convertFile_inv in H
      as [(f' & Hp & _)|(e & dg & o & w1 & Hp & Hw)].
    + apply prepare_world in Hp
        as [->|(hdr & ph & n3 & n4 & nl & nr & res & _ & _ & Hread)];
        [apply same_disk_refl|].
      now apply read_channels_spec in Hread.
    + apply write_cfs_cases in Hw as [(_ & _ & ->)|(_ & [=] & _)].
      apply prepare_world in Hp
        as [->|(hdr & ph & n3 & n4 & nl & nr & res & _ & _ & Hread)];
        [apply same_disk_refl|].
      now apply read_channels_spec in Hread.
  - intros ->. apply convertFile_run in H as (R & Hd & Hw).
    exists R. cbv zeta.
    destruct (run_written E _ _ w w' R Hd Hw) as (Hf & Hfree & Hoth & _).
    destruct Hd as (_ & _ & Hfiles & _).
    split; [exact Hf|]. split; [exact Hfree|].
    intros p Hp. rewrite (Hoth p Hp), Hfiles. reflexivity.
Qed.

Lemma job_failure_leaves_disk_witness :
  (exists w',
     convertFile (Demo.externals O32_LITTLE_ENDIAN) "night.edf"
       Demo.lower_labels false
       (Demo.locked (Demo.disk (Demo.recording 100 100) 1000))
     = (Failed WriteFailure, w')
     /\ same_disk (Demo.locked (Demo.disk (Demo.recording 100 100) 1000)) w')
  /\ exists w',
       convertFile (Demo.externals O32_LITTLE_ENDIAN) "night.edf"
         Demo.lower_labels false (Demo.disk (Demo.recording 100 100) 5)
       = (Ok tt, w')
       /\ files w' "night.cfs"%string = Some [x43; x46; x53; x01; x20]
       /\ free_space w' = 0.
Proof.
  split.
  - set (w := Demo.locked (Demo.disk (Demo.recording 100 100) 1000)).
    set (job := convertFile (Demo.externals O32_LITTLE_ENDIAN) "night.edf"
                  Demo.lower_labels false w).
    assert (H : job = (Failed WriteFailure, snd job))
      by (vm_compute; reflexivity).
    exists (snd job). split; [exact H|].
    exact (proj1 (job_failure_leaves_disk _ _ _ _ _ _ _ H)
             WriteFailure eq_refl).
  - set (w := Demo.disk (Demo.recording 100 100) 5).
    set (job := convertFile (Demo.externals O32_LITTLE_ENDIAN) "night.edf"
                  Demo.lower_labels false w).
    assert (H : job = (Ok tt, snd job)) by (vm_compute; reflexivity).
    exists (snd job). split; [exact H|].
    destruct (proj2 (job_failure_leaves_disk _ _ _ _ _ _ _ H) eq_refl)
      as (R & Hf & Hfree & _).
    split; [exact Hf|exact Hfree].
Defined.

(** C8, as worded: on a disk with room for five bytes a job returns
    [true] and leaves the first five bytes of a container behind. *)
Lemma partial_output_remains :
  ~ all_or_nothing (Demo.externals O32_LITTLE_ENDIAN) "night.edf"
      Demo.lower_labels false (Demo.disk (Demo.recording 100 100) 5).
Proof.
  unfold all_or_nothing.
  set (w := Demo.disk (Demo.recording 100 100) 5).
  set (job := convertFile (Demo.externals O32_LITTLE_ENDIAN) "night.edf"
                Demo.lower_labels false w).
  assert (Hr : fst job = Ok tt) by (vm_compute; reflexivity).
  assert (Hf : files (snd job) (cfs_name "night.edf")
               = Some [x43; x46; x53; x01; x20])
    by (vm_compute; reflexivity).
  cbv zeta. rewrite Hf.
  intros [H|[H|(n & dg & os & Hl & H)]]; discriminate.
Qed.

(** C6, as the code has it: on a big-endian host a job that returns
    [true] has handed its file nine bytes, the signature, the four
    one-byte fields and the two flags; the epoch count, the digest and
    the stream are missing, so the file differs from every container of
    section 6.1. *)
Theorem big_endian_host_drops_fields E filename channelLabels overwrite w w' :
  LITTLEENDIAN E = false ->
  convertFile E filename channelLabels overwrite w = (Ok tt, w') ->
  files w' (cfs_name filename)
  = Some (fitting (room w (cfs_name filename)) big_endian_image)
  /\ List.length big_endian_image = 9%nat
  /\ forall n digest ostream,
       fitting (room w (cfs_name filename)) big_endian_image
       <> layout_6_1 n digest ostream.
Proof.
  intros HBE H.
  apply convertFile_run in H as (R & Hd & Hw).
  assert (Ho : openable (run_world R) (cfs_name filename) = true).
  { apply write_cfs_cases in Hw as [(_ & [=] & _)|(Ho & _)]. exact Ho. }
  destruct (write_cfs_big_endian E (cfs_name filename) (run_epochs R)
              (digest_buffer (run_digest R)) (run_ostream R) (run_world R)
              HBE Ho) as (w2 & Hw2 & Hh).
  rewrite Hw in Hw2. injection Hw2 as <-.
  split; [|split; [reflexivity|]].
  - now apply (holds_same_disk _ w (run_world R)).
  - intros n digest ostream Heq.
    apply (f_equal (@List.length byte)) in Heq.
    unfold fitting, layout_6_1 in Heq.
    rewrite length_firstn, !length_app in Heq.
    cbn [List.length Num.le_bytes big_endian_image] in Heq. lia.
Qed.

Lemma big_endian_host_drops_fields_witness :
  exists w',
    convertFile (Demo.externals O32_BIG_ENDIAN) "night.edf" Demo.lower_labels
      false (Demo.disk (Demo.recording 100 100) 1000) = (Ok tt, w')
    /\ files w' "night.cfs"%string = Some big_endian_image
    /\ files (snd (convertFile (Demo.externals O32_LITTLE_ENDIAN) "night.edf"
                     Demo.lower_labels false
                     (Demo.disk (Demo.recording 100 100) 1000)))
         "night.cfs"%string
       = Some (layout_6_1 0 (repeat "a"%byte 20) [x78; x9c]).
Proof.
  set (job := convertFile (Demo.externals O32_BIG_ENDIAN) "night.edf"
                Demo.lower_labels false
                (Demo.disk (Demo.recording 100 100) 1000)).
  assert (H : job = (Ok tt, snd job)) by (vm_compute; reflexivity).
  exists (snd job). split; [exact H|]. split; [|vm_compute; reflexivity].
  exact (proj1 (big_endian_host_drops_fields (Demo.externals O32_BIG_ENDIAN)
                  _ _ _ _ _ eq_refl H)).
Defined.

(** C7, as the code has it: the header field is the epoch count modulo
    2^16 and differs from it for every count from 65536 on; 196608000
    resampled EEG samples are 65536 epochs, for which the writer emits
    the field 00 00 in front of a payload of 65536 epochs. *)
Theorem n_epochs_field_wraps :
  (forall epochs, 65536 <= epochs ->
     Num.to_uint16 epochs = epochs mod 65536
     /\ Num.to_uint16 epochs <> epochs)
  /\ epochs_of 196608000 = 65536
  /\ Num.in_int (epochs_of 196608000 * epochSize) = true
  /\ Num.to_uint16 (epochs_of 196608000) = 0
  /\ files
       (snd (write_cfs (Demo.externals O32_LITTLE_ENDIAN) "night.cfs"
               (epochs_of 196608000) (repeat "a"%byte 20) [x78; x9c]
               (Demo.disk (Demo.recording 100 100) 1000)))
       "night.cfs"%string
     = Some (layout_6_1 0 (repeat "a"%byte 20) [x78; x9c])
  /\ firstn 9 (layout_6_1 0 (repeat "a"%byte 20) [x78; x9c])
     = [x43; x46; x53; x01; x20; x20; x03; x00; x00].
Proof.
  split; [|vm_compute; repeat split; reflexivity].
  intros epochs He. unfold Num.to_uint16. split; [reflexivity|].
  pose proof (Z.mod_pos_bound epochs 65536 ltac:(lia)). lia.
Qed.

(** ** Epoch count, payload size and header *)

Lemma length_le_bytes n v : List.length (Num.le_bytes n v) = n.
Proof. revert v. induction n; intros v; simpl; auto. Qed.

Lemma len_payload_bytes E payload :
  len (payload_bytes E payload) = 4 * len payload.
Proof.
  unfold payload_bytes, len.
  induction payload as [|d payload IH]; [reflexivity|].
  cbn [flat_map]. rewrite length_app. cbn [List.length].
  assert (Hb : List.length (host_bytes E 4 (bits_of_b32 (to_float32 d)))
               = 4%nat).
  { unfold host_bytes. destruct (LITTLEENDIAN E);
      rewrite ?length_rev; apply length_le_bytes. }
  lia.
Qed.

Lemma len_scale v m : len (scale v m) = len v.
Proof. apply len_map. Qed.

Lemma vec_add_some x y s :
  vec_add x y = Some s -> len x = len y /\ len s = len x.
Proof.
  unfold vec_add. destruct (len x =? len y) eqn:H; [|discriminate].
  apply Z.eqb_eq in H. intros [= <-]. split; [exact H|].
  unfold len in *. rewrite length_zip_with. lia.
Qed.

(** The length of the resampled EEG. *)
Lemma eeg_length E f m3 m4 ml mr d s r :
  shapes E ->
  filter_and_resample E f m3 m4 ml mr d = Some s ->
  Num.to_int (fC3 f) = Some r -> 0 < r ->
  len (eegFilt s)
  = if r =? SAMPLINGRATE then len (dataC3 d)
    else resample_length SAMPLINGRATE r (len (dataC3 d)).
Proof.
  intros HE H Hr Hpos. unfold filter_and_resample in H.
  apply obind_some in H as (sum & Hsum & H).
  apply obind_some in H as (a & Ha & H).
  apply obind_some in H as (b & Hb & H).
  apply obind_some in H as (c & Hc & [= <-]). cbn [eegFilt].
  apply vec_add_some in Hsum as (_ & Hsum).
  rewrite (conv_same_len E HE), len_scale in Hsum.
  unfold to_100Hz in Ha. rewrite Hr in Ha. cbn [obind] in Ha.
  injection Ha as <-.
  destruct (r =? SAMPLINGRATE).
  - unfold div_scalar. now rewrite len_map.
  - rewrite (resample_len E HE SAMPLINGRATE (fC3 f) r)
      by (try assumption; unfold SAMPLINGRATE; lia).
    unfold div_scalar. now rewrite len_map, Hsum.
Qed.

Lemma spectrogram_no_epoch E a b c :
  len a < 3000 -> spectrogram E a b c = Some (0, []).
Proof.
  intros Ha. unfold spectrogram, epochs_of.
  rewrite Z.div_small by (pose proof (len_nonneg a); lia). reflexivity.
Qed.

(** What a little-endian host leaves at the destination of a run. *)
Lemma little_endian_file E filename channelLabels w w'
    (R : job_run E filename channelLabels w) :
  LITTLEENDIAN E = true -> shapes E ->
  same_disk w (run_world R) ->
  write_cfs E (cfs_name filename) (run_epochs R)
    (digest_buffer (run_digest R)) (run_ostream R) (run_world R)
  = (Ok tt, w') ->
  files w' (cfs_name filename)
  = Some (fitting (room w (cfs_name filename))
            (layout_6_1 (Num.to_uint16 (run_epochs R)) (run_digest R)
               (run_ostream R))).
Proof.
  intros HLE HE Hd Hw.
  assert (Ho : openable (run_world R) (cfs_name filename) = true).
  { apply write_cfs_cases in Hw as [(_ & [=] & _)|(Ho & _)]. exact Ho. }
  destruct (write_cfs_little_endian E (cfs_name filename) (run_epochs R)
              (digest_buffer (run_digest R)) (run_ostream R) (run_world R)
              HLE Ho) as (w2 & Hw2 & Hh).
  rewrite Hw in Hw2. injection Hw2 as <-.
  unfold digest_buffer in Hh.
  rewrite (resize_exact 20 x00 (run_digest R)) in Hh
    by (apply (sha1_len E HE _ _ (run_hashed _ _ _ _ R))).
  rewrite firstn_all2 in Hh
    by (pose proof (sha1_len E HE _ _ (run_hashed _ _ _ _ R)) as Hl;
        unfold len in Hl; lia).
  now apply (holds_same_disk _ w (run_world R)).
Qed.

Lemma scenario_epochs E filename channelLabels w
    (R : job_run E filename channelLabels w) :
  shapes E -> at_200Hz_for_600s (run_hdr R) -> run_epochs R = 20.
Proof.
  intros HE Hsc.
  destruct (resolve_lower_case _ _ _ _ (run_C3 _ _ _ _ R)) as (Hn & _).
  destruct (Hsc _ Hn) as (Hrate & Hcount).
  pose proof (run_read _ _ _ _ R) as Hread.
  apply read_channels_spec in Hread as (_ & _ & Hlen).
  destruct (Hlen _ eq_refl) as (Hl3 & _). rewrite Hcount in Hl3.
  pose proof (eeg_length E _ _ _ _ _ _ _ 200 HE (run_filtered _ _ _ _ R)
                Hrate ltac:(lia)) as Heeg.
  rewrite Hl3 in Heeg.
  pose proof (run_features _ _ _ _ R) as Hsp.
  apply spectrogram_some in Hsp as (-> & _). rewrite Heeg. reflexivity.
Qed.

(** What a big-endian host leaves at the destination of a run. *)
Lemma big_endian_file E filename channelLabels w w'
    (R : job_run E filename channelLabels w) :
  LITTLEENDIAN E = false ->
  same_disk w (run_world R) ->
  write_cfs E (cfs_name filename) (run_epochs R)
    (digest_buffer (run_digest R)) (run_ostream R) (run_world R)
  = (Ok tt, w') ->
  files w' (cfs_name filename)
  = Some (fitting (room w (cfs_name filename)) big_endian_image).
Proof.
  intros HBE Hd Hw. pose proof (run_written E _ _ w w' R Hd Hw) as Hh.
  rewrite HBE in Hh. apply Hh.
Qed.

Lemma big_endian_image_short free :
  (List.length (fitting free big_endian_image) <= 9)%nat
  /\ forall n digest ostream,
       fitting free big_endian_image <> layout_6_1 n digest ostream.
Proof.
  assert (H : (List.length (fitting free big_endian_image) <= 9)%nat).
  { unfold fitting. rewrite length_firstn.
    cbn [List.length big_endian_image]. lia. }
  split; [exact H|]. intros n digest ostream Heq. rewrite Heq in H.
  unfold layout_6_1 in H. rewrite !length_app in H.
  cbn [List.length Num.le_bytes] in H. lia.
Qed.

(** C1, as the code has it: a job that returns [true] has computed the
    31-byte header of section 6.1, "CFS", 1, 32, 32, 3, the epoch count
    as a little-endian 16-bit field, 1, 1 and the 20-byte SHA-1 of the
    uncompressed float payload; for a recording of 600 s with every
    signal at 200 Hz the epoch count is 20 and the header starts
    43 46 53 01 20 20 03 14 00.  On a little-endian host the
    destination holds what the disk took of this header followed by the
    DEFLATE stream.  On a big-endian host the destination holds what
    the disk took of nine bytes: the file has no 31-byte header, the
    epoch count and the digest are missing, and it is no container of
    section 6.1. *)
Theorem cfs_header_layout E filename channelLabels overwrite w w' :
  shapes E ->
  convertFile E filename channelLabels overwrite w = (Ok tt, w') ->
  exists R : job_run E filename channelLabels w,
    let dest := cfs_name filename in
    let header :=
      [x43; x46; x53] ++ [x01] ++ [x20] ++ [x20] ++ [x03]
      ++ Num.le_bytes 2 (Num.to_uint16 (run_epochs R))
      ++ [x01] ++ [x01] ++ run_digest R in
    List.length header = 31%nat
    /\ header ++ run_ostream R
       = layout_6_1 (Num.to_uint16 (run_epochs R)) (run_digest R)
           (run_ostream R)
    /\ sha1 E (run_bytes R) = Some (run_digest R)
    /\ (at_200Hz_for_600s (run_hdr R) ->
        run_epochs R = 20
        /\ firstn 9 header = [x43; x46; x53; x01; x20; x20; x03; x14; x00])
    /\ (LITTLEENDIAN E = true ->
        files w' dest
        = Some (fitting (room w dest) (header ++ run_ostream R)))
    /\ (LITTLEENDIAN E = false ->
        files w' dest = Some (fitting (room w dest) big_endian_image)
        /\ (List.length (fitting (room w dest) big_endian_image) <= 9)%nat
        /\ forall n digest ostream,
             fitting (room w dest) big_endian_image
             <> layout_6_1 n digest ostream).
Proof.
  intros HE H.
  apply convertFile_run in H as (R & Hd & Hw).
  exists R. cbv zeta.
  pose proof (sha1_len E HE _ _ (run_hashed _ _ _ _ R)) as Hl.
  assert (Hlay : ([x43; x46; x53] ++ [x01] ++ [x20] ++ [x20] ++ [x03]
                  ++ Num.le_bytes 2 (Num.to_uint16 (run_epochs R))
                  ++ [x01] ++ [x01] ++ run_digest R) ++ run_ostream R
                 = layout_6_1 (Num.to_uint16 (run_epochs R)) (run_digest R)
                     (run_ostream R)).
  { unfold layout_6_1. cbn [app Num.le_bytes]. reflexivity. }
  split; [|split; [exact Hlay|split; [|split; [|split]]]].
  - cbn [app Num.le_bytes List.length]. unfold len in Hl. lia.
  - apply (run_hashed _ _ _ _ R).
  - intros Hsc. pose proof (scenario_epochs E _ _ _ R HE Hsc) as He.
    split; [exact He|]. rewrite He. reflexivity.
  - intros HLE. rewrite Hlay. now apply little_endian_file.
  - intros HBE. split; [now apply (big_endian_file E _ _ w w' R)|].
    apply big_endian_image_short.
Qed.

Lemma cfs_header_layout_witness :
  (exists w',
     convertFile (Demo.externals O32_LITTLE_ENDIAN) "night.edf"
       Demo.lower_labels false (Demo.disk (Demo.recording 100 100) 1000)
     = (Ok tt, w')
     /\ exists n_epochs digest ostream,
          files w' "night.cfs"%string
          = Some (fitting 1000 (layout_6_1 n_epochs digest ostream)))
  /\ exists w',
       convertFile (Demo.externals O32_BIG_ENDIAN) "night.edf"
         Demo.lower_labels false (Demo.disk (Demo.recording 100 100) 1000)
       = (Ok tt, w')
       /\ files w' "night.cfs"%string
          = Some [x43; x46; x53; x01; x20; x20; x03; x01; x01].
Proof.
  set (w := Demo.disk (Demo.recording 100 100) 1000).
  split.
  - set (D := Demo.externals O32_LITTLE_ENDIAN).
    set (job := convertFile D "night.edf" Demo.lower_labels false w).
    assert (H : job = (Ok tt, snd job)) by (vm_compute; reflexivity).
    exists (snd job). split; [exact H|].
    destruct (cfs_header_layout D _ _ _ _ _
                (Demo_shapes O32_LITTLE_ENDIAN) H)
      as (R & _ & Hlay & _ & _ & Hfile & _).
    cbv zeta in Hfile, Hlay. rewrite Hlay in Hfile.
    exists (Num.to_uint16 (run_epochs R)), (run_digest R), (run_ostream R).
    exact (Hfile eq_refl).
  - set (D := Demo.externals O32_BIG_ENDIAN).
    set (job := convertFile D "night.edf" Demo.lower_labels false w).
    assert (H : job = (Ok tt, snd job)) by (vm_compute; reflexivity).
    exists (snd job). split; [exact H|].
    destruct (cfs_header_layout D _ _ _ _ _
                (Demo_shapes O32_BIG_ENDIAN) H)
      as (R & _ & _ & _ & _ & _ & Hfile).
    exact (proj1 (Hfile eq_refl)).
Defined.

(** C2, as the code has it: the epoch count [E] of a job is the integer
    quotient of the length [L] of its resampled EEG by 3000, the
    samples from [E * 3000] on are not used, and the uncompressed float
    payload, whose digest and DEFLATE stream go into the container, has
    [E * 3 * 32 * 32 * 4] bytes.  The count a little-endian host writes
    is the 16-bit field [E mod 2^16]: the destination holds what the
    disk took of the container with that field, and the field is [E]
    exactly when [E] is below 2^16.  With fewer than 3000 samples the
    payload is empty and the container carries the count 0.  A
    big-endian host writes no count at all. *)
Theorem epoch_count_and_payload_size E filename channelLabels overwrite w w' :
  convertFile E filename channelLabels overwrite w = (Ok tt, w') ->
  (exists R : job_run E filename channelLabels w,
     let L := len (run_eeg R) in
     let dest := cfs_name filename in
     let written := Num.to_uint16 (L / 3000) in
     let container n_epochs :=
       layout_6_1 n_epochs (digest_buffer (run_digest R)) (run_ostream R) in
     run_epochs R = L / 3000
     /\ run_epochs R * 3000 <= L < (run_epochs R + 1) * 3000
     /\ len (run_payload R) = run_epochs R * 3 * 32 * 32
     /\ len (run_bytes R) = run_epochs R * 3 * 32 * 32 * 4
     /\ sha1 E (run_bytes R) = Some (run_digest R)
     /\ compress E (run_bytes R) (compressBound E (len (run_bytes R)))
        = Z_OK (run_ostream R)
     /\ written = (L / 3000) mod 65536
     /\ (written = L / 3000 <-> L / 3000 < 65536)
     /\ (LITTLEENDIAN E = true ->
         files w' dest = Some (fitting (room w dest) (container written)))
     /\ (LITTLEENDIAN E = false ->
         files w' dest = Some (fitting (room w dest) big_endian_image))
     /\ (L < 3000 ->
         run_epochs R = 0 /\ run_bytes R = [] /\ written = 0))
  /\ (forall a b c, len a < 3000 -> spectrogram E a b c = Some (0, [])).
Proof.
  intros H. split; [|intros a b c; apply spectrogram_no_epoch].
  apply convertFile_run in H as (R & Hd & Hw).
  exists R. cbv zeta.
  pose proof (run_features _ _ _ _ R) as Hsp.
  pose proof (spectrogram_some _ _ _ _ _ _ Hsp) as (He & Hint & Hfold).
  fold (run_eeg R) in He. unfold epochs_of in He.
  pose proof (epochs_of_bounds _ (len_nonneg (run_eeg R))) as (He0 & Hb).
  unfold epochs_of in He0, Hb. rewrite <- He in He0, Hb.
  assert (Hlen : len (run_payload R) = run_epochs R * 3 * 32 * 32).
  { pose proof (outer_loop_spec_len E _ _ _ _ _ _ Hfold) as Hl.
    rewrite Hl, len_zeros. unfold epochSize. lia. }
  pose proof (run_written E _ _ w w' R Hd Hw) as (Hfile & _).
  rewrite He in Hfile.
  split; [exact He|]. split; [exact Hb|]. split; [exact Hlen|]. split.
  { unfold run_bytes. rewrite len_payload_bytes. lia. }
  split; [apply (run_hashed _ _ _ _ R)|].
  split; [apply (run_deflated _ _ _ _ R)|].
  split; [reflexivity|]. split.
  { unfold Num.to_uint16. rewrite <- He.
    pose proof (Z.mod_pos_bound (run_epochs R) 65536 ltac:(lia)).
    split; [lia|]. intros Hlt. apply Z.mod_small. lia. }
  split.
  { intros HLE. rewrite HLE in Hfile. exact Hfile. }
  split.
  { intros HBE. rewrite HBE in Hfile. exact Hfile. }
  intros HL.
  assert (H0 : run_epochs R = 0) by lia.
  split; [exact H0|]. split.
  - unfold run_bytes.
    destruct (run_payload R) as [|x p]; [reflexivity|].
    rewrite H0 in Hlen. unfold len in Hlen. simpl in Hlen. lia.
  - rewrite <- He, H0. reflexivity.
Qed.

Lemma epoch_count_and_payload_size_witness :
  exists w' (R : job_run (Demo.externals O32_LITTLE_ENDIAN) "night.edf"
                   Demo.lower_labels
                   (Demo.disk (Demo.recording 200 6500) 9)),
    convertFile (Demo.externals O32_LITTLE_ENDIAN) "night.edf"
      Demo.lower_labels false (Demo.disk (Demo.recording 200 6500) 9)
    = (Ok tt, w')
    /\ run_epochs R = len (run_eeg R) / 3000
    /\ len (run_bytes R) = run_epochs R * 3 * 32 * 32 * 4
    /\ files w' "night.cfs"%string
       = Some ([x43; x46; x53; x01; x20; x20; x03]
               ++ Num.le_bytes 2 (Num.to_uint16 (len (run_eeg R) / 3000))).
Proof.
  set (D := Demo.externals O32_LITTLE_ENDIAN).
  set (w := Demo.disk (Demo.recording 200 6500) 9).
  set (job := convertFile D "night.edf" Demo.lower_labels false w).
  assert (H : job = (Ok tt, snd job)) by (vm_compute; reflexivity).
  destruct (proj1 (epoch_count_and_payload_size D _ _ _ _ _ H))
    as (R & He & _ & _ & Hb & _ & _ & _ & _ & Hfile & _).
  exists (snd job), R.
  split; [exact H|]. split; [exact He|]. split; [exact Hb|].
  exact (Hfile eq_refl).
Defined.

(** ** The model on concrete recordings *)

(** The quotient [epochs_of] takes is what the double division of the
    source, truncated, yields. *)
Example epochs_of_as_computed :
  map (fun n => Num.to_int (Num.of_Z n / 3000))
    [0; 2999; 3000; 5999; 6000; 60000; 196607999; 196608000; 2097151999]
  = map (fun n => Some (epochs_of n))
      [0; 2999; 3000; 5999; 6000; 60000; 196607999; 196608000; 2097151999].
Proof. vm_compute. reflexivity. Qed.

(** The rate of a signal with 200 samples in records of 1 s, as the
    source computes it. *)
Example rate_of_200_per_second :
  sample_rate (Demo.header 200 120000) 0 = 200.00000000000003%float
  /\ Num.to_int (sample_rate (Demo.header 200 120000) 0) = Some 200.
Proof. vm_compute. split; reflexivity. Qed.

Lemma Demo_at_200Hz : at_200Hz_for_600s (Demo.header 200 120000).
Proof.
  intros n Hn. change (edfsignals (Demo.header 200 120000)) with 4 in Hn.
  assert (Hc : n = 0 \/ n = 1 \/ n = 2 \/ n = 3) by lia.
  destruct Hc as [-> | [-> | [-> | ->]]];
    (split; [vm_compute; reflexivity|reflexivity]).
Qed.

(** Scenario 1 of the specification at a tenth of its length: four
    channels at 200 Hz, 60 s, two epochs. *)
Example scenario_one_shortened :
  let job := convertFile (Demo.externals O32_LITTLE_ENDIAN) "night.edf"
               Demo.lower_labels false
               (Demo.disk (Demo.recording 200 12000) 1000000) in
  fst job = Ok tt
  /\ option_map (firstn 9) (files (snd job) "night.cfs"%string)
     = Some [x43; x46; x53; x01; x20; x20; x03; x02; x00].
Proof. vm_compute. split; reflexivity. Qed.

(** Scenario 3: a label that is missing. *)
Example scenario_three_missing_label :
  let job := convertFile (Demo.externals O32_LITTLE_ENDIAN) "night.edf"
               ["c3a2"; "c4-a1"; "ela2"; "era1"]%string false
               (Demo.disk (Demo.recording 200 12000) 1000000) in
  fst job = Failed (LabelNotFound C4)
  /\ files (snd job) "night.cfs"%string = None.
Proof. vm_compute. split; reflexivity. Qed.

(** Scenario 6: C3 at 256 Hz and C4 at 200 Hz. *)
Example scenario_six_rate_mismatch :
  fst (convertFile (Demo.externals O32_LITTLE_ENDIAN) "night.edf"
         Demo.lower_labels false
         (Demo.disk (EdfOpened (Demo.header4 256 200 200 200 12000)
                       (fun _ => Some (Demo.ones 12000))) 1000000))
  = Failed ChannelRateMismatch.
Proof. vm_compute. reflexivity. Qed.

(** * Further properties of the code *)

(** ** File names *)

Lemma find_last_of_dot_none b :
  ~ In "."%char (chars b) ->
  forall i last, Str.find_last_of_dot b i last = last.
Proof.
  induction b as [|c b IH]; intros Hb i last; [reflexivity|].
  cbn [Str.find_last_of_dot chars In] in *.
  destruct (Ascii.eqb_spec c "."%char) as [->|_]; [tauto|].
  apply IH. tauto.
Qed.

Lemma find_last_of_dot_app a b :
  ~ In "."%char (chars b) ->
  forall i last,
    Str.find_last_of_dot (a ++ String "." b) i last
    = Some (i + String.length a)%nat.
Proof.
  intros Hb. induction a as [|c a IH]; intros i last.
  - cbn [String.append Str.find_last_of_dot String.length].
    rewrite Ascii.eqb_refl, find_last_of_dot_none by exact Hb.
    f_equal. lia.
  - cbn [String.append Str.find_last_of_dot String.length].
    rewrite IH. f_equal. lia.
Qed.

Lemma substring_prefix a b :
  String.substring 0 (String.length a) (a ++ b) = a.
Proof.
  induction a as [|c a IH]; cbn [String.append String.length].
  - destruct b; reflexivity.
  - cbn [String.substring]. now rewrite IH.
Qed.

(** X1: [removeExtension] cuts the name at its last dot, whatever
    stands before it, and keeps a name without a dot; so the
    destination of [base.ext] is [base.cfs] and the destination of a
    name without a dot is the name followed by [.cfs]. *)
Theorem removeExtension_last_dot base ext :
  ~ In "."%char (chars ext) ->
  Str.removeExtension (base ++ String "." ext) = base
  /\ Str.removeExtension ext = ext
  /\ cfs_name (base ++ String "." ext) = (base ++ ".cfs")%string
  /\ cfs_name ext = (ext ++ ".cfs")%string.
Proof.
  intros Hext.
  assert (H1 : Str.removeExtension (base ++ String "." ext) = base).
  { unfold Str.removeExtension. rewrite find_last_of_dot_app by exact Hext.
    apply substring_prefix. }
  assert (H2 : Str.removeExtension ext = ext).
  { unfold Str.removeExtension. now rewrite find_last_of_dot_none. }
  unfold cfs_name. now rewrite H1, H2.
Qed.

Lemma removeExtension_last_dot_witness :
  ~ In "."%char (chars "edf")
  /\ cfs_name "rec.2017/night.v2.edf" = "rec.2017/night.v2.cfs"%string.
Proof.
  assert (H : ~ In "."%char (chars "edf"))
    by (intros H; cbn in H; destruct H as [H|[H|[H|[]]]]; discriminate).
  split; [exact H|].
  exact (proj1 (proj2 (proj2
           (removeExtension_last_dot "rec.2017/night.v2" "edf" H)))).
Defined.

(** ** Letter case *)

Lemma tolower_not_upper c : is_upper (Str.tolower c) = false.
Proof.
  destruct c as [[|] [|] [|] [|] [|] [|] [|] [|]]; reflexivity.
Qed.

Lemma tolower_fixes c : is_upper c = false -> Str.tolower c = c.
Proof.
  destruct c as [[|] [|] [|] [|] [|] [|] [|] [|]];
    intros H; try reflexivity; discriminate.
Qed.

Lemma tolower_moves c : is_upper c = true -> Str.tolower c <> c.
Proof.
  destruct c as [[|] [|] [|] [|] [|] [|] [|] [|]];
    intros H; try discriminate H; intros Heq; discriminate Heq.
Qed.

(** X2: [strlwr] keeps the length of a string, leaves no letter
    'A'..'Z' in it, and returns the string itself exactly when the
    string had none. *)
Theorem strlwr_lower_case s :
  String.length (Str.strlwr s) = String.length s
  /\ (forall c, In c (chars (Str.strlwr s)) -> is_upper c = false)
  /\ (Str.strlwr s = s <-> forall c, In c (chars s) -> is_upper c = false).
Proof.
  induction s as [|a s (IHl & IHu & IHf)].
  - split; [reflexivity|]. split; [intros c []|].
    split; [intros _ c []|reflexivity].
  - cbn [Str.strlwr String.length chars In]. split; [now rewrite IHl|].
    split.
    + intros c [<-|Hc]; [apply tolower_not_upper|now apply IHu].
    + split.
      * intros [= Ha Hs] c [<-|Hc].
        -- destruct (is_upper a) eqn:Hu; [|reflexivity].
           now apply tolower_moves in Hu.
        -- now apply IHf.
      * intros H. f_equal.
        -- apply tolower_fixes. apply H. now left.
        -- apply IHf. intros c Hc. apply H. now right.
Qed.

(** ** Looking a label up *)

Lemma find_index_bounds l x i n : find_index l x i = Some n -> i <= n.
Proof.
  revert i. induction l as [|y l IH]; intros i; cbn [find_index];
    [discriminate|].
  destruct (String.eqb y x); [intros [= ->]; lia|].
  intros H. apply IH in H. lia.
Qed.

(** [std::find] finds an element that is there, at or before any
    place it stands at. *)
Lemma find_index_finds l x :
  forall i k,
    (k < List.length l)%nat -> nth k l ""%string = x ->
    exists n, find_index l x i = Some n /\ i <= n <= i + Z.of_nat k.
Proof.
  induction l as [|y l IH]; intros i k Hk Hx; [simpl in Hk; lia|].
  cbn [find_index]. destruct (String.eqb_spec y x) as [->|Hne].
  - exists i. split; [reflexivity|lia].
  - destruct k as [|k]; [simpl in Hx; contradiction|].
    destruct (IH (i + 1) k) as (n & Hn & Hr);
      [simpl in Hk; lia|exact Hx|].
    exists n. split; [exact Hn|lia].
Qed.

Lemma nth_allLabels hdr k :
  0 <= k < edfsignals hdr ->
  nth (Z.to_nat k) (allLabels hdr) ""%string
  = Str.strlwr (label (param hdr k)).
Proof.
  unfold edfsignals, allLabels, param. intros Hk.
  rewrite (nth_indep _ ""%string (Str.strlwr (label param0)))
    by (rewrite length_map; lia).
  apply (map_nth (fun p => Str.strlwr (label p))).
Qed.

(** A signal whose lower-cased label is the request makes the
    look-up succeed, at that signal or an earlier one that matches
    too. *)
Lemma resolve_of_match hdr channelLabels r k :
  0 <= k < edfsignals hdr ->
  Str.strlwr (label (param hdr k))
  = nth (role_index r) channelLabels ""%string ->
  exists n,
    resolve hdr channelLabels r = Some n /\ 0 <= n <= k
    /\ Str.strlwr (label (param hdr n))
       = nth (role_index r) channelLabels ""%string.
Proof.
  intros Hk Hm. unfold resolve.
  destruct (find_index_finds (allLabels hdr)
              (nth (role_index r) channelLabels ""%string) 0 (Z.to_nat k))
    as (n & Hn & Hr).
  - unfold allLabels, edfsignals in *. rewrite length_map. lia.
  - rewrite nth_allLabels by exact Hk. exact Hm.
  - exists n. split; [exact Hn|]. split; [lia|].
    fold (resolve hdr channelLabels r) in Hn.
    now apply resolve_lower_case in Hn.
Qed.

(** X3: the look-up of a role's label returns the first signal whose
    lower-cased label equals the label as requested, and fails exactly
    when there is none. *)
Theorem resolve_first_match hdr channelLabels r :
  let req := nth (role_index r) channelLabels ""%string in
  (resolve hdr channelLabels r = None <->
   forall k, 0 <= k < edfsignals hdr ->
             Str.strlwr (label (param hdr k)) <> req)
  /\ forall n,
       resolve hdr channelLabels r = Some n <->
       (0 <= n < edfsignals hdr
        /\ Str.strlwr (label (param hdr n)) = req
        /\ forall k, 0 <= k < n ->
                     Str.strlwr (label (param hdr k)) <> req).
Proof.
  intros req. split.
  - split.
    + intros Hnone k Hk Hm.
      destruct (resolve_of_match hdr channelLabels r k Hk Hm) as (n & Hn & _).
      rewrite Hnone in Hn. discriminate.
    + intros Hno. destruct (resolve hdr channelLabels r) as [n|] eqn:H;
        [|reflexivity].
      apply resolve_lower_case in H as (Hr & Hm & _).
      now elim (Hno n Hr).
  - intros n. split; [apply resolve_lower_case|].
    intros (Hr & Hm & Hmin).
    destruct (resolve_of_match hdr channelLabels r n Hr Hm)
      as (m & Hres & Hle & Hmm).
    rewrite Hres. f_equal.
    destruct (Z.eq_dec m n) as [|Hne]; [assumption|].
    elim (Hmin m); [lia|exact Hmm].
Qed.

(** ** Channel selection at the prompt *)

(** X5: [showHeader] goes on exactly for channel numbers from 1 to the
    number of signals plus one; for numbers up to the number of signals
    it returns the lower-cased labels of the chosen signals, and each of
    them is then found by the look-up of a job on the same header, at
    the chosen signal or at an earlier one with the same lower-cased
    label. *)
Theorem showHeader_labels_resolve hdr channelLabels n3 n4 nl nr :
  List.length channelLabels = 4%nat ->
  let N := edfsignals hdr in
  let chosen r := match r with C3 => n3 | C4 => n4 | EL => nl | ER => nr end in
  (showHeader hdr channelLabels n3 n4 nl nr <> None <->
   forall r, 1 <= chosen r <= N + 1)
  /\ ((forall r, 1 <= chosen r <= N) ->
      exists labels,
        showHeader hdr channelLabels n3 n4 nl nr = Some labels
        /\ (forall r, nth (role_index r) labels ""%string
                      = Str.strlwr (label (param hdr (chosen r - 1))))
        /\ forall r, exists n,
             resolve hdr labels r = Some n /\ 0 <= n <= chosen r - 1
             /\ Str.strlwr (label (param hdr n))
                = Str.strlwr (label (param hdr (chosen r - 1)))).
Proof.
  intros Hlen N chosen.
  assert (Hshape : exists a b c d, channelLabels = [a; b; c; d]).
  { destruct channelLabels as [|a [|b [|c [|d [|e l]]]]]; try discriminate.
    eauto. }
  destruct Hshape as (a & b & c & d & ->).
  split.
  - unfold showHeader. fold N.
    destruct ((n3 - 1 >? N) || (n4 - 1 >? N) || (nl - 1 >? N) || (nr - 1 >? N)
              || (n3 - 1 <? 0) || (n4 - 1 <? 0) || (nl - 1 <? 0)
              || (nr - 1 <? 0)) eqn:Hc.
    + split; [intros H; now elim H|]. intros H.
      pose proof (H C3). pose proof (H C4). pose proof (H EL). pose proof (H ER).
      cbn in *. repeat (apply orb_prop in Hc; destruct Hc as [Hc|Hc]); lia.
    + split; [|discriminate]. intros _.
      repeat (apply orb_false_elim in Hc; destruct Hc as [Hc ?]).
      intros []; cbn; lia.
  - intros Hin.
    pose proof (Hin C3) as H3. pose proof (Hin C4) as H4.
    pose proof (Hin EL) as Hl. pose proof (Hin ER) as Hr. cbn in H3, H4, Hl, Hr.
    unfold showHeader. fold N.
    replace ((n3 - 1 >? N) || (n4 - 1 >? N) || (nl - 1 >? N) || (nr - 1 >? N)
             || (n3 - 1 <? 0) || (n4 - 1 <? 0) || (nl - 1 <? 0)
             || (nr - 1 <? 0)) with false
      by (symmetry; repeat (apply orb_false_intro); lia).
    set (labels :=
           set_at (set_at (set_at (set_at [a; b; c; d] 0
             (Str.strlwr (label (param hdr (n3 - 1))))) 1
             (Str.strlwr (label (param hdr (n4 - 1))))) 2
             (Str.strlwr (label (param hdr (nl - 1))))) 3
             (Str.strlwr (label (param hdr (nr - 1))))).
    exists labels. split; [reflexivity|].
    assert (Hnth : forall r,
              nth (role_index r) labels ""%string
              = Str.strlwr (label (param hdr (chosen r - 1))))
      by (intros []; reflexivity).
    split; [exact Hnth|].
    intros r.
    destruct (resolve_of_match hdr labels r (chosen r - 1))
      as (n & Hn & Hle & Hm).
    + specialize (Hin r). fold N. lia.
    + now rewrite Hnth.
    + exists n. rewrite Hnth in Hm. auto.
Qed.

Lemma showHeader_labels_resolve_witness :
  List.length Demo.usage_labels = 4%nat
  /\ exists labels,
       showHeader (Demo.header 200 12000) Demo.usage_labels 1 2 3 4
       = Some labels
       /\ resolve (Demo.header 200 12000) labels ER = Some 3.
Proof.
  split; [reflexivity|].
  destruct (proj2 (showHeader_labels_resolve (Demo.header 200 12000)
                     Demo.usage_labels 1 2 3 4 eq_refl))
    as (labels & Hs & _).
  - intros []; vm_compute; split; discriminate.
  - exists labels. split; [exact Hs|].
    vm_compute in Hs. injection Hs as <-. reflexivity.
Defined.

(** ** Units *)

Lemma compare_prefix_iff lit :
  forall units,
    Str.compare_prefix units (String.length lit) lit = true
    <-> exists rest, units = (lit ++ rest)%string.
Proof.
  unfold Str.compare_prefix.
  induction lit as [|c lit IH]; intros units.
  - cbn [String.length Nat.min String.append].
    replace (String.substring 0 0 units) with ""%string
      by (destruct units; reflexivity).
    split; [eauto|reflexivity].
  - destruct units as [|d u].
    + cbn. split; [discriminate|]. intros (rest & [=]).
    + cbn [String.length Nat.min String.substring String.eqb String.append].
      destruct (Ascii.eqb_spec d c) as [->|Hne].
      * rewrite IH. split; intros (rest & H); exists rest;
          [now rewrite H|now injection H].
      * split; [discriminate|]. intros (rest & [= H _]). now elim Hne.
Qed.

(** X4: [findMultiplier] tests prefixes: a unit that starts with nV,
    uV, mV or V gets the factor 0.001, 1, 1000 or 1000000, whatever
    follows, and the factor is negative exactly for the units that
    start with none of the four. *)
Theorem findMultiplier_prefixes units :
  let starts lit := exists rest, units = (lit ++ rest)%string in
  (starts "nV"%string -> findMultiplier units = 0.001%float)
  /\ (starts "uV"%string -> findMultiplier units = 1%float)
  /\ (starts "mV"%string -> findMultiplier units = 1000%float)
  /\ (starts "V"%string -> findMultiplier units = 1000000%float)
  /\ ((findMultiplier units <? 0)%float = true <->
      ~ (starts "nV"%string \/ starts "uV"%string \/ starts "mV"%string
         \/ starts "V"%string)).
Proof.
  intros starts.
  pose proof (compare_prefix_iff "nV" units) as Hn.
  pose proof (compare_prefix_iff "uV" units) as Hu.
  pose proof (compare_prefix_iff "mV" units) as Hm.
  pose proof (compare_prefix_iff "V" units) as Hv.
  cbn [String.length] in Hn, Hu, Hm, Hv.
  fold (starts "nV"%string) in Hn. fold (starts "uV"%string) in Hu.
  fold (starts "mV"%string) in Hm. fold (starts "V"%string) in Hv.
  assert (Hex : forall a b, a <> b ->
            starts (String a "V") -> starts (String b "V") -> False).
  { intros a b Hab (r1 & H1) (r2 & H2). rewrite H1 in H2.
    injection H2 as H2 _. now elim Hab. }
  assert (HexV : forall a, a <> "V"%char ->
            starts (String a "V") -> starts "V"%string -> False).
  { intros a Ha (r1 & H1) (r2 & H2). rewrite H1 in H2.
    injection H2 as H2 _. now elim Ha. }
  assert (Hpos : forall v : float,
            (v <? 0)%float = false ->
            (starts "nV"%string \/ starts "uV"%string \/ starts "mV"%string
             \/ starts "V"%string) ->
            ((v <? 0)%float = true <->
             ~ (starts "nV"%string \/ starts "uV"%string
                \/ starts "mV"%string \/ starts "V"%string))).
  { intros v Hv0 Hs. rewrite Hv0. split; [discriminate|tauto]. }
  unfold findMultiplier.
  destruct (Str.compare_prefix units 2 "nV").
  { assert (Sn : starts "nV"%string) by (now apply Hn).
    split; [reflexivity|].
    split; [intros H; elim (Hex "u"%char "n"%char ltac:(discriminate) H Sn)|].
    split; [intros H; elim (Hex "m"%char "n"%char ltac:(discriminate) H Sn)|].
    split; [intros H; elim (HexV "n"%char ltac:(discriminate) Sn H)|].
    apply Hpos; [reflexivity|tauto]. }
  assert (Nn : ~ starts "nV"%string) by (intros H; apply Hn in H; discriminate).
  destruct (Str.compare_prefix units 2 "uV").
  { assert (Su : starts "uV"%string) by (now apply Hu).
    split; [tauto|]. split; [reflexivity|].
    split; [intros H; elim (Hex "m"%char "u"%char ltac:(discriminate) H Su)|].
    split; [intros H; elim (HexV "u"%char ltac:(discriminate) Su H)|].
    apply Hpos; [reflexivity|tauto]. }
  assert (Nu : ~ starts "uV"%string) by (intros H; apply Hu in H; discriminate).
  destruct (Str.compare_prefix units 2 "mV").
  { assert (Sm : starts "mV"%string) by (now apply Hm).
    split; [tauto|]. split; [tauto|]. split; [reflexivity|].
    split; [intros H; elim (HexV "m"%char ltac:(discriminate) Sm H)|].
    apply Hpos; [reflexivity|tauto]. }
  assert (Nm : ~ starts "mV"%string) by (intros H; apply Hm in H; discriminate).
  destruct (Str.compare_prefix units 1 "V").
  { assert (Sv : starts "V"%string) by (now apply Hv).
    split; [tauto|]. split; [tauto|]. split; [tauto|].
    split; [reflexivity|]. apply Hpos; [reflexivity|tauto]. }
  assert (Nv : ~ starts "V"%string) by (intros H; apply Hv in H; discriminate).
  split; [tauto|]. split; [tauto|]. split; [tauto|]. split; [tauto|].
  split; [tauto|reflexivity].
Qed.

(** ** Failures of a job *)

(** X6: with overwriting off, a job whose destination exists reports
    [AlreadyConverted] and leaves the world as it is; the recording is
    not even opened. *)
Theorem existing_output_is_kept E filename channelLabels w content :
  files w (cfs_name filename) = Some content ->
  convertFile E filename channelLabels false w = (Failed AlreadyConverted, w).
Proof.
  intros H. unfold convertFile, prepare, bind, exists_. rewrite H.
  reflexivity.
Qed.

Lemma existing_output_is_kept_witness :
  let w := set_file (Demo.disk (EdfOpenError (-2)) 1000) "night.cfs" [x00] 999
  in
  files w (cfs_name "night.edf") = Some [x00]
  /\ convertFile (Demo.externals O32_LITTLE_ENDIAN) "night.edf"
       Demo.lower_labels false w = (Failed AlreadyConverted, w).
Proof.
  intros w.
  assert (H : files w (cfs_name "night.edf") = Some [x00]) by reflexivity.
  split; [exact H|].
  exact (existing_output_is_kept _ _ _ _ _ H).
Defined.

Lemma convertFile_leaves_file E filename channelLabels overwrite w w' :
  convertFile E filename channelLabels overwrite w = (Ok tt, w') ->
  exists content, files w' (cfs_name filename) = Some content.
Proof.
  intros H.
  apply convertFile_inv in H as [(f & _ & [=])|(e & dg & o & w1 & _ & Hw)].
  apply write_cfs_cases in Hw as [(_ & [=] & _)|(_ & _ & image & Hh)].
  eexists. apply Hh.
Qed.

(** X7: after a job that returned [true], a job on the same file, or
    on any file with the same destination (a name that differs from it
    only after the last dot), is refused with [AlreadyConverted] as
    long as overwriting is off, whatever labels it is given, and the
    container is left as the first job wrote it. *)
Theorem second_run_is_refused E filename channelLabels overwrite w w'
    filename' channelLabels' :
  convertFile E filename channelLabels overwrite w = (Ok tt, w') ->
  cfs_name filename' = cfs_name filename ->
  convertFile E filename' channelLabels' false w'
  = (Failed AlreadyConverted, w').
Proof.
  intros H Hname. apply convertFile_leaves_file in H as (content & H).
  unfold convertFile, prepare, bind, exists_. rewrite Hname, H. reflexivity.
Qed.

Lemma second_run_is_refused_witness :
  exists w',
    convertFile (Demo.externals O32_LITTLE_ENDIAN) "night.edf"
      Demo.lower_labels false (Demo.disk (Demo.recording 100 100) 1000)
    = (Ok tt, w')
    /\ convertFile (Demo.externals O32_LITTLE_ENDIAN) "night.rec"
         Demo.usage_labels false w' = (Failed AlreadyConverted, w').
Proof.
  set (job := convertFile (Demo.externals O32_LITTLE_ENDIAN) "night.edf"
                Demo.lower_labels false
                (Demo.disk (Demo.recording 100 100) 1000)).
  assert (H : job = (Ok tt, snd job)) by (vm_compute; reflexivity).
  assert (Hname : cfs_name "night.rec" = cfs_name "night.edf") by reflexivity.
  exists (snd job). split; [exact H|].
  exact (second_run_is_refused _ _ _ _ _ _ _ Demo.usage_labels H Hname).
Defined.

Lemma guard_failed b f w f' w' :
  guard b f w = (Failed f', w') -> f' = f /\ w' = w.
Proof. destruct b; cbv; intros [=]; auto. Qed.

Lemma lift_failed {A} (o : option A) w f w' :
  lift o w = (Failed f, w') -> f = Aborted /\ w' = w.
Proof. destruct o; cbv; intros [=]; auto. Qed.

Lemma find_channel_failed hdr channelLabels r w f w' :
  find_channel hdr channelLabels r w = (Failed f, w') ->
  f = LabelNotFound r /\ w' = w.
Proof.
  unfold find_channel. destruct (resolve hdr channelLabels r);
    cbv [ret fail]; intros [=]; auto.
Qed.

Lemma edfopen_failed filename w f w' :
  edfopen_file_readonly filename w = (Failed f, w') ->
  (exists filetype, f = EdfOpenFailure filetype) /\ w' = w.
Proof.
  unfold edfopen_file_readonly. destruct (edf_files w filename);
    intros [=]; subst; eauto.
Qed.

Lemma package_failed E istream w f w' :
  package E istream w = (Failed f, w') ->
  (f = IntegrityFailure \/ f = BufferTooSmall \/ f = OutOfMemory) /\ w' = w.
Proof.
  unfold package. destruct (sha1 E istream); [|cbv [fail]; intros [=]; auto].
  destruct (compress E istream _); cbv [ret fail]; intros [=]; auto.
Qed.

Lemma read_channel_cases physical r signal tot buf0 w res w' :
  read_channel physical r signal tot buf0 w = (res, w') ->
  (physical signal = None /\ res = Failed (ReadFailure r))
  \/ (physical signal <> None /\ exists buf, res = Ok buf).
Proof.
  unfold read_channel, bind, log, edfread_physical_samples.
  destruct (physical signal) as [data|].
  - replace (len (firstn (Z.to_nat tot) data) =? -1) with false
      by (symmetry; apply Z.eqb_neq;
          pose proof (len_nonneg (firstn (Z.to_nat tot) data)); lia).
    cbv [negb guard ret]. intros [= <- _]. right. split; [discriminate|eauto].
  - cbv [Z.eqb negb guard fail]. intros [= <- _]. now left.
Qed.

Lemma read_channel_step physical r signal tot w res w' :
  read_channel physical r signal tot (zeros tot) w = (res, w') ->
  trace w' = trace w ++ [Read r signal tot]
  /\ ((physical signal = None /\ res = Failed (ReadFailure r))
      \/ (physical signal <> None /\ exists buf, res = Ok buf)).
Proof.
  intros H. split.
  - now apply read_channel_spec in H.
  - eapply read_channel_cases, H.
Qed.

(** The reader stage fails at the first channel edflib cannot read: the
    channels before it were read, and the calls made are those up to and
    including the failing one. *)
Lemma read_channels_failed hdr physical nC3 nC4 nEL nER w f w' :
  read_channels hdr physical nC3 nC4 nEL nER w = (Failed f, w') ->
  let signal r := match r with C3 => nC3 | C4 => nC4 | EL => nEL | ER => nER end
  in
  (f = Aborted /\ w' = w)
  \/ exists r,
    f = ReadFailure r
    /\ physical (signal r) = None
    /\ (forall r', (role_index r' < role_index r)%nat ->
                   physical (signal r') <> None)
    /\ trace w'
       = trace w ++ firstn (5 + role_index r)
                      (reader_calls nC3 nC4 nEL nER
                         (smp_in_file (param hdr nC3))).
Proof.
  intros H signal. unfold read_channels in H.
  set (tot := smp_in_file (param hdr nC3)) in *.
  apply bind_inv in H as [(f0 & H & Hf)|(u0 & w0 & H0 & H)].
  { injection Hf as ->. apply guard_failed in H as (-> & ->). now left. }
  apply quiet_guard in H0. subst w0. right.
  apply bind_inv in H as [(f0 & H & _)|(u1 & w1 & H & H1)];
    apply log_spec in H as (Hr1 & _ & Ht1); [discriminate|].
  apply bind_inv in H1 as [(f0 & H & _)|(u2 & w2 & H & H2)];
    apply log_spec in H as (Hr2 & _ & Ht2); [discriminate|].
  apply bind_inv in H2 as [(f0 & H & _)|(u3 & w3 & H & H3)];
    apply log_spec in H as (Hr3 & _ & Ht3); [discriminate|].
  apply bind_inv in H3 as [(f0 & H & _)|(u4 & w4 & H & H4)];
    apply log_spec in H as (Hr4 & _ & Ht4); [discriminate|].
  assert (Ht : trace w4
               = trace w ++ firstn 4 (reader_calls nC3 nC4 nEL nER tot)).
  { rewrite Ht4, Ht3, Ht2, Ht1, <- !app_assoc. reflexivity. }
  clear Ht1 Ht2 Ht3 Ht4 Hr1 Hr2 Hr3 Hr4.
  apply bind_inv in H4 as [(f0 & H & Hf)|(b3 & w5 & H & H5)];
    apply read_channel_step in H as (Ht5 & [(P3 & Hres)|(P3 & ? & HokP3)]);
    try discriminate.
  { injection Hf as ->. injection Hres as ->. exists C3.
    split; [reflexivity|]. split; [exact P3|]. split.
    - intros r' Hlt. cbn in Hlt. lia.
    - rewrite Ht5, Ht, <- app_assoc. reflexivity. }
  apply bind_inv in H5 as [(f0 & H & Hf)|(b4 & w6 & H & H6)];
    apply read_channel_step in H as (Ht6 & [(P4 & Hres)|(P4 & ? & HokP4)]);
    try discriminate.
  { injection Hf as ->. injection Hres as ->. exists C4.
    split; [reflexivity|]. split; [exact P4|]. split.
    - intros [] Hlt; cbn in Hlt; try lia; assumption.
    - rewrite Ht6, Ht5, Ht, <- !app_assoc. reflexivity. }
  apply bind_inv in H6 as [(f0 & H & Hf)|(bl & w7 & H & H7)];
    apply read_channel_step in H as (Ht7 & [(Pl & Hres)|(Pl & ? & HokPl)]);
    try discriminate.
  { injection Hf as ->. injection Hres as ->. exists EL.
    split; [reflexivity|]. split; [exact Pl|]. split.
    - intros [] Hlt; cbn in Hlt; try lia; assumption.
    - rewrite Ht7, Ht6, Ht5, Ht, <- !app_assoc. reflexivity. }
  apply bind_inv in H7 as [(f0 & H & Hf)|(br & w8 & H & H8)];
    apply read_channel_step in H as (Ht8 & [(Pr & Hres)|(Pr & ? & HokPr)]);
    try discriminate.
  { injection Hf as ->. injection Hres as ->. exists ER.
    split; [reflexivity|]. split; [exact Pr|]. split.
    - intros [] Hlt; cbn in Hlt; try lia; assumption.
    - rewrite Ht8, Ht7, Ht6, Ht5, Ht, <- !app_assoc. reflexivity. }
Qed.

(** Where a job that does not reach its destination stops: before the
    reader, in the reader, or after it. *)
Lemma prepare_failed E filename channelLabels overwrite w f w1 :
  prepare E filename channelLabels overwrite w = (Failed f, w1) ->
  (w1 = w /\ (before_reading f = true \/ f = Aborted))
  \/ exists hdr physical nC3 nC4 nEL nER,
       edf_files w filename = EdfOpened hdr physical
       /\ resolve hdr channelLabels C3 = Some nC3
       /\ resolve hdr channelLabels C4 = Some nC4
       /\ resolve hdr channelLabels EL = Some nEL
       /\ resolve hdr channelLabels ER = Some nER
       /\ (read_channels hdr physical nC3 nC4 nEL nER w = (Failed f, w1)
           \/ exists d,
                read_channels hdr physical nC3 nC4 nEL nER w = (Ok d, w1)
                /\ (f = Aborted \/ f = IntegrityFailure
                    \/ f = BufferTooSmall \/ f = OutOfMemory)).
Proof.
  unfold prepare. intros H.
  apply bind_inv in H as [(f0 & H & Hf)|(present & w0 & H0 & H)];
    [cbv [exists_] in H; discriminate|].
  apply quiet_exists in H0; subst w0.
  apply bind_inv in H as [(f0 & H & Hf)|(u & w0 & H0 & H)].
  { injection Hf as ->. apply guard_failed in H as (-> & ->).
    left. split; [reflexivity|]. now left. }
  apply quiet_guard in H0; subst w0.
  apply bind_inv in H as [(f0 & H & Hf)|(o & w0 & H0 & H)].
  { injection Hf as ->. apply edfopen_failed in H as ((t & ->) & ->).
    left. split; [reflexivity|]. now left. }
  apply edfopen_ok in H0 as (Hopen & ->).
  apply bind_inv in H as [(f0 & H & Hf)|(nC3 & w0 & H0 & H)].
  { injection Hf as ->. apply find_channel_failed in H as (-> & ->).
    left. split; [reflexivity|]. now left. }
  apply find_channel_ok in H0 as (H3 & ->).
  apply bind_inv in H as [(f0 & H & Hf)|(nC4 & w0 & H0 & H)].
  { injection Hf as ->. apply find_channel_failed in H as (-> & ->).
    left. split; [reflexivity|]. now left. }
  apply find_channel_ok in H0 as (H4 & ->).
  apply bind_inv in H as [(f0 & H & Hf)|(nEL & w0 & H0 & H)].
  { injection Hf as ->. apply find_channel_failed in H as (-> & ->).
    left. split; [reflexivity|]. now left. }
  apply find_channel_ok in H0 as (Hl & ->).
  apply bind_inv in H as [(f0 & H & Hf)|(nER & w0 & H0 & H)].
  { injection Hf as ->. apply find_channel_failed in H as (-> & ->).
    left. split; [reflexivity|]. now left. }
  apply find_channel_ok in H0 as (Hr & ->).
  apply bind_inv in H as [(f0 & H & Hf)|(u1 & w0 & H0 & H)].
  { injection Hf as ->. apply guard_failed in H as (-> & ->).
    left. split; [reflexivity|]. now left. }
  apply quiet_guard in H0; subst w0.
  apply bind_inv in H as [(f0 & H & Hf)|(iC3 & w0 & H0 & H)].
  { injection Hf as ->. apply lift_failed in H as (-> & ->).
    left. split; [reflexivity|]. now right. }
  apply quiet_lift in H0; subst w0.
  apply bind_inv in H as [(f0 & H & Hf)|(iC4 & w0 & H0 & H)].
  { injection Hf as ->. apply lift_failed in H as (-> & ->).
    left. split; [reflexivity|]. now right. }
  apply quiet_lift in H0; subst w0.
  apply bind_inv in H as [(f0 & H & Hf)|(u2 & w0 & H0 & H)].
  { injection Hf as ->. apply guard_failed in H as (-> & ->).
    left. split; [reflexivity|]. now left. }
  apply quiet_guard in H0; subst w0.
  right. exists (fst o), (snd o), nC3, nC4, nEL, nER.
  do 5 (split; [assumption|]).
  apply bind_inv in H as [(f0 & H & Hf)|(d & w0 & H0 & H)].
  { injection Hf as ->. now left. }
  right. exists d.
  apply bind_inv in H as [(f0 & H & Hf)|(s & w2 & H1 & H)].
  { injection Hf as ->. apply lift_failed in H as (-> & ->). auto. }
  apply quiet_lift in H1; subst w2.
  apply bind_inv in H as [(f0 & H & Hf)|(sp & w2 & H1 & H)].
  { injection Hf as ->. apply lift_failed in H as (-> & ->). auto. }
  apply quiet_lift in H1; subst w2.
  apply bind_inv in H as [(f0 & H & Hf)|(pk & w2 & H1 & H)].
  { injection Hf as ->. apply package_failed in H as (Hk & ->).
    split; [assumption|]. right. exact Hk. }
  cbv [ret] in H. discriminate.
Qed.

(** X8: The stage at which a job fails.  A job that reports that the
    output exists, that the EDF does not open, that a label is missing,
    that a unit is unsupported or that C3 and C4 differ in rate has not
    allocated a buffer or read a sample, and leaves the world exactly
    as it found it.  A job that reports a read failure for a channel
    has opened the EDF and resolved all four labels, edflib refused that
    channel and none of the channels before it (in the order C3, C4,
    EOG-left, EOG-right), and its calls are the four allocations and the
    reads up to and including the failing one.  A job that fails on the
    digest, on the compression or on opening its destination has made
    all eight calls. *)
Theorem failure_stage E filename channelLabels overwrite w f w' :
  convertFile E filename channelLabels overwrite w = (Failed f, w') ->
  (before_reading f = true -> w' = w)
  /\ (forall r, f = ReadFailure r ->
        exists hdr physical nC3 nC4 nEL nER,
          let signal r :=
            match r with C3 => nC3 | C4 => nC4 | EL => nEL | ER => nER end
          in
          edf_files w filename = EdfOpened hdr physical
          /\ resolve hdr channelLabels C3 = Some nC3
          /\ resolve hdr channelLabels C4 = Some nC4
          /\ resolve hdr channelLabels EL = Some nEL
          /\ resolve hdr channelLabels ER = Some nER
          /\ physical (signal r) = None
          /\ (forall r', (role_index r' < role_index r)%nat ->
                         physical (signal r') <> None)
          /\ trace w'
             = trace w ++ firstn (5 + role_index r)
                            (reader_calls nC3 nC4 nEL nER
                               (smp_in_file (param hdr nC3))))
  /\ (f = IntegrityFailure \/ f = BufferTooSmall \/ f = OutOfMemory
      \/ f = WriteFailure ->
        exists hdr physical nC3 nC4 nEL nER,
          edf_files w filename = EdfOpened hdr physical
          /\ resolve hdr channelLabels C3 = Some nC3
          /\ resolve hdr channelLabels C4 = Some nC4
          /\ resolve hdr channelLabels EL = Some nEL
          /\ resolve hdr channelLabels ER = Some nER
          /\ trace w'
             = trace w ++ reader_calls nC3 nC4 nEL nER
                            (smp_in_file (param hdr nC3))).
Proof.
  intros H.
  assert (Hall : forall hdr physical nC3 nC4 nEL nER d w1,
             read_channels hdr physical nC3 nC4 nEL nER w = (Ok d, w1) ->
             trace w1 = trace w ++ reader_calls nC3 nC4 nEL nER
                                     (smp_in_file (param hdr nC3))).
  { intros hdr ph n3 n4 nl nr d w1 Hd.
    apply read_channels_spec in Hd as (_ & (k & _ & Ht & Hk) & _).
    rewrite (Hk d eq_refl) in Ht. exact Ht. }
  apply convertFile_inv in H
    as [(f0 & Hp & Hf)|(e & dg & o & w1 & Hp & Hw)].
  - injection Hf as <-.
    apply prepare_failed in Hp
      as [(Hw1 & Hk)
         |(hdr & ph & n3 & n4 & nl & nr & Ho & H3 & H4 & Hl & Hr
           & [Hread|(d & Hread & Hk)])].
    + subst w'. split; [reflexivity|]. split.
      * intros r ->. destruct Hk as [Hk|Hk]; discriminate.
      * intros [-> | [-> | [-> | ->]]]; destruct Hk as [Hk|Hk]; discriminate.
    + pose proof (read_channels_failed _ _ _ _ _ _ _ _ _ Hread)
        as [(-> & ->)|(r & -> & Hnone & Hbefore & Ht)].
      { split; [reflexivity|]. split; [discriminate|].
        intros [Hk|[Hk|[Hk|Hk]]]; discriminate. }
      split; [discriminate|]. split.
      * intros r' [= <-]. exists hdr, ph, n3, n4, nl, nr. cbv zeta.
        auto 10.
      * intros [Hk|[Hk|[Hk|Hk]]]; discriminate.
    + split; [|split].
      * intros Hb. destruct Hk as [-> | [-> | [-> | ->]]]; discriminate.
      * intros r ->. destruct Hk as [Hk|[Hk|[Hk|Hk]]]; discriminate.
      * intros _. exists hdr, ph, n3, n4, nl, nr.
        rewrite (Hall _ _ _ _ _ _ _ _ Hread). auto 10.
  - apply write_cfs_cases in Hw as [(_ & Hf & ->)|(_ & [=] & _)].
    injection Hf as ->.
    apply prepare_ok in Hp
      as (hdr & ph & n3 & n4 & nl & nr & d & s & payload & digest
          & Ho & H3 & H4 & Hl & Hr & Hread & _).
    split; [discriminate|]. split; [discriminate|].
    intros _. exists hdr, ph, n3, n4, nl, nr.
    rewrite (Hall _ _ _ _ _ _ _ _ Hread). auto 10.
Qed.

Lemma failure_stage_witness :
  exists w',
    convertFile (Demo.externals O32_LITTLE_ENDIAN) "night.edf"
      Demo.lower_labels false torn_disk
    = (Failed (ReadFailure EL), w')
    /\ exists hdr physical nC3 nC4 nEL,
         edf_files torn_disk "night.edf" = EdfOpened hdr physical
         /\ resolve hdr Demo.lower_labels EL = Some nEL
         /\ physical nEL = None
         /\ physical nC3 <> None
         /\ physical nC4 <> None
         /\ trace w'
            = [ Alloc C3 (smp_in_file (param hdr nC3));
                Alloc C4 (smp_in_file (param hdr nC3));
                Alloc EL (smp_in_file (param hdr nC3));
                Alloc ER (smp_in_file (param hdr nC3));
                Read C3 nC3 (smp_in_file (param hdr nC3));
                Read C4 nC4 (smp_in_file (param hdr nC3));
                Read EL nEL (smp_in_file (param hdr nC3)) ].
Proof.
  set (job := convertFile (Demo.externals O32_LITTLE_ENDIAN) "night.edf"
                Demo.lower_labels false torn_disk).
  assert (H : job = (Failed (ReadFailure EL), snd job))
    by (vm_compute; reflexivity).
  exists (snd job). split; [exact H|].
  destruct (proj1 (proj2 (failure_stage _ _ _ _ _ _ _ H)) EL eq_refl)
    as (hdr & ph & n3 & n4 & nl & nr & Ho & H3 & H4 & Hl & Hr & Hn & Hb & Ht).
  exists hdr, ph, n3, n4, nl.
  split; [exact Ho|]. split; [exact Hl|]. split; [exact Hn|].
  split; [apply (Hb C3); cbn; lia|]. split; [apply (Hb C4); cbn; lia|].
  exact Ht.
Defined.

(** ** The dispatch loop of [main] *)

Lemma batch_from_unit fuel P size i j :
  batch_from fuel P size i j = range_step fuel (i + j) (Z.min (i + P) size) 1.
Proof.
  revert j. induction fuel as [|fuel IH]; intros j; [reflexivity|].
  simpl. rewrite IH, <- Z.add_assoc, Z.geb_leb.
  destruct (j <? P) eqn:Hj, (size <=? i + j) eqn:Hs,
           (i + j <? Z.min (i + P) size) eqn:Hm;
    try reflexivity; exfalso;
    rewrite ?Z.ltb_lt, ?Z.ltb_ge, ?Z.leb_le, ?Z.leb_gt in *; lia.
Qed.

Lemma seq_offset a n : seq a n = map (Nat.add a) (seq 0 n).
Proof.
  revert a. induction n as [|n IH]; intros a; [reflexivity|].
  simpl. f_equal; [lia|].
  rewrite (IH (S a)), <- (seq_shift n 0), map_map.
  apply map_ext. intros k. lia.
Qed.

Lemma batch_unit P size i :
  batch P size i
  = map (fun k => i + Z.of_nat k) (seq 0 (Z.to_nat (Z.min P (size - i)))).
Proof.
  unfold batch. rewrite batch_from_unit, Z.add_0_r, range_step_unit by lia.
  f_equal. f_equal. lia.
Qed.

Lemma in_range_step fuel i bound step x :
  0 <= step -> In x (range_step fuel i bound step) -> i <= x < bound.
Proof.
  intros Hs. revert i. induction fuel as [|fuel IH]; intros i; [intros []|].
  simpl. destruct (i <? bound) eqn:Hlt; [|intros []].
  apply Z.ltb_lt in Hlt. intros [<-|Hin]; [lia|].
  apply IH in Hin. lia.
Qed.

Lemma concat_batches_from P size fuel i :
  1 <= P -> (Z.to_nat (size - i) <= fuel)%nat ->
  List.concat (map (batch P size) (range_step fuel i size P))
  = map (fun k => i + Z.of_nat k) (seq 0 (Z.to_nat (size - i))).
Proof.
  intros HP. revert i. induction fuel as [|fuel IH]; intros i Hf.
  - replace (Z.to_nat (size - i)) with 0%nat by lia. reflexivity.
  - simpl. destruct (i <? size) eqn:Hlt.
    + apply Z.ltb_lt in Hlt. simpl. rewrite IH by lia. rewrite batch_unit.
      destruct (Z.le_gt_cases P (size - i)) as [Hle|Hgt].
      * replace (Z.to_nat (size - i))
          with (Z.to_nat P + Z.to_nat (size - (i + P)))%nat by lia.
        rewrite seq_app, map_app. f_equal.
        { f_equal. f_equal. lia. }
        rewrite (seq_offset (0 + Z.to_nat P)), map_map. apply map_ext. intros k. lia.
      * replace (Z.to_nat (size - (i + P))) with 0%nat by lia.
        simpl. rewrite app_nil_r. f_equal. f_equal. lia.
    + apply Z.ltb_ge in Hlt.
      replace (Z.to_nat (size - i)) with 0%nat by lia. reflexivity.
Qed.

Lemma len_range_step P size fuel i :
  1 <= P -> i < size + P -> (Z.to_nat (size - i) <= fuel)%nat ->
  len (range_step fuel i size P) = (size - i + P - 1) / P.
Proof.
  intros HP. revert i. induction fuel as [|fuel IH]; intros i Hi Hf.
  - unfold len. simpl. symmetry. apply Z.div_small. lia.
  - simpl. destruct (i <? size) eqn:Hlt.
    + apply Z.ltb_lt in Hlt. unfold len in *. cbn [List.length].
      rewrite Nat2Z.inj_succ, IH by lia.
      replace (size - i + P - 1) with (size - (i + P) + P - 1 + 1 * P) by lia.
      rewrite Z.div_add by lia. lia.
    + apply Z.ltb_ge in Hlt. unfold len. simpl. symmetry.
      apply Z.div_small. lia.
Qed.

(** X9: The dispatch loop of [main].  With the number of workers [P]
    that [main] settles on (what the hardware reports, or 2 when it
    reports 0) and a list of [size] files, counted within [int], the
    batches the two loops start are consecutive runs of the indices
    [0 .. size-1]: put one after the other they are exactly these
    indices in order, so every file is handed to one worker and none
    twice; each batch has between 1 and [P] workers, and there are
    [ceil(size / P)] batches. *)
Theorem main_dispatches_each_file_once hw size :
  0 <= hw -> 0 <= size ->
  size + concurentThreadsSupported hw <= Num.INT_MAX ->
  let P := concurentThreadsSupported hw in
  1 <= P
  /\ (hw = 0 -> P = 2)
  /\ List.concat (batches P size) = for_range 0 size 1
  /\ Forall (fun b => 1 <= len b <= P) (batches P size)
  /\ len (batches P size) = (size + P - 1) / P.
Proof.
  intros Hhw Hsize _ P.
  assert (HP : 1 <= P).
  { unfold P, concurentThreadsSupported.
    destruct (hw =? 0) eqn:H0; [lia|]. apply Z.eqb_neq in H0. lia. }
  split; [exact HP|]. split.
  { intros ->. reflexivity. }
  split.
  { unfold batches, for_range. rewrite concat_batches_from by (lia || exact HP).
    rewrite range_step_unit by lia. reflexivity. }
  split.
  { apply Forall_forall. intros b Hb. unfold batches in Hb.
    apply in_map_iff in Hb as (i & <- & Hi).
    apply in_range_step in Hi; [|lia].
    rewrite batch_unit. unfold len. rewrite length_map, length_seq. lia. }
  unfold batches, for_range. unfold len at 1. rewrite length_map.
  fold (len (range_step (Z.to_nat (size - 0)) 0 size P)).
  rewrite len_range_step by lia. f_equal. lia.
Qed.

Lemma main_dispatches_each_file_once_witness :
  batches (concurentThreadsSupported 0) 5 = [[0; 1]; [2; 3]; [4]]
  /\ List.concat (batches (concurentThreadsSupported 0) 5) = for_range 0 5 1
  /\ len (batches (concurentThreadsSupported 0) 5) = 3.
Proof.
  split; [reflexivity|].
  assert (H0 : 0 <= 0) by lia.
  assert (H5 : 0 <= 5) by lia.
  assert (Hb : 5 + concurentThreadsSupported 0 <= Num.INT_MAX)
    by (vm_compute; discriminate).
  pose proof (main_dispatches_each_file_once 0 5 H0 H5 Hb)
    as (_ & _ & Hc & _ & Hl).
  split; [exact Hc|exact Hl].
Defined.

(** ** The transform wrapper of sigpack *)

Lemma at_set_at {A} (d : A) (v : list A) i x k :
  0 <= i < len v -> 0 <= k ->
  at_ d (set_at v i x) k = if k =? i then x else at_ d v k.
Proof.
  unfold at_, set_at, len. intros Hi Hk.
  assert (Hf : List.length (firstn (Z.to_nat i) v) = Z.to_nat i)
    by (rewrite length_firstn; lia).
  destruct (k =? i) eqn:Hki.
  - apply Z.eqb_eq in Hki. subst k.
    rewrite app_nth2 by lia. rewrite Hf, Nat.sub_diag. reflexivity.
  - apply Z.eqb_neq in Hki. destruct (Z.lt_ge_cases k i) as [Hlt|Hge].
    + rewrite app_nth1 by lia. rewrite nth_firstn.
      replace (Z.to_nat k <? Z.to_nat i)%nat with true; [reflexivity|].
      symmetry. apply Nat.ltb_lt. lia.
    + rewrite app_nth2 by lia. rewrite Hf.
      replace (Z.to_nat k - Z.to_nat i)%nat
        with (S (Z.to_nat k - Z.to_nat i - 1)) by lia.
      cbn [nth]. rewrite nth_skipn. f_equal. lia.
Qed.

Lemma at_resize {A} (d : A) l n k :
  0 <= k < len l -> k < n -> at_ d (resize n d l) k = at_ d l k.
Proof.
  unfold at_, resize, len. intros Hk Hn. rewrite nth_firstn.
  replace (Z.to_nat k <? Z.to_nat n)%nat with true
    by (symmetry; apply Nat.ltb_lt; lia).
  apply app_nth1. lia.
Qed.

(** The mirror loop of [FFTW::fft], from its round [m] on: the rounds
    done so far have filled [offset .. offset + m - 1] with conjugates
    of the lower bins and have left everything else as it was. *)
Lemma mirror_loop (N : Z) (P0 : list cx) :
  1 <= N -> len P0 = N ->
  forall (cnt m : nat) (P : list cx),
    Z.of_nat (m + cnt) <= N - (N + 1) / 2 ->
    len P = N ->
    (forall k, 0 <= k < N ->
       at_ czero P k
       = if ((N + 1) / 2 <=? k) && (k <? (N + 1) / 2 + Z.of_nat m)
         then std_conj (at_ czero P0 (N - k)) else at_ czero P0 k) ->
    let P' :=
      fold_left
        (fun Pxx i =>
           set_at Pxx ((N + 1) / 2 + i)
             (std_conj (at_ czero Pxx (N - (N + 1) / 2 - i))))
        (map Z.of_nat (seq m cnt)) P in
    len P' = N
    /\ forall k, 0 <= k < N ->
         at_ czero P' k
         = if ((N + 1) / 2 <=? k) && (k <? (N + 1) / 2 + Z.of_nat (m + cnt))
           then std_conj (at_ czero P0 (N - k)) else at_ czero P0 k.
Proof.
  intros HN HP0.
  set (offset := (N + 1) / 2).
  assert (Hoff : 2 * offset <= N + 1 < 2 * offset + 2)
    by (unfold offset; Z.div_mod_to_equations; lia).
  induction cnt as [|cnt IH]; intros m P Hm HP Hinv.
  - cbn [seq map fold_left]. rewrite Nat.add_0_r. auto.
  - cbn [seq map fold_left].
    replace (m + S cnt)%nat with (S m + cnt)%nat in * by lia.
    apply IH; [exact Hm| |].
    + unfold len in *. rewrite length_set_at; [exact HP|unfold len; lia].
    + intros k Hk. rewrite at_set_at by lia.
      rewrite (Hinv (N - offset - Z.of_nat m)) by lia.
      rewrite (Hinv k Hk).
      destruct (k =? offset + Z.of_nat m) eqn:Hkm.
      * apply Z.eqb_eq in Hkm. subst k.
        replace (offset <=? offset + Z.of_nat m) with true
          by (symmetry; apply Z.leb_le; lia).
        replace (offset + Z.of_nat m <? offset + Z.of_nat (S m)) with true
          by (symmetry; apply Z.ltb_lt; lia).
        cbn [andb].
        replace ((offset <=? N - offset - Z.of_nat m)
                 && (N - offset - Z.of_nat m <? offset + Z.of_nat m))
          with false.
        { f_equal. f_equal. lia. }
        symmetry. apply andb_false_iff.
        rewrite Z.leb_gt, Z.ltb_ge. lia.
      * apply Z.eqb_neq in Hkm. destruct (offset <=? k); [|reflexivity].
        cbn [andb].
        destruct (k <? offset + Z.of_nat m) eqn:H1,
                 (k <? offset + Z.of_nat (S m)) eqn:H2;
          try reflexivity; exfalso;
          rewrite ?Z.ltb_lt, ?Z.ltb_ge in *; lia.
Qed.

(** X10: [FFTW::fft] for a transform of any length [N >= 1], with a
    library that delivers the [N/2 + 1] bins of a real transform: the
    result has [N] bins; the bins below [ceil(N/2)] are the library's;
    every bin [k] from [ceil(N/2)] on is the complex conjugate of the
    library's bin [N - k], so no bin keeps what the vector held before
    the call; for even [N] this replaces the library's bin [N/2] by its
    own conjugate. *)
Theorem fft_mirrors_the_lower_bins E N x :
  shapes E -> 1 <= N ->
  let out := fftw_execute_dft_r2c E N x in
  let Pxx := FFTW_fft E N x in
  len Pxx = N
  /\ (forall k, 0 <= k < (N + 1) / 2 -> at_ czero Pxx k = at_ czero out k)
  /\ (forall k, (N + 1) / 2 <= k < N ->
        at_ czero Pxx k = std_conj (at_ czero out (N - k))).
Proof.
  intros HE HN out Pxx. unfold Pxx, FFTW_fft. fold out.
  assert (Hout : len out = N / 2 + 1) by (apply (fftw_len E HE); lia).
  assert (Hdiv : 2 * (N / 2) <= N < 2 * (N / 2) + 2
                 /\ 2 * ((N + 1) / 2) <= N + 1 < 2 * ((N + 1) / 2) + 2)
    by (Z.div_mod_to_equations; lia).
  rewrite firstn_all2 by (unfold len in Hout; lia).
  set (P0 := resize N czero out).
  assert (HP0 : len P0 = N)
    by (unfold P0, len; rewrite length_resize; lia).
  assert (Hlow : forall k, 0 <= k <= N / 2 -> at_ czero P0 k = at_ czero out k).
  { intros k Hk. unfold P0. apply at_resize; lia. }
  rewrite for_range_unit.
  destruct (mirror_loop N P0 HN HP0 (Z.to_nat (N - (N + 1) / 2)) 0 P0)
    as (Hlen & Hat).
  - lia.
  - exact HP0.
  - intros k Hk. rewrite Z.add_0_r.
    replace (((N + 1) / 2 <=? k) && (k <? (N + 1) / 2)) with false;
      [reflexivity|].
    symmetry. apply andb_false_iff. rewrite Z.leb_gt, Z.ltb_ge. lia.
  - cbv zeta in Hlen, Hat. split; [exact Hlen|]. split.
    + intros k Hk. rewrite Hat by lia.
      replace ((N + 1) / 2 <=? k) with false
        by (symmetry; apply Z.leb_gt; lia).
      cbn [andb]. apply Hlow. lia.
    + intros k Hk. rewrite Hat by lia.
      replace ((N + 1) / 2 <=? k) with true
        by (symmetry; apply Z.leb_le; lia).
      replace (k <? (N + 1) / 2 + Z.of_nat (0 + Z.to_nat (N - (N + 1) / 2)))
        with true by (symmetry; apply Z.ltb_lt; lia).
      cbn [andb]. f_equal. apply Hlow. lia.
Qed.

Lemma fft_mirrors_the_lower_bins_witness :
  let E := Demo.externals O32_LITTLE_ENDIAN in
  let x := [1; 2; 3; 4]%float in
  FFTW_fft E 4 x
  = [(1, 0); (2, 0); (3, -0); (2, -0)]%float
  /\ len (FFTW_fft E 4 x) = 4
  /\ at_ czero (FFTW_fft E 4 x) 3
     = std_conj (at_ czero (fftw_execute_dft_r2c E 4 x) (4 - 3)).
Proof.
  intros E x.
  split; [reflexivity|].
  assert (H4 : 1 <= 4) by lia.
  pose proof (fft_mirrors_the_lower_bins E 4 x
                (Demo_shapes O32_LITTLE_ENDIAN) H4) as (Hl & _ & Hm).
  split; [exact Hl|]. apply Hm.
  vm_compute. split; [discriminate|reflexivity].
Defined.

(** ** What the feature extractor needs of the EOG channels *)

Lemma spectrogram_step_reaches E a b c i j p :
  shapes E -> 0 <= i -> In j frame_starts ->
  i * 3000 + 2918 <= len a -> i * 3000 + 2918 <= len b ->
  i * 3000 + 2918 <= len c -> (i + 1) * 3072 <= len p ->
  exists p', spectrogram_step E (hamming E 128) a b c i j p = Some p'.
Proof.
  intros HE Hi Hj Ha Hb Hc Hp.
  apply in_frame_starts in Hj as (Ht & Hj90).
  unfold spectrogram_step.
  destruct (frame_spectrum_total E a i j HE) as (sa & Hsa); try lia.
  destruct (frame_spectrum_total E b i j HE) as (sb & Hsb); try lia.
  destruct (frame_spectrum_total E c i j HE) as (sc & Hsc); try lia.
  rewrite Hsa, Hsb, Hsc. cbn [obind].
  destruct (frame_spectrum_some E a i j sa HE Hsa) as (r0 & Hr0 & _ & Hl0).
  destruct (frame_spectrum_some E b i j sb HE Hsb) as (r1 & Hr1 & _ & Hl1).
  destruct (frame_spectrum_some E c i j sc HE Hsc) as (r2 & Hr2 & _ & Hl2).
  rewrite Hr0. cbn [obind]. unfold epochSize.
  destruct (set_subvec_in_range p (i * (32 * 32 * 3) + j / 90 * 32)
              (i * (32 * 32 * 3) + j / 90 * 32 + 32 - 1) r0)
    as (p1 & Hp1); try lia.
  rewrite Hp1. cbn [obind]. rewrite Hr1. cbn [obind].
  pose proof (set_subvec_some _ _ _ _ _ Hp1) as (_ & _ & _ & _ & _ & Hq1).
  destruct (set_subvec_in_range p1 (i * (32 * 32 * 3) + 32 * 32 + j / 90 * 32)
              (i * (32 * 32 * 3) + 32 * 32 + j / 90 * 32 + 32 - 1) r1)
    as (p2 & Hp2); try lia.
  rewrite Hp2. cbn [obind]. rewrite Hr2. cbn [obind].
  pose proof (set_subvec_some _ _ _ _ _ Hp2) as (_ & _ & _ & _ & _ & Hq2).
  apply set_subvec_in_range; lia.
Qed.

Lemma inner_loop_reaches E a b c i :
  shapes E -> 0 <= i ->
  i * 3000 + 2918 <= len a -> i * 3000 + 2918 <= len b ->
  i * 3000 + 2918 <= len c ->
  forall js p,
    (forall j, In j js -> In j frame_starts) ->
    (i + 1) * 3072 <= len p ->
    exists p', fold_opt (spectrogram_step E (hamming E 128) a b c i) js p
               = Some p'.
Proof.
  intros HE Hi Ha Hb Hc. induction js as [|j js IH]; intros p Hjs Hp.
  - cbn [fold_opt]. eauto.
  - assert (Hj : In j frame_starts) by (apply Hjs; now left).
    destruct (spectrogram_step_reaches E a b c i j p) as (p1 & H1); auto.
    cbn [fold_opt]. rewrite H1. cbn [obind].
    apply IH; [intros k Hk; apply Hjs; now right|].
    assert (Hl : len p1 = len p)
      by (apply (inner_loop_len E a b c i [j]); cbn [fold_opt];
          rewrite H1; reflexivity).
    lia.
Qed.

Lemma outer_loop_reaches E a b c n :
  shapes E ->
  (n - 1) * 3000 + 2918 <= len a -> (n - 1) * 3000 + 2918 <= len b ->
  (n - 1) * 3000 + 2918 <= len c ->
  forall es p,
    (forall i, In i es -> 0 <= i < n) ->
    n * 3072 <= len p ->
    exists p',
      fold_opt (fun i p => fold_opt (spectrogram_step E (hamming E 128) a b c i)
                             frame_starts p) es p = Some p'.
Proof.
  intros HE Ha Hb Hc. induction es as [|i es IH]; intros p Hes Hp.
  - cbn [fold_opt]. eauto.
  - assert (Hi : 0 <= i < n) by (apply Hes; now left).
    destruct (inner_loop_reaches E a b c i HE) with (js := frame_starts) (p := p)
      as (p1 & H1); try lia; auto.
    cbn [fold_opt]. rewrite H1. cbn [obind].
    apply IH; [intros k Hk; apply Hes; now right|].
    apply inner_loop_len in H1. lia.
Qed.

Lemma bins_0_31_some E chan start bins :
  bins_0_31 E chan start = Some bins -> start + 128 <= len chan.
Proof.
  unfold bins_0_31. intros H. apply obind_some in H as (f & Hf & _).
  apply subvec_some in Hf. lia.
Qed.

(** X11: What the feature extractor needs of its three signals.  With
    [E = len(eeg) / 3000] epochs, a payload size within [int] and the
    shapes the libraries deliver, the extractor returns exactly when
    there is no epoch or both EOG signals have at least
    [(E - 1) * 3000 + 2918] samples, the end of the last frame of the
    last epoch; on a shorter EOG signal [subvec] raises and there is no
    result.  When it returns, the epoch count is [E] and every frame it
    took lies inside all three signals. *)
Theorem extractor_needs_the_last_frame E a b c :
  shapes E ->
  Num.in_int (epochs_of (len a) * epochSize) = true ->
  let epochs := epochs_of (len a) in
  let needed := (epochs - 1) * 3000 + 2918 in
  ((exists r, spectrogram E a b c = Some r)
   <-> epochs = 0 \/ (needed <= len b /\ needed <= len c))
  /\ (spectrogram E a b c = None
      <-> 1 <= epochs /\ (len b < needed \/ len c < needed))
  /\ forall r, spectrogram E a b c = Some r -> fst r = epochs.
Proof.
  intros HE Hin epochs needed.
  pose proof (epochs_of_bounds (len a) (len_nonneg a)) as (He0 & He & _).
  fold epochs in He0, He.
  assert (Hiff : (exists r, spectrogram E a b c = Some r)
                 <-> epochs = 0 \/ (needed <= len b /\ needed <= len c)).
  { split.
    - intros ([n payload] & H).
      apply spectrogram_some in H as (-> & _ & H). fold epochs in H.
      destruct (Z.eq_dec epochs 0) as [H0|H0]; [now left|right].
      destruct (outer_loop_spec E a b c HE _ _ _
                  (NoDup_for_range_unit epochs) H) as (_ & Hg & _).
      assert (Hlast : In (epochs - 1) (for_range 0 epochs 1))
        by (apply in_for_range_unit; lia).
      destruct (Hg (epochs - 1) 1 31 Hlast ltac:(lia) ltac:(lia))
        as (bl & _ & Hbl & _).
      destruct (Hg (epochs - 1) 2 31 Hlast ltac:(lia) ltac:(lia))
        as (br & _ & Hbr & _).
      apply bins_0_31_some in Hbl, Hbr.
      change (channel_of _ 1) with b in Hbl.
      change (channel_of _ 2) with c in Hbr.
      unfold needed. lia.
    - intros Hc. unfold spectrogram. rewrite Hin. cbn [negb]. fold epochs.
      destruct Hc as [H0|(Hb & Hc)].
      + rewrite H0. cbn. eauto.
      + destruct (Z.eq_dec epochs 0) as [H0|H0]; [rewrite H0; cbn; eauto|].
        destruct (outer_loop_reaches E a b c epochs HE) with
          (es := for_range 0 epochs 1) (p := zeros (epochs * epochSize))
          as (p & Hp); try (unfold needed in *; lia).
        * intros i. apply in_for_range_unit.
        * rewrite len_zeros. unfold epochSize. lia.
        * rewrite Hp. cbn [obind]. eauto. }
  split; [exact Hiff|]. split.
  - split.
    + intros Hnone.
      destruct (Z.eq_dec epochs 0) as [H0|H0].
      * destruct (proj2 Hiff (or_introl H0)) as (r & Hr). congruence.
      * split; [lia|].
        destruct (Z.lt_ge_cases (len b) needed) as [Hb|Hb]; [now left|].
        destruct (Z.lt_ge_cases (len c) needed) as [Hc|Hc]; [now right|].
        destruct (proj2 Hiff (or_intror (conj Hb Hc))) as (r & Hr).
        congruence.
    + intros (H1 & Hshort).
      destruct (spectrogram E a b c) as [r|] eqn:Hr; [|reflexivity].
      destruct (proj1 Hiff (ex_intro _ r eq_refl)) as [H0|(Hb & Hc)]; lia.
  - intros [n payload] H. apply spectrogram_some in H as (-> & _). reflexivity.
Qed.

Lemma extractor_needs_the_last_frame_witness :
  let D := Demo.externals O32_LITTLE_ENDIAN in
  spectrogram D (Demo.ones 3000) (Demo.ones 2917) (Demo.ones 3000) = None
  /\ exists r,
       spectrogram D (Demo.ones 3000) (Demo.ones 2918) (Demo.ones 2918)
       = Some r.
Proof.
  intros D.
  assert (Hin : Num.in_int (epochs_of (len (Demo.ones 3000)) * epochSize)
                = true) by (vm_compute; reflexivity).
  split.
  - apply (proj2 (proj1 (proj2
             (extractor_needs_the_last_frame D (Demo.ones 3000)
                (Demo.ones 2917) (Demo.ones 3000)
                (Demo_shapes O32_LITTLE_ENDIAN) Hin)))).
    vm_compute. split; [discriminate|]. left. reflexivity.
  - apply (proj2 (proj1
             (extractor_needs_the_last_frame D (Demo.ones 3000)
                (Demo.ones 2918) (Demo.ones 2918)
                (Demo_shapes O32_LITTLE_ENDIAN) Hin))).
    right. vm_compute. split; discriminate.
Defined.

(** ** Recordings whose channels differ in rate *)

(** The length of a signal of [n] samples at the integer rate [r] once
    it is at 100 Hz. *)
Lemma to_100Hz_length E fs r x y :
  shapes E -> to_100Hz E fs x = Some y -> Num.to_int fs = Some r -> 0 < r ->
  len y = if r =? SAMPLINGRATE then len x
          else resample_length SAMPLINGRATE r (len x).
Proof.
  intros HE H Hr Hpos. unfold to_100Hz in H. rewrite Hr in H.
  cbn [obind] in H. injection H as <-.
  destruct (r =? SAMPLINGRATE); [reflexivity|].
  apply (resample_len E HE); try assumption. unfold SAMPLINGRATE. lia.
Qed.

Lemma eog_lengths E f m3 m4 ml mr d s rl rr :
  shapes E ->
  filter_and_resample E f m3 m4 ml mr d = Some s ->
  Num.to_int (fEL f) = Some rl -> 0 < rl ->
  Num.to_int (fER f) = Some rr -> 0 < rr ->
  len (eoglFilt s)
  = (if rl =? SAMPLINGRATE then len (dataEL d)
     else resample_length SAMPLINGRATE rl (len (dataEL d)))
  /\ len (eogrFilt s)
     = (if rr =? SAMPLINGRATE then len (dataER d)
        else resample_length SAMPLINGRATE rr (len (dataER d))).
Proof.
  intros HE H Hl Hlpos Hr Hrpos. unfold filter_and_resample in H.
  apply obind_some in H as (sum & Hsum & H).
  apply obind_some in H as (a & Ha & H).
  apply obind_some in H as (b & Hb & H).
  apply obind_some in H as (c & Hc & [= <-]). cbn [eoglFilt eogrFilt].
  rewrite (to_100Hz_length E _ rl _ _ HE Hb Hl Hlpos).
  rewrite (to_100Hz_length E _ rr _ _ HE Hc Hr Hrpos).
  now rewrite !(conv_same_len E HE), !len_scale.
Qed.

(** X12: A recording whose EOG channels are faster than its EEG
    channels.  All four channels are read with the sample count [n] of
    C3 and each is brought to 100 Hz from its own rate, so a faster EOG
    channel ends up shorter than the EEG.  A job returns [true] only if
    the EEG gives no epoch, or both EOG signals, [n] samples at their
    own rates brought to 100 Hz, reach the end of the last frame of the
    last epoch. *)
Theorem job_needs_eog_to_cover_the_epochs E filename channelLabels overwrite
    w w' hdr physical nC3 nEL nER r3 rl rr :
  shapes E ->
  convertFile E filename channelLabels overwrite w = (Ok tt, w') ->
  edf_files w filename = EdfOpened hdr physical ->
  resolve hdr channelLabels C3 = Some nC3 ->
  resolve hdr channelLabels EL = Some nEL ->
  resolve hdr channelLabels ER = Some nER ->
  Num.to_int (sample_rate hdr nC3) = Some r3 -> 0 < r3 ->
  Num.to_int (sample_rate hdr nEL) = Some rl -> 0 < rl ->
  Num.to_int (sample_rate hdr nER) = Some rr -> 0 < rr ->
  let n := Z.max 0 (smp_in_file (param hdr nC3)) in
  let at_100Hz r :=
    if r =? SAMPLINGRATE then n else resample_length SAMPLINGRATE r n in
  let epochs := at_100Hz r3 / 3000 in
  epochs = 0
  \/ ((epochs - 1) * 3000 + 2918 <= at_100Hz rl
      /\ (epochs - 1) * 3000 + 2918 <= at_100Hz rr).
Proof.
  intros HE H Ho H3 Hl Hr Hr3 Hp3 Hrl Hpl Hrr Hpr n at_100Hz epochs.
  apply convertFile_run in H as (R & _ & _).
  pose proof (run_opened _ _ _ _ R) as Ho'. rewrite Ho in Ho'.
  injection Ho' as Hh Hph.
  pose proof (run_C3 _ _ _ _ R) as H3'. rewrite <- Hh, H3 in H3'.
  pose proof (run_EL _ _ _ _ R) as Hl'. rewrite <- Hh, Hl in Hl'.
  pose proof (run_ER _ _ _ _ R) as Hr'. rewrite <- Hh, Hr in Hr'.
  injection H3' as H3'. injection Hl' as Hl'. injection Hr' as Hr'.
  pose proof (run_read _ _ _ _ R) as Hread.
  apply read_channels_spec in Hread as (_ & _ & Hlen).
  destruct (Hlen _ eq_refl) as (L3 & _ & LL & LR).
  rewrite <- Hh, <- H3' in L3, LL, LR. fold n in L3, LL, LR.
  pose proof (run_filtered _ _ _ _ R) as Hf.
  rewrite <- Hh, <- H3', <- Hl', <- Hr' in Hf.
  pose proof (eeg_length E _ _ _ _ _ _ _ r3 HE Hf Hr3 Hp3) as Leeg.
  pose proof (eog_lengths E _ _ _ _ _ _ _ rl rr HE Hf Hrl Hpl Hrr Hpr)
    as (Leogl & Leogr).
  rewrite L3 in Leeg. rewrite LL in Leogl. rewrite LR in Leogr.
  fold (at_100Hz r3) in Leeg. fold (at_100Hz rl) in Leogl.
  fold (at_100Hz rr) in Leogr.
  pose proof (run_features _ _ _ _ R) as Hsp.
  apply spectrogram_some in Hsp as (He & _ & Hloop).
  rewrite Leeg in He. fold epochs in He. unfold epochs_of in He.
  fold epochs in He.
  destruct (Z.eq_dec epochs 0) as [H0|H0]; [now left|right].
  rewrite He in Hloop.
  destruct (outer_loop_spec E _ _ _ HE _ _ _
              (NoDup_for_range_unit epochs) Hloop) as (_ & Hg & _).
  assert (Hpos : 1 <= epochs).
  { assert (0 <= epochs); [|lia]. unfold epochs. apply Z.div_pos; [|lia].
    rewrite <- Leeg. apply len_nonneg. }
  assert (Hlast : In (epochs - 1) (for_range 0 epochs 1))
    by (apply in_for_range_unit; lia).
  destruct (Hg (epochs - 1) 1 31 Hlast ltac:(lia) ltac:(lia))
    as (bl & _ & Hbl & _).
  destruct (Hg (epochs - 1) 2 31 Hlast ltac:(lia) ltac:(lia))
    as (br & _ & Hbr & _).
  apply bins_0_31_some in Hbl, Hbr.
  change (channel_of _ 1) with (eoglFilt (run_signals R)) in Hbl.
  change (channel_of _ 2) with (eogrFilt (run_signals R)) in Hbr.
  lia.
Qed.

Lemma job_needs_eog_to_cover_the_epochs_witness :
  let D := Demo.externals O32_LITTLE_ENDIAN in
  let w := Demo.disk (Demo.recording 100 3000) 1000 in
  let hdr := Demo.header 100 3000 in
  let n := Z.max 0 (smp_in_file (param hdr 0)) in
  let at_100Hz r :=
    if r =? SAMPLINGRATE then n else resample_length SAMPLINGRATE r n in
  let epochs := at_100Hz 100 / 3000 in
  fst (convertFile D "night.edf" Demo.lower_labels false w) = Ok tt
  /\ epochs = 1
  /\ (epochs - 1) * 3000 + 2918 <= at_100Hz 100.
Proof.
  intros D w hdr n at_100Hz epochs.
  set (job := convertFile D "night.edf" Demo.lower_labels false w).
  assert (H : job = (Ok tt, snd job)) by (vm_compute; reflexivity).
  assert (Hrate : forall k, 0 <= k < 4 ->
            Num.to_int (sample_rate hdr k) = Some 100).
  { intros k Hk. assert (Hc : k = 0 \/ k = 1 \/ k = 2 \/ k = 3) by lia.
    destruct Hc as [-> | [-> | [-> | ->]]]; vm_compute; reflexivity. }
  assert (H100 : 0 < 100) by lia.
  split; [rewrite H; reflexivity|]. split; [reflexivity|].
  destruct (job_needs_eog_to_cover_the_epochs D "night.edf" Demo.lower_labels
              false w (snd job) hdr
              (fun _ => Some (repeat 1%float (Z.to_nat 3000)))
              0 2 3 100 100 100
              (Demo_shapes O32_LITTLE_ENDIAN) H eq_refl eq_refl eq_refl eq_refl
              (Hrate 0 ltac:(lia)) H100 (Hrate 2 ltac:(lia)) H100
              (Hrate 3 ltac:(lia)) H100) as [H0|(Hl & _)].
  - vm_compute in H0. discriminate H0.
  - exact Hl.
Defined.

(** A recording of 30 s with the EEG at 100 Hz and the EOG at 200 Hz:
    the job reads 3000 samples of every channel, brings the EOG down to
    1500 samples and stops in the extractor; nothing is written. *)
Example faster_eog_aborts :
  let D := Demo.externals O32_LITTLE_ENDIAN in
  let w := Demo.disk (EdfOpened (Demo.header4 100 100 200 200 3000)
                        (fun _ => Some (Demo.ones 3000))) 1000 in
  fst (convertFile D "night.edf" Demo.lower_labels false w) = Failed Aborted
  /\ files (snd (convertFile D "night.edf" Demo.lower_labels false w))
       "night.cfs" = None.
Proof. vm_compute. split; reflexivity. Qed.

(** ** What a job looks at and what it touches *)

Lemma agree_refl path w : agree path w w.
Proof. repeat split. Qed.

















(** A job with overwriting on, at a destination that holds 1000 bytes
    on a disk with 5 bytes free: the old file is cut, and the new one
    of 33 bytes fits. *)
Example overwriting_frees_space :
  let w := set_file (Demo.disk (Demo.recording 100 100) 5) "night.cfs"
             (repeat x00 1000) 5 in
  let job := convertFile (Demo.externals O32_LITTLE_ENDIAN) "night.edf"
               Demo.lower_labels true w in
  fst job = Ok tt
  /\ option_map len (files (snd job) "night.cfs"%string) = Some 33
  /\ free_space (snd job) = 972.
Proof. vm_compute. repeat split; reflexivity. Qed.

(** ** Phase unwrapping (sigpack) *)

Lemma length_unwrap_from xs prev pacc :
  List.length (unwrap_from xs prev pacc) = List.length xs.
Proof.
  revert prev pacc. induction xs as [|x xs IH]; intros prev pacc;
    [reflexivity|].
  cbn [unwrap_from List.length]. now rewrite IH.
Qed.

Lemma unwrap_from_steady xs prev pacc :
  steady prev xs = true ->
  unwrap_from xs prev pacc = map (fun x => (pacc + x)%float) xs.
Proof.
  revert prev. induction xs as [|x xs IH]; intros prev H; [reflexivity|].
  cbn [steady] in H. apply andb_prop in H as (H & Hrest).
  apply andb_prop in H as (H1 & H2).
  apply negb_true_iff in H1, H2.
  cbn [unwrap_from map]. cbv zeta. rewrite H1, H2.
  f_equal. now apply IH.
Qed.

(** X14: [sp::unwrap]: on an empty vector the first store raises; on
    any other vector the result has the length of the input and starts
    with its first element; and on a signal without a jump, one whose
    neighbours never differ by 170 degrees or more, no correction is
    ever added: every later element is [0 + x(r)]. *)
Theorem unwrap_without_jumps :
  unwrap [] = None
  /\ forall x0 xs,
       exists P,
         unwrap (x0 :: xs) = Some P
         /\ len P = len (x0 :: xs)
         /\ at_ 0%float P 0 = x0
         /\ (steady x0 xs = true ->
             P = x0 :: map (fun x => (0 + x)%float) xs).
Proof.
  split; [reflexivity|]. intros x0 xs.
  exists (x0 :: unwrap_from xs x0 0). split; [reflexivity|]. split.
  - unfold len. cbn [List.length]. now rewrite length_unwrap_from.
  - split; [reflexivity|]. intros H. f_equal. now apply unwrap_from_steady.
Qed.

(** ** Jobs that return [true] *)

Lemma read_channel_ok physical r signal tot buf w :
  physical signal <> None ->
  exists buf' w',
    read_channel physical r signal tot buf w = (Ok buf', w').
Proof.
  intros H. unfold read_channel, bind, log, edfread_physical_samples.
  destruct (physical signal) as [data|]; [|now elim H].
  replace (len (firstn (Z.to_nat tot) data) =? -1) with false
    by (symmetry; apply Z.eqb_neq;
        pose proof (len_nonneg (firstn (Z.to_nat tot) data)); lia).
  cbv [negb guard ret]. eauto.
Qed.

Lemma read_channels_total hdr physical nC3 nC4 nEL nER w :
  0 <= smp_in_file (param hdr nC3) ->
  physical nC3 <> None -> physical nC4 <> None ->
  physical nEL <> None -> physical nER <> None ->
  exists d w', read_channels hdr physical nC3 nC4 nEL nER w = (Ok d, w').
Proof.
  intros Hcount H3 H4 Hl Hr. unfold read_channels. cbv zeta.
  set (tot := smp_in_file (param hdr nC3)) in *.
  apply Z.leb_le in Hcount. rewrite Hcount.
  do 5 (erewrite bind_step by reflexivity).
  match goal with
  | |- exists d w', bind (read_channel ?p ?r ?s ?t ?b) _ ?v = _ =>
      destruct (read_channel_ok p r s t b v H3) as (b3 & v3 & E3)
  end.
  rewrite (bind_step _ _ _ _ _ E3).
  destruct (read_channel_ok physical C4 nC4 tot (zeros tot) v3 H4)
    as (b4 & v4 & E4).
  rewrite (bind_step _ _ _ _ _ E4).
  destruct (read_channel_ok physical EL nEL tot (zeros tot) v4 Hl)
    as (bl & vl & El).
  rewrite (bind_step _ _ _ _ _ El).
  destruct (read_channel_ok physical ER nER tot (zeros tot) vl Hr)
    as (br & vr & Er).
  rewrite (bind_step _ _ _ _ _ Er).
  cbv [ret]. eauto.
Qed.

Lemma filter_and_resample_total E f m3 m4 ml mr d r3 rl rr :
  shapes E -> len (dataC3 d) = len (dataC4 d) ->
  Num.to_int (fC3 f) = Some r3 -> Num.to_int (fEL f) = Some rl ->
  Num.to_int (fER f) = Some rr ->
  exists s, filter_and_resample E f m3 m4 ml mr d = Some s.
Proof.
  intros HE Hlen H3 Hl Hr. unfold filter_and_resample, vec_add.
  rewrite !(conv_same_len E HE), !len_scale, Hlen, Z.eqb_refl.
  cbn [obind]. unfold to_100Hz. rewrite H3, Hl, Hr. cbn [obind]. eauto.
Qed.

Lemma spectrogram_reaches E a b c :
  shapes E ->
  Num.in_int (epochs_of (len a) * epochSize) = true ->
  epochs_of (len a) = 0
  \/ ((epochs_of (len a) - 1) * 3000 + 2918 <= len b
      /\ (epochs_of (len a) - 1) * 3000 + 2918 <= len c) ->
  exists payload, spectrogram E a b c = Some (epochs_of (len a), payload).
Proof.
  intros HE Hin Hc.
  pose proof (epochs_of_bounds (len a) (len_nonneg a)) as (He0 & He & _).
  unfold spectrogram. rewrite Hin. cbn [negb].
  set (epochs := epochs_of (len a)) in *.
  destruct (Z.eq_dec epochs 0) as [H0|H0]; [rewrite H0; cbn; eauto|].
  destruct Hc as [H0'|(Hb & Hc)]; [contradiction|].
  destruct (outer_loop_reaches E a b c epochs HE) with
    (es := for_range 0 epochs 1) (p := zeros (epochs * epochSize))
    as (p & Hp); try lia.
  - intros i. apply in_for_range_unit.
  - rewrite len_zeros. unfold epochSize. lia.
  - rewrite Hp. cbn [obind]. eauto.
Qed.

Lemma package_total E istream w :
  reliable E -> exists pk, package E istream w = (Ok pk, w).
Proof.
  intros HR. unfold package.
  destruct (sha1_some E HR istream) as (dg & ->).
  destruct (compress_ok E HR istream) as (o & ->). cbv [ret]. eauto.
Qed.

(** X15: When a job returns [true].  With libraries that deliver their
    shapes and do not fail, a job returns [true] whenever: overwriting
    is on or the destination does not exist; the recording opens; the
    four labels resolve; the four units are known; the sample count of C3 is not negative; C3
    and C4 have the
    same integer rate; edflib reads the four channels; the payload size
    is within [int]; the EEG gives no epoch or both EOG signals, read
    with C3's sample count and brought to 100 Hz from their own rates,
    reach the end of the last frame of the last epoch; and the
    destination can be opened.  The job then leaves a file at its
    destination. *)
Theorem job_returns_true E filename channelLabels overwrite w hdr physical
    nC3 nC4 nEL nER r3 rl rr :
  shapes E -> reliable E ->
  overwrite = true \/ files w (cfs_name filename) = None ->
  edf_files w filename = EdfOpened hdr physical ->
  resolve hdr channelLabels C3 = Some nC3 ->
  resolve hdr channelLabels C4 = Some nC4 ->
  resolve hdr channelLabels EL = Some nEL ->
  resolve hdr channelLabels ER = Some nER ->
  (forall k, In k [nC3; nC4; nEL; nER] ->
     (multiplier hdr k <? 0)%float = false /\ physical k <> None) ->
  Num.to_int (sample_rate hdr nC3) = Some r3 ->
  Num.to_int (sample_rate hdr nC4) = Some r3 ->
  Num.to_int (sample_rate hdr nEL) = Some rl ->
  Num.to_int (sample_rate hdr nER) = Some rr ->
  0 < r3 -> 0 < rl -> 0 < rr ->
  let n := smp_in_file (param hdr nC3) in
  0 <= n ->
  let at_100Hz r :=
    if r =? SAMPLINGRATE then n else resample_length SAMPLINGRATE r n in
  let epochs := at_100Hz r3 / 3000 in
  Num.in_int (epochs * epochSize) = true ->
  epochs = 0
  \/ ((epochs - 1) * 3000 + 2918 <= at_100Hz rl
      /\ (epochs - 1) * 3000 + 2918 <= at_100Hz rr) ->
  openable w (cfs_name filename) = true ->
  exists w' content,
    convertFile E filename channelLabels overwrite w = (Ok tt, w')
    /\ files w' (cfs_name filename) = Some content.
Proof.
  intros HE HR Hdest Ho H3 H4 Hl Hr Hch Hr3 Hr4 Hrl Hrr Hp3 Hpl Hpr
         n Hcount at_100Hz epochs Hin Hcover Hopen.
  assert (Hprep : exists out w1,
            prepare E filename channelLabels overwrite w = (Ok out, w1)
            /\ same_disk w w1).
  { unfold prepare. cbv zeta.
    erewrite bind_step by reflexivity. cbv beta.
    assert (Hfree : overwrite
                    || negb match files w (cfs_name filename) with
                            | Some _ => true
                            | None => false
                            end = true)
      by (destruct Hdest as [-> | ->];
          [reflexivity|apply orb_true_r]).
    rewrite Hfree.
    erewrite bind_step by reflexivity. cbv beta.
    erewrite bind_step
      by (unfold edfopen_file_readonly; rewrite Ho; reflexivity).
    cbv beta. cbn [fst snd].
    erewrite bind_step by (unfold find_channel; rewrite H3; reflexivity).
    erewrite bind_step by (unfold find_channel; rewrite H4; reflexivity).
    erewrite bind_step by (unfold find_channel; rewrite Hl; reflexivity).
    erewrite bind_step by (unfold find_channel; rewrite Hr; reflexivity).
    cbv beta.
    destruct (Hch nC3 ltac:(cbn; auto)) as (M3 & P3).
    destruct (Hch nC4 ltac:(cbn; auto)) as (M4 & P4).
    destruct (Hch nEL ltac:(cbn; auto)) as (ML & PL).
    destruct (Hch nER ltac:(cbn; auto)) as (MR & PR).
    rewrite M3, M4, ML, MR. cbn [orb negb].
    erewrite bind_step by reflexivity. cbv beta.
    cbn [fC3 fC4 fEL fER job_rates].
    rewrite Hr3, Hr4.
    erewrite bind_step by reflexivity.
    erewrite bind_step by reflexivity. cbv beta.
    rewrite Z.eqb_refl.
    erewrite bind_step by reflexivity. cbv beta.
    destruct (read_channels_total hdr physical nC3 nC4 nEL nER w Hcount
                P3 P4 PL PR) as (d & w1 & Hread).
    rewrite (bind_step _ _ _ _ _ Hread). cbv beta.
    apply read_channels_spec in Hread as (Hdisk & _ & Hlen).
    destruct (Hlen d eq_refl) as (L3 & L4 & LL & LR).
    fold n in L3, L4, LL, LR. rewrite Z.max_r in L3, L4, LL, LR by exact Hcount.
    destruct (filter_and_resample_total E
                (job_rates hdr nC3 nC4 nEL nER)
                (multiplier hdr nC3) (multiplier hdr nC4)
                (multiplier hdr nEL) (multiplier hdr nER) d r3 rl rr HE)
      as (s & Hs); try assumption; [congruence|].
    rewrite Hs.
    erewrite bind_step by reflexivity. cbv beta.
    pose proof (eeg_length E _ _ _ _ _ _ _ r3 HE Hs Hr3 Hp3) as Leeg.
    pose proof (eog_lengths E _ _ _ _ _ _ _ rl rr HE Hs Hrl Hpl Hrr Hpr)
      as (Leogl & Leogr).
    rewrite L3 in Leeg. rewrite LL in Leogl. rewrite LR in Leogr.
    fold (at_100Hz r3) in Leeg. fold (at_100Hz rl) in Leogl.
    fold (at_100Hz rr) in Leogr.
    destruct (spectrogram_reaches E (eegFilt s) (eoglFilt s) (eogrFilt s) HE)
      as (payload & Hsp).
    { unfold epochs_of. rewrite Leeg. exact Hin. }
    { unfold epochs_of. rewrite Leeg, Leogl, Leogr. exact Hcover. }
    rewrite Hsp.
    erewrite bind_step by reflexivity. cbv beta.
    destruct (package_total E (payload_bytes E
                (snd (epochs_of (len (eegFilt s)), payload))) w1 HR)
      as (pk & Hpk).
    rewrite (bind_step _ _ _ _ _ Hpk). cbv beta.
    cbv [ret]. eauto. }
  destruct Hprep as (out & w1 & Hp & Hdisk).
  unfold convertFile. rewrite (bind_step _ _ _ _ _ Hp).
  destruct (write_cfs E (cfs_name filename) (fst (fst out)) (snd (fst out))
              (snd out) w1) as [r w'] eqn:Hw.
  destruct Hdisk as (_ & Hopenable & _).
  apply write_cfs_cases in Hw
    as [(Hno & _)|(_ & -> & image & Hh)]; [congruence|].
  exists w'. eexists. split; [reflexivity|]. apply Hh.
Qed.

Lemma Demo_reliable host : reliable (Demo.externals host).
Proof. constructor; cbn [Demo.externals sha1 compress]; eauto. Qed.

Lemma job_returns_true_witness :
  exists w' content,
    convertFile (Demo.externals O32_BIG_ENDIAN) "night.edf"
      Demo.lower_labels false (Demo.disk (Demo.recording 100 3000) 1000)
    = (Ok tt, w')
    /\ files w' "night.cfs" = Some content.
Proof.
  set (D := Demo.externals O32_BIG_ENDIAN).
  set (hdr := Demo.header 100 3000).
  assert (Hrate : forall k, In k [0; 1; 2; 3] ->
            Num.to_int (sample_rate hdr k) = Some 100).
  { intros k [<- | [<- | [<- | [<- | []]]]]; vm_compute; reflexivity. }
  assert (Hch : forall k, In k [0; 1; 2; 3] ->
            (multiplier hdr k <? 0)%float = false
            /\ (fun _ : Z => Some (repeat 1%float (Z.to_nat 3000))) k <> None).
  { intros k [<- | [<- | [<- | [<- | []]]]];
      (split; [vm_compute; reflexivity|discriminate]). }
  assert (H100 : 0 < 100) by lia.
  assert (Hcount : 0 <= 3000) by lia.
  assert (Hin : Num.in_int (3000 / 3000 * epochSize) = true)
    by (vm_compute; reflexivity).
  assert (Hcover : 3000 / 3000 = 0
                   \/ ((3000 / 3000 - 1) * 3000 + 2918 <= 3000
                       /\ (3000 / 3000 - 1) * 3000 + 2918 <= 3000))
    by (right; vm_compute; split; discriminate).
  exact (job_returns_true D "night.edf" Demo.lower_labels false
           (Demo.disk (Demo.recording 100 3000) 1000) hdr
           (fun _ => Some (repeat 1%float (Z.to_nat 3000)))
           0 1 2 3 100 100 100
           (Demo_shapes O32_BIG_ENDIAN) (Demo_reliable O32_BIG_ENDIAN)
           (or_intror eq_refl) eq_refl eq_refl eq_refl eq_refl eq_refl Hch
           (Hrate 0 ltac:(cbn; auto)) (Hrate 1 ltac:(cbn; auto))
           (Hrate 2 ltac:(cbn; auto)) (Hrate 3 ltac:(cbn; auto))
           H100 H100 H100 Hcount Hin Hcover eq_refl).
Defined.
